(** * EncryptedSurvey: a shallow embedding of the survey contract

    The development follows [backend/contracts/EncryptedSurvey.sol].
    Contract storage is an explicit record, every external function is a
    computation in a small state-and-revert monad, and the external FHE
    library is a plaintext-shadowing mock: every encrypted handle carries
    the integer it encrypts next to its opaque identifier, and the access
    control list is a log of (handle, address) grants.

    The file has three parts: the model of the contract, the vocabulary in
    which its behaviour is stated, and the lemmas and theorems. Counters are
    [euint32]: all arithmetic on their plaintexts is modulo [2^32].

    The vocabulary ends with the pieces of the web client that prepare the
    arguments of a call or read its results, and the theorems end with the
    behaviour of the contract along runs, its invariants, and what the client
    and the contract do together. *)

From stdpp Require Import gmap strings list fin_maps.
From Stdlib Require Import ZArith Lia.

Set Default Proof Using "Type".
Set Warnings "-notation-for-abbreviation".

(** ** Machine integers *)

Definition address := N.
Definition bytes := list Byte.byte.

(** Explicit conversion [uint32(x)]: truncation to the low 32 bits. *)
Definition uint32 (x : Z) : Z := (x mod 2 ^ 32)%Z.
Arguments uint32 : simpl never.

(** [a << b] on [uint32]: the product is truncated to the operand type. *)
Definition shl32 (a b : Z) : Z := uint32 (Z.shiftl a b).

Definition UINT256_MAX : N := (2 ^ 256 - 1)%N.

(** ** The encrypted-integer library *)

(** An [euint32] is an opaque handle identifier together with the plaintext
    it encrypts (kept only in the mock). Identifier [0] is the
    uninitialised handle: that is what a fresh storage slot of type
    [euint32] holds, and the library reads it as an encryption of zero. *)
Record euint32 := Euint32 { hid : N; shadow : Z }.
Record ebool := Ebool { bid : N; bshadow : bool }.

Definition externalEuint32 := N.

Definition euint32_zero : euint32 := Euint32 0 0.

(** Modelled from the spec: the FHE library ([@fhevm/solidity]) and its ACL
    are external to the repository. Per the specification every operation
    yields a fresh handle, a fresh handle has no grants, and grants are
    additive and made per handle. [nextHandle] is the next unused
    identifier and [acl] the log of grants, most recent first. *)
Record Coprocessor := MkCoprocessor {
  nextHandle : N;
  acl : list (N * address)
}.

Definition isAllowed (c : Coprocessor) (h : N) (a : address) : Prop :=
  (h, a) ∈ acl c.

(** ** Contract data *)

Inductive QuestionType := SingleChoice | MultipleChoice | Rating.

Global Instance QuestionType_eq_dec : EqDecision QuestionType.
Proof. solve_decision. Defined.

Record Question := MkQuestion {
  text : string;
  qType : QuestionType;
  optionCount : nat;
  options : list string
}.

Record Survey := MkSurvey {
  creator : address;
  title : string;
  category : string;
  tags : list string;
  createdAt : N;
  startTime : N;
  endTime : N;
  s_exists : bool;
  isActive : bool;
  questionCount : nat;
  questions : gmap nat Question;
  optionVotes : gmap nat euint32;
  aggregatedCounts : gmap (nat * nat) euint32;
  totalResponses : euint32
}.

Record Response := MkResponse {
  encryptedAnswers : gmap nat euint32;
  r_exists : bool;
  submittedAt : N
}.

Record Permission := MkPermission {
  canView : bool;
  canExport : bool;
  canManage : bool;
  p_exists : bool
}.

Inductive Event :=
| SurveyCreated (surveyId : N) (who : address) (ttl cat : string) (qcount : nat)
| ResponseSubmitted (surveyId : N) (participant : address)
| PermissionGranted (surveyId : N) (viewer granter : address)
| PermissionRevoked (surveyId : N) (viewer revoker : address)
| SurveyStatusChanged (surveyId : N) (active : bool).

(** Contract storage. Solidity mappings are total: a key that was never
    written reads as the zero value of the value type, which the accessors
    below supply. *)
Record State := MkState {
  surveys : gmap N Survey;
  responses : gmap (N * address) Response;
  permissions : gmap (N * address) Permission;
  surveyCounter : N;
  fhe : Coprocessor;
  events : list Event
}.

Definition emptyQuestion : Question := MkQuestion "" SingleChoice 0 [].

Definition emptySurvey : Survey :=
  MkSurvey 0%N "" "" [] 0%N 0%N 0%N false false 0 ∅ ∅ ∅ euint32_zero.

Definition emptyResponse : Response := MkResponse ∅ false 0%N.

Definition emptyPermission : Permission := MkPermission false false false false.

Definition initState : State :=
  MkState ∅ ∅ ∅ 0%N (MkCoprocessor 1%N []) [].

Definition survey (s : State) (id : N) : Survey :=
  default emptySurvey (surveys s !! id).

Definition question (sv : Survey) (q : nat) : Question :=
  default emptyQuestion (questions sv !! q).

Definition aggregated (sv : Survey) (q o : nat) : euint32 :=
  default euint32_zero (aggregatedCounts sv !! (q, o)).

Definition response (s : State) (id : N) (user : address) : Response :=
  default emptyResponse (responses s !! (id, user)).

Definition answer (r : Response) (q : nat) : euint32 :=
  default euint32_zero (encryptedAnswers r !! q).

Definition permission (s : State) (id : N) (user : address) : Permission :=
  default emptyPermission (permissions s !! (id, user)).

(** Field updates. *)

Definition set_surveys (f : gmap N Survey → gmap N Survey) (s : State) : State :=
  MkState (f (surveys s)) (responses s) (permissions s) (surveyCounter s) (fhe s) (events s).

Definition set_responses (f : gmap (N * address) Response → gmap (N * address) Response)
    (s : State) : State :=
  MkState (surveys s) (f (responses s)) (permissions s) (surveyCounter s) (fhe s) (events s).

Definition set_permissions (f : gmap (N * address) Permission → gmap (N * address) Permission)
    (s : State) : State :=
  MkState (surveys s) (responses s) (f (permissions s)) (surveyCounter s) (fhe s) (events s).

Definition set_surveyCounter (n : N) (s : State) : State :=
  MkState (surveys s) (responses s) (permissions s) n (fhe s) (events s).

Definition set_fhe (c : Coprocessor) (s : State) : State :=
  MkState (surveys s) (responses s) (permissions s) (surveyCounter s) c (events s).

Definition set_events (l : list Event) (s : State) : State :=
  MkState (surveys s) (responses s) (permissions s) (surveyCounter s) (fhe s) l.

Definition set_isActive (b : bool) (sv : Survey) : Survey :=
  MkSurvey (creator sv) (title sv) (category sv) (tags sv) (createdAt sv)
    (startTime sv) (endTime sv) (s_exists sv) b (questionCount sv)
    (questions sv) (optionVotes sv) (aggregatedCounts sv) (totalResponses sv).

Definition set_questions (m : gmap nat Question) (sv : Survey) : Survey :=
  MkSurvey (creator sv) (title sv) (category sv) (tags sv) (createdAt sv)
    (startTime sv) (endTime sv) (s_exists sv) (isActive sv) (questionCount sv)
    m (optionVotes sv) (aggregatedCounts sv) (totalResponses sv).

Definition set_aggregatedCounts (m : gmap (nat * nat) euint32) (sv : Survey) : Survey :=
  MkSurvey (creator sv) (title sv) (category sv) (tags sv) (createdAt sv)
    (startTime sv) (endTime sv) (s_exists sv) (isActive sv) (questionCount sv)
    (questions sv) (optionVotes sv) m (totalResponses sv).

Definition set_totalResponses (e : euint32) (sv : Survey) : Survey :=
  MkSurvey (creator sv) (title sv) (category sv) (tags sv) (createdAt sv)
    (startTime sv) (endTime sv) (s_exists sv) (isActive sv) (questionCount sv)
    (questions sv) (optionVotes sv) (aggregatedCounts sv) e.

(** The header fields written at the top of [createSurvey]; the mappings
    and the counter of the storage slot are kept as they are. *)
Definition set_header (c : address) (ttl cat : string) (tgs : list string)
    (now st en : N) (n : nat) (sv : Survey) : Survey :=
  MkSurvey c ttl cat tgs now st en true true n
    (questions sv) (optionVotes sv) (aggregatedCounts sv) (totalResponses sv).

Definition set_answer (q : nat) (e : euint32) (r : Response) : Response :=
  MkResponse (<[q := e]> (encryptedAnswers r)) (r_exists r) (submittedAt r).

Definition set_submitted (now : N) (r : Response) : Response :=
  MkResponse (encryptedAnswers r) true now.

Definition set_flags (v e m : bool) (p : Permission) : Permission :=
  MkPermission v e m (p_exists p).

Definition set_p_exists (b : bool) (p : Permission) : Permission :=
  MkPermission (canView p) (canExport p) (canManage p) b.

(** The guard of [setSurveyStatus]: [perm.exists && perm.canManage]. *)
Definition isManager (p : Permission) : bool := p_exists p && canManage p.

(** The guard of the [authorize*] functions: [perm.exists && perm.canView]. *)
Definition isViewer (p : Permission) : bool := p_exists p && canView p.

(** ** Transactions: state and revert *)

Inductive Res (A : Type) :=
| Ok (a : A)
| Revert (msg : string).
Arguments Ok {A} a.
Arguments Revert {A} msg.

Definition M (A : Type) : Type := State → Res (A * State).

Definition ret {A} (a : A) : M A := fun s => Ok (a, s).

Definition bind {A B} (m : M A) (k : A → M B) : M B :=
  fun s => match m s with
           | Ok (a, s') => k a s'
           | Revert msg => Revert msg
           end.

Notation "'do' x <- m ; k" := (bind m (fun x => k))
  (at level 10, x name, m at level 100, k at level 200).
Notation "m ;; k" := (bind m (fun _ => k))
  (at level 100, k at level 200, right associativity).

Definition revert {A} (msg : string) : M A := fun _ => Revert msg.

Definition require (b : bool) (msg : string) : M unit :=
  if b then ret tt else revert msg.

Definition get : M State := fun s => Ok (s, s).

Definition modify (f : State → State) : M unit := fun s => Ok (tt, f s).

Definition emit (e : Event) : M unit := modify (fun s => set_events (e :: events s) s).

(** A [for] loop over the values of [l], in order. *)
Fixpoint forEach {A} (l : list A) (body : A → M unit) : M unit :=
  match l with
  | [] => ret tt
  | x :: l' => body x ;; forEach l' body
  end.

(** Reading [a[i]] from a calldata or memory array; an index out of range
    panics with code 0x32. *)
Definition index {A} (l : list A) (i : nat) : M A :=
  match l !! i with
  | Some x => ret x
  | None => revert "Panic(0x32)"
  end.

Definition modifySurvey (id : N) (f : Survey → Survey) : M unit :=
  modify (fun s => set_surveys (fun m => <[id := f (survey s id)]> m) s).

Definition modifyResponse (id : N) (user : address) (f : Response → Response) : M unit :=
  modify (fun s => set_responses (fun m => <[(id, user) := f (response s id user)]> m) s).

Definition modifyPermission (id : N) (user : address) (f : Permission → Permission) : M unit :=
  modify (fun s => set_permissions (fun m => <[(id, user) := f (permission s id user)]> m) s).

(** Call context: [msg.sender] and [block.timestamp]. *)
Record Env := MkEnv { sender : address; timestamp : N }.
Arguments MkEnv (sender timestamp)%_N.

(** ** Library operations

    Every operation draws the next unused identifier; the plaintext of the
    result is computed from the plaintexts of the operands in 32-bit
    arithmetic. An uninitialised operand is read as zero. *)

Definition freshHandle : M N := fun s =>
  Ok (nextHandle (fhe s),
      set_fhe (MkCoprocessor (N.succ (nextHandle (fhe s))) (acl (fhe s))) s).

Module FHE.

Definition asEuint32 (v : Z) : M euint32 :=
  do h <- freshHandle; ret (Euint32 h (uint32 v)).

Definition fromExternal (verifyCiphertext : externalEuint32 → bytes → option Z)
    (input : externalEuint32) (proof : bytes) : M euint32 :=
  match verifyCiphertext input proof with
  | Some v => do h <- freshHandle; ret (Euint32 h (uint32 v))
  | None => revert "Invalid input proof"
  end.

Definition add (a b : euint32) : M euint32 :=
  do h <- freshHandle; ret (Euint32 h (uint32 (shadow a + shadow b))).

Definition select (c : ebool) (a b : euint32) : M euint32 :=
  do h <- freshHandle; ret (Euint32 h (if bshadow c then shadow a else shadow b)).

Definition gt (a b : euint32) : M ebool :=
  do h <- freshHandle; ret (Ebool h (shadow b <? shadow a)%Z).

Definition and (a b : euint32) : M euint32 :=
  do h <- freshHandle; ret (Euint32 h (Z.land (shadow a) (shadow b))).

Definition eq (a b : euint32) : M ebool :=
  do h <- freshHandle; ret (Ebool h (shadow a =? shadow b)%Z).

Definition allow (e : euint32) (a : address) : M unit :=
  modify (fun s =>
    set_fhe (MkCoprocessor (nextHandle (fhe s)) ((hid e, a) :: acl (fhe s))) s).

Definition allowThis (this : address) (e : euint32) : M unit := allow e this.

End FHE.

(** ** The contract *)

Section Contract.

(** [address(this)], and the input verifier behind [FHE.fromExternal]:
    for an external ciphertext and its proof it yields the encrypted
    value when the proof is accepted. *)
Variable this : address.
Variable verifyCiphertext : externalEuint32 → bytes → option Z.

Definition createSurvey (env : Env) (title category : string) (tags : list string)
    (startTime endTime : N) (questionTexts : list string)
    (questionTypes : list QuestionType) (questionOptions : list (list string)) : M N :=
  require (0 <? String.length title) "Title cannot be empty" ;;
  require (startTime <? endTime)%N "Invalid time range" ;;
  require ((0 <? length questionTexts) && (length questionTexts <=? 20))
    "Invalid question count" ;;
  require (length questionTexts =? length questionTypes)
    "Question texts and types length mismatch" ;;
  require (length questionTexts =? length questionOptions)
    "Question texts and options length mismatch" ;;
  do s <- get;
  let surveyId := surveyCounter s in
  require (surveyId <? UINT256_MAX)%N "Panic(0x11)" ;;
  modify (set_surveyCounter (surveyId + 1)%N) ;;
  modifySurvey surveyId
    (set_header (sender env) title category tags (timestamp env) startTime endTime
       (length questionTexts)) ;;
  forEach (seq 0 (length questionTexts)) (fun i =>
    do txt <- index questionTexts i;
    require (0 <? String.length txt) "Question text cannot be empty" ;;
    do opts <- index questionOptions i;
    require (0 <? length opts) "Question must have at least one option" ;;
    do ty <- index questionTypes i;
    modifySurvey surveyId (fun sv =>
      set_questions (<[i := MkQuestion txt ty (length opts) opts]> (questions sv)) sv)) ;;
  do zero <- FHE.asEuint32 0;
  modifySurvey surveyId (set_totalResponses zero) ;;
  do s1 <- get;
  FHE.allowThis this (totalResponses (survey s1 surveyId)) ;;
  modifyPermission surveyId (sender env)
    (fun p => set_p_exists true (set_flags true true true p)) ;;
  do s2 <- get;
  FHE.allow (totalResponses (survey s2 surveyId)) (sender env) ;;
  emit (SurveyCreated surveyId (sender env) title category (length questionTexts)) ;;
  ret surveyId.

(** The three statements every branch of [submitResponse] ends an
    iteration with: [aggregatedCounts[q][o] = FHE.add(aggregatedCounts[q][o], inc)],
    then [allowThis] and [allow(.., survey.creator)] on the slot just written. *)
Definition accumulate (surveyId : N) (q o : nat) (inc : euint32) : M unit :=
  do s <- get;
  do sum <- FHE.add (aggregated (survey s surveyId) q o) inc;
  modifySurvey surveyId (fun sv =>
    set_aggregatedCounts (<[(q, o) := sum]> (aggregatedCounts sv)) sv) ;;
  do s1 <- get;
  FHE.allowThis this (aggregated (survey s1 surveyId) q o) ;;
  do s2 <- get;
  FHE.allow (aggregated (survey s2 surveyId) q o) (creator (survey s2 surveyId)).

Definition tallySingleChoice (surveyId : N) (q : nat) (encryptedAnswer : euint32)
    (o : nat) : M unit :=
  do c <- FHE.asEuint32 (uint32 (Z.of_nat o));
  do b <- FHE.eq encryptedAnswer c;
  do one <- FHE.asEuint32 1;
  do zero <- FHE.asEuint32 0;
  do inc <- FHE.select b one zero;
  accumulate surveyId q o inc.

Definition tallyMultipleChoice (surveyId : N) (q : nat) (encryptedAnswer : euint32)
    (o : nat) : M unit :=
  do bit <- FHE.asEuint32 (shl32 1 (uint32 (Z.of_nat o)));
  do masked <- FHE.and encryptedAnswer bit;
  do z <- FHE.asEuint32 0;
  do b <- FHE.gt masked z;
  do one <- FHE.asEuint32 1;
  do zero <- FHE.asEuint32 0;
  do inc <- FHE.select b one zero;
  accumulate surveyId q o inc.

Definition tallyRating (surveyId : N) (q : nat) (encryptedAnswer : euint32)
    (r : nat) : M unit :=
  do c <- FHE.asEuint32 (Z.of_nat r);
  do b <- FHE.eq encryptedAnswer c;
  do one <- FHE.asEuint32 1;
  do zero <- FHE.asEuint32 0;
  do inc <- FHE.select b one zero;
  let bucket := r - 1 in
  accumulate surveyId q bucket inc.

(** One iteration of the loop over the questions. *)
Definition processAnswer (env : Env) (surveyId : N)
    (encryptedAnswers : list externalEuint32) (answerProofs : list bytes)
    (q : nat) : M unit :=
  do input <- index encryptedAnswers q;
  do proof <- index answerProofs q;
  do encryptedAnswer <- FHE.fromExternal verifyCiphertext input proof;
  modifyResponse surveyId (sender env) (set_answer q encryptedAnswer) ;;
  FHE.allowThis this encryptedAnswer ;;
  do s <- get;
  let qn := question (survey s surveyId) q in
  match qType qn with
  | SingleChoice =>
      forEach (seq 0 (optionCount qn)) (tallySingleChoice surveyId q encryptedAnswer)
  | MultipleChoice =>
      forEach (seq 0 (optionCount qn)) (tallyMultipleChoice surveyId q encryptedAnswer)
  | Rating =>
      forEach (seq 1 5) (tallyRating surveyId q encryptedAnswer)
  end.

(** The block that closes [submitResponse]: add one to the total and
    grant the new handle to the contract and to the creator. *)
Definition incrementTotalResponses (surveyId : N) : M unit :=
  do s1 <- get;
  do one <- FHE.asEuint32 1;
  do sum <- FHE.add (totalResponses (survey s1 surveyId)) one;
  modifySurvey surveyId (set_totalResponses sum) ;;
  do s2 <- get;
  FHE.allowThis this (totalResponses (survey s2 surveyId)) ;;
  do s3 <- get;
  FHE.allow (totalResponses (survey s3 surveyId)) (creator (survey s3 surveyId)).

Definition submitResponse (env : Env) (surveyId : N)
    (encryptedAnswers : list externalEuint32) (answerProofs : list bytes) : M unit :=
  do s <- get;
  let sv := survey s surveyId in
  require (s_exists sv) "Survey does not exist" ;;
  require (isActive sv) "Survey is not active" ;;
  require ((startTime sv <=? timestamp env)%N && (timestamp env <=? endTime sv)%N)
    "Survey period invalid" ;;
  require (length encryptedAnswers =? questionCount sv) "Answers length mismatch" ;;
  require (length answerProofs =? questionCount sv) "Proofs length mismatch" ;;
  require (negb (r_exists (response s surveyId (sender env))))
    "Response already submitted" ;;
  modifyResponse surveyId (sender env) (set_submitted (timestamp env)) ;;
  forEach (seq 0 (questionCount sv))
    (processAnswer env surveyId encryptedAnswers answerProofs) ;;
  incrementTotalResponses surveyId ;;
  emit (ResponseSubmitted surveyId (sender env)).

Definition grantPermission (env : Env) (surveyId : N) (viewer : address)
    (canView canExport canManage : bool) : M unit :=
  do s <- get;
  let sv := survey s surveyId in
  require (s_exists sv) "Survey does not exist" ;;
  require (sender env =? creator sv)%N "Only creator can grant permissions" ;;
  modifyPermission surveyId viewer
    (fun p => set_p_exists true (set_flags canView canExport canManage p)) ;;
  FHE.allow (totalResponses sv) viewer ;;
  emit (PermissionGranted surveyId viewer (sender env)).

Definition revokePermission (env : Env) (surveyId : N) (viewer : address) : M unit :=
  do s <- get;
  let sv := survey s surveyId in
  require (s_exists sv) "Survey does not exist" ;;
  require (sender env =? creator sv)%N "Only creator can revoke permissions" ;;
  modifyPermission surveyId viewer (set_flags false false false) ;;
  emit (PermissionRevoked surveyId viewer (sender env)).

Definition setSurveyStatus (env : Env) (surveyId : N) (isActive : bool) : M unit :=
  do s <- get;
  let sv := survey s surveyId in
  require (s_exists sv) "Survey does not exist" ;;
  require ((sender env =? creator sv)%N || isManager (permission s surveyId (sender env)))
    "Not authorized" ;;
  modifySurvey surveyId (set_isActive isActive) ;;
  emit (SurveyStatusChanged surveyId isActive).

Definition authorizedToView (s : State) (env : Env) (surveyId : N) : M unit :=
  if (sender env =? creator (survey s surveyId))%N then ret tt
  else
    let perm := permission s surveyId (sender env) in
    require (isViewer perm) "Not authorized to view".

Definition authorizeMyDecryption (env : Env) (surveyId : N) : M unit :=
  do s <- get;
  let sv := survey s surveyId in
  require (s_exists sv) "Survey does not exist" ;;
  authorizedToView s env surveyId ;;
  FHE.allow (totalResponses sv) (sender env).

(** Number of buckets of a question: [qType == Rating ? 5 : optionCount]. *)
Definition bucketCount (qn : Question) : nat :=
  if decide (qType qn = Rating) then 5 else optionCount qn.

Definition authorizeAllResultsDecryption (env : Env) (surveyId : N) : M unit :=
  do s <- get;
  let sv := survey s surveyId in
  require (s_exists sv) "Survey does not exist" ;;
  authorizedToView s env surveyId ;;
  FHE.allow (totalResponses sv) (sender env) ;;
  forEach (seq 0 (questionCount sv)) (fun q =>
    do s1 <- get;
    let len := bucketCount (question (survey s1 surveyId) q) in
    forEach (seq 0 len) (fun o =>
      do s2 <- get;
      FHE.allow (aggregated (survey s2 surveyId) q o) (sender env))).

(** *** Views *)

Definition getSurveyInfo (surveyId : N)
    : M (address * string * string * N * N * N * nat * bool * bool) :=
  do s <- get;
  let sv := survey s surveyId in
  ret (creator sv, title sv, category sv, createdAt sv, startTime sv, endTime sv,
       questionCount sv, s_exists sv, isActive sv).

Definition getQuestionInfo (surveyId : N) (questionIndex : nat)
    : M (string * QuestionType * nat * list string) :=
  do s <- get;
  let sv := survey s surveyId in
  require (s_exists sv) "Survey does not exist" ;;
  require (questionIndex <? questionCount sv) "Invalid question index" ;;
  let qn := question sv questionIndex in
  ret (text qn, qType qn, optionCount qn, options qn).

Definition getTotalResponses (surveyId : N) : M euint32 :=
  do s <- get;
  let sv := survey s surveyId in
  require (s_exists sv) "Survey does not exist" ;;
  ret (totalResponses sv).

Definition getResponse (surveyId : N) (userAddress : address) (questionIndex : nat)
    : M euint32 :=
  do s <- get;
  let r := response s surveyId userAddress in
  require (r_exists r) "Response does not exist" ;;
  require (questionIndex <? questionCount (survey s surveyId)) "Invalid question index" ;;
  ret (answer r questionIndex).

Definition getQuestionOptionCounts (surveyId : N) (questionIndex : nat)
    : M (list euint32) :=
  do s <- get;
  let sv := survey s surveyId in
  require (s_exists sv) "Survey does not exist" ;;
  require (questionIndex <? questionCount sv) "Invalid question index" ;;
  let len := bucketCount (question sv questionIndex) in
  ret (map (fun o => aggregated sv questionIndex o) (seq 0 len)).

Definition hasResponded (surveyId : N) (userAddress : address) : M bool :=
  do s <- get; ret (r_exists (response s surveyId userAddress)).

Definition getPermission (surveyId : N) (userAddress : address)
    : M (bool * bool * bool) :=
  do s <- get;
  let perm := permission s surveyId userAddress in
  ret (canView perm, canExport perm, canManage perm).

Definition getSurveyTags (surveyId : N) : M (list string) :=
  do s <- get;
  let sv := survey s surveyId in
  require (s_exists sv) "Survey does not exist" ;;
  ret (tags sv).

End Contract.

(** ** Calls and runs *)

(** The state-changing entry points with their arguments. *)
Inductive Call :=
| CreateSurvey (title category : string) (tags : list string) (startTime endTime : N)
    (questionTexts : list string) (questionTypes : list QuestionType)
    (questionOptions : list (list string))
| SubmitResponse (surveyId : N) (encryptedAnswers : list externalEuint32)
    (answerProofs : list bytes)
| GrantPermission (surveyId : N) (viewer : address) (canView canExport canManage : bool)
| RevokePermission (surveyId : N) (viewer : address)
| SetSurveyStatus (surveyId : N) (isActive : bool)
| AuthorizeMyDecryption (surveyId : N)
| AuthorizeAllResultsDecryption (surveyId : N).
Arguments CreateSurvey _ _ _ (startTime endTime)%_N _ _ _.
Arguments SubmitResponse surveyId%_N _ _.
Arguments GrantPermission (surveyId viewer)%_N _ _ _.
Arguments RevokePermission (surveyId viewer)%_N.
Arguments SetSurveyStatus surveyId%_N _.
Arguments AuthorizeMyDecryption surveyId%_N.
Arguments AuthorizeAllResultsDecryption surveyId%_N.

Section Execution.

Variable this : address.
Variable verifyCiphertext : externalEuint32 → bytes → option Z.

(** Running a computation as a transaction: the state after it, or the
    revert reason; and the value a view returns. *)
Definition exec {A} (m : M A) (s : State) : Res State :=
  match m s with
  | Ok (_, s') => Ok s'
  | Revert msg => Revert msg
  end.

Definition view {A} (m : M A) (s : State) : Res A :=
  match m s with
  | Ok (a, _) => Ok a
  | Revert msg => Revert msg
  end.

Definition dispatch (env : Env) (c : Call) : State → Res State :=
  match c with
  | CreateSurvey t cat tg st en qt qty qo =>
      exec (createSurvey this env t cat tg st en qt qty qo)
  | SubmitResponse id ans prf =>
      exec (submitResponse this verifyCiphertext env id ans prf)
  | GrantPermission id v cv ce cm => exec (grantPermission env id v cv ce cm)
  | RevokePermission id v => exec (revokePermission env id v)
  | SetSurveyStatus id b => exec (setSurveyStatus env id b)
  | AuthorizeMyDecryption id => exec (authorizeMyDecryption env id)
  | AuthorizeAllResultsDecryption id => exec (authorizeAllResultsDecryption env id)
  end.

(** A reverted call leaves the storage as it was. *)
Definition step (s : State) (ec : Env * Call) : State :=
  match dispatch ec.1 ec.2 s with
  | Ok s' => s'
  | Revert _ => s
  end.

Definition run (s : State) (calls : list (Env * Call)) : State :=
  foldl step s calls.

(** The states the deployed contract can be in. *)
Inductive reachable : State → Prop :=
| reachable_init : reachable initState
| reachable_step s env c s' :
    reachable s → dispatch env c s = Ok s' → reachable s'.

End Execution.

(** * Vocabulary of the specification

    The state transformers, relations and invariants in which the effects
    of the entry points are stated. *)

(** The fields of a survey that [createSurvey] writes and nothing else
    does: everything except the active flag and the encrypted counters. *)
Definition meta (sv : Survey) :=
  (creator sv, title sv, category sv, tags sv, createdAt sv, startTime sv,
   endTime sv, s_exists sv, questionCount sv, questions sv).

(** [bump this id q o k v]: the state after one iteration of a tallying
    loop. The iteration draws [k] handles for its intermediate values, then
    replaces [aggregatedCounts[q][o]] by a fresh handle encrypting the old
    plaintext plus [v], and grants that handle to the contract and to the
    creator. *)
Definition bump (this : address) (id : N) (q o : nat) (k : nat) (v : Z) (s : State) : State :=
  let n := Nat.iter k N.succ (nextHandle (fhe s)) in
  let sv := survey s id in
  let sum := Euint32 n (uint32 (shadow (aggregated sv q o) + v)) in
  MkState
    (<[id := set_aggregatedCounts (<[(q, o) := sum]> (aggregatedCounts sv)) sv]> (surveys s))
    (responses s) (permissions s) (surveyCounter s)
    (MkCoprocessor (N.succ n) ((n, creator sv) :: (n, this) :: acl (fhe s)))
    (events s).

(** What a tallying loop of [n] iterations over the buckets [0..n-1] of
    question [q] does, when iteration [o] adds [ind o] to bucket [o]. *)
Record tally_effect (id : N) (q n : nat) (ind : nat → Z) (s s' : State) : Prop := {
  te_others : ∀ id', id' ≠ id → surveys s' !! id' = surveys s !! id';
  te_meta : meta (survey s' id) = meta (survey s id);
  te_active : isActive (survey s' id) = isActive (survey s id);
  te_total : totalResponses (survey s' id) = totalResponses (survey s id);
  te_kept : ∀ q' o', q' ≠ q ∨ n ≤ o' →
    aggregated (survey s' id) q' o' = aggregated (survey s id) q' o';
  te_added : ∀ o, o < n →
    shadow (aggregated (survey s' id) q o)
    = uint32 (shadow (aggregated (survey s id) q o) + ind o);
  te_responses : responses s' = responses s;
  te_permissions : permissions s' = permissions s;
  te_counter : surveyCounter s' = surveyCounter s;
  te_events : events s' = events s
}.

(** The value iteration [o] of the tallying loop of a question adds to
    bucket [o], as a function of the plaintext answer [a]. *)
Definition indicator (qn : Question) (a : Z) (o : nat) : Z :=
  match qType qn with
  | SingleChoice =>
      if (a =? uint32 (uint32 (Z.of_nat o)))%Z then uint32 1 else uint32 0
  | MultipleChoice =>
      if (uint32 0 <? Z.land a (uint32 (shl32 1 (uint32 (Z.of_nat o)))))%Z
      then uint32 1 else uint32 0
  | Rating =>
      if (a =? uint32 (Z.of_nat (1 + o)))%Z then uint32 1 else uint32 0
  end.

(** The state after an answer has been imported, stored and granted to the
    contract. *)
Definition imported (this : address) (id : N) (u : address) (q : nat) (a : Z) (s : State)
    : State :=
  let n := nextHandle (fhe s) in
  MkState (surveys s)
    (<[(id, u) := set_answer q (Euint32 n a) (response s id u)]> (responses s))
    (permissions s) (surveyCounter s)
    (MkCoprocessor (N.succ n) ((n, this) :: acl (fhe s)))
    (events s).

(** The plaintext of the answer to question [q] carried by the arguments of
    a [submitResponse] call, when its proof verifies. *)
Definition plainAnswer (verifyCiphertext : externalEuint32 → bytes → option Z)
    (encryptedAnswers : list externalEuint32) (answerProofs : list bytes) (q : nat)
    : option Z :=
  match encryptedAnswers !! q, answerProofs !! q with
  | Some input, Some proof => uint32 <$> verifyCiphertext input proof
  | _, _ => None
  end.

(** What the first [k] iterations of the loop over the questions do. *)
Record answers_effect (id : N) (u : address) (plain : nat → option Z) (k : nat)
    (s s' : State) : Prop := {
  ae_others : ∀ id', id' ≠ id → surveys s' !! id' = surveys s !! id';
  ae_meta : meta (survey s' id) = meta (survey s id);
  ae_active : isActive (survey s' id) = isActive (survey s id);
  ae_total : totalResponses (survey s' id) = totalResponses (survey s id);
  ae_defined : ∀ q, q < k → is_Some (plain q);
  ae_kept : ∀ q o, k ≤ q ∨ bucketCount (question (survey s id) q) ≤ o →
    aggregated (survey s' id) q o = aggregated (survey s id) q o;
  ae_added : ∀ q o a, q < k → plain q = Some a →
    o < bucketCount (question (survey s id) q) →
    shadow (aggregated (survey s' id) q o)
    = uint32 (shadow (aggregated (survey s id) q o)
              + indicator (question (survey s id) q) a o);
  ae_resp_others : ∀ key, key ≠ (id, u) → responses s' !! key = responses s !! key;
  ae_resp_flag : r_exists (response s' id u) = r_exists (response s id u);
  ae_resp_time : submittedAt (response s' id u) = submittedAt (response s id u);
  ae_resp_answers : ∀ q a, q < k → plain q = Some a →
    ∃ h, encryptedAnswers (response s' id u) !! q = Some (Euint32 h a);
  ae_resp_kept : ∀ q, k ≤ q →
    encryptedAnswers (response s' id u) !! q = encryptedAnswers (response s id u) !! q;
  ae_permissions : permissions s' = permissions s;
  ae_counter : surveyCounter s' = surveyCounter s;
  ae_events : events s' = events s
}.

(** What an accepted [submitResponse] call does to the storage. *)
Record submit_effect (verifyCiphertext : externalEuint32 → bytes → option Z)
    (env : Env) (id : N) (ans : list externalEuint32) (prf : list bytes)
    (s s' : State) : Prop := {
  se_exists : s_exists (survey s id) = true;
  se_open : isActive (survey s id) = true;
  se_window : (startTime (survey s id) ≤ timestamp env ≤ endTime (survey s id))%N;
  se_lengths : length ans = questionCount (survey s id)
               ∧ length prf = questionCount (survey s id);
  se_first : r_exists (response s id (sender env)) = false;
  se_defined : ∀ q, q < questionCount (survey s id) →
    is_Some (plainAnswer verifyCiphertext ans prf q);
  se_others : ∀ id', id' ≠ id → surveys s' !! id' = surveys s !! id';
  se_meta : meta (survey s' id) = meta (survey s id);
  se_active : isActive (survey s' id) = isActive (survey s id);
  se_total : shadow (totalResponses (survey s' id))
             = uint32 (shadow (totalResponses (survey s id)) + 1);
  se_kept : ∀ q o,
    questionCount (survey s id) ≤ q ∨ bucketCount (question (survey s id) q) ≤ o →
    aggregated (survey s' id) q o = aggregated (survey s id) q o;
  se_added : ∀ q o a, q < questionCount (survey s id) →
    plainAnswer verifyCiphertext ans prf q = Some a →
    o < bucketCount (question (survey s id) q) →
    shadow (aggregated (survey s' id) q o)
    = uint32 (shadow (aggregated (survey s id) q o)
              + indicator (question (survey s id) q) a o);
  se_resp_others : ∀ key, key ≠ (id, sender env) →
    responses s' !! key = responses s !! key;
  se_resp_flag : r_exists (response s' id (sender env)) = true;
  se_resp_time : submittedAt (response s' id (sender env)) = timestamp env;
  se_resp_answers : ∀ q a, q < questionCount (survey s id) →
    plainAnswer verifyCiphertext ans prf q = Some a →
    ∃ h, encryptedAnswers (response s' id (sender env)) !! q = Some (Euint32 h a);
  se_permissions : permissions s' = permissions s;
  se_counter : surveyCounter s' = surveyCounter s;
  se_events : events s' = ResponseSubmitted id (sender env) :: events s
}.

(** The state after the closing block of [submitResponse]. *)
Definition counted (this : address) (id : N) (s : State) : State :=
  let n := N.succ (nextHandle (fhe s)) in
  let sv := survey s id in
  let sum := Euint32 n (uint32 (shadow (totalResponses sv) + uint32 1)) in
  MkState (<[id := set_totalResponses sum sv]> (surveys s))
    (responses s) (permissions s) (surveyCounter s)
    (MkCoprocessor (N.succ n) ((n, creator sv) :: (n, this) :: acl (fhe s)))
    (events s).

(** The state after the closing block of [createSurvey]. *)
Definition sealed (this : address) (env : Env) (id : N) (ttl cat : string) (n : nat)
    (s : State) : State :=
  let h := nextHandle (fhe s) in
  MkState
    (<[id := set_totalResponses (Euint32 h (uint32 0)) (survey s id)]> (surveys s))
    (responses s)
    (<[(id, sender env) := MkPermission true true true true]> (permissions s))
    (surveyCounter s)
    (MkCoprocessor (N.succ h) ((h, sender env) :: (h, this) :: acl (fhe s)))
    (SurveyCreated id (sender env) ttl cat n :: events s).

(** What the first [k] iterations of the loop over the questions of
    [createSurvey] do. *)
Record questions_effect (id : N) (texts : list string) (types : list QuestionType)
    (opts : list (list string)) (k : nat) (s s' : State) : Prop := {
  qe_state : ∃ m, s' = set_surveys (fun sm => <[id := set_questions m (survey s id)]> sm) s;
  qe_stored : ∀ i, i < k →
    ∃ txt ty os, texts !! i = Some txt ∧ types !! i = Some ty ∧ opts !! i = Some os
      ∧ txt ≠ ""%string ∧ os ≠ []
      ∧ questions (survey s' id) !! i = Some (MkQuestion txt ty (length os) os);
  qe_kept : ∀ i, k ≤ i → questions (survey s' id) !! i = questions (survey s id) !! i
}.

(** What a successful [createSurvey] call does to the storage. *)
Record create_effect (this : address) (env : Env) (ttl cat : string) (tgs : list string)
    (st en : N) (texts : list string) (types : list QuestionType)
    (opts : list (list string)) (s : State) (id : N) (s' : State) : Prop := {
  ce_id : id = surveyCounter s;
  ce_counter : surveyCounter s' = (id + 1)%N;
  ce_others : ∀ id', id' ≠ id → surveys s' !! id' = surveys s !! id';
  ce_meta : ∃ qs,
    meta (survey s' id)
    = (sender env, ttl, cat, tgs, timestamp env, st, en, true, length texts, qs)
    ∧ (∀ i, i < length texts →
        ∃ txt ty os, texts !! i = Some txt ∧ types !! i = Some ty ∧ opts !! i = Some os
          ∧ txt ≠ ""%string ∧ os ≠ []
          ∧ qs !! i = Some (MkQuestion txt ty (length os) os))
    ∧ (∀ i, length texts ≤ i → qs !! i = questions (survey s id) !! i);
  ce_valid : ttl ≠ ""%string ∧ (st < en)%N ∧ 0 < length texts ≤ 20
    ∧ length types = length texts ∧ length opts = length texts;
  ce_active : isActive (survey s' id) = true;
  ce_aggregated : aggregatedCounts (survey s' id) = aggregatedCounts (survey s id);
  ce_total : totalResponses (survey s' id) = Euint32 (nextHandle (fhe s)) (uint32 0);
  ce_responses : responses s' = responses s;
  ce_permissions :
    permissions s' = <[(id, sender env) := MkPermission true true true true]> (permissions s);
  ce_fhe : fhe s' = MkCoprocessor (N.succ (nextHandle (fhe s)))
             ((nextHandle (fhe s), sender env) :: (nextHandle (fhe s), this)
              :: acl (fhe s));
  ce_events : events s' = SurveyCreated id (sender env) ttl cat (length texts) :: events s
}.

(** The state after a list of grants (most recent first) has been logged. *)
Definition granting (l : list (N * address)) (s : State) : State :=
  set_fhe (MkCoprocessor (nextHandle (fhe s)) (l ++ acl (fhe s))) s.

(** The states after a successful [grantPermission], [revokePermission] and
    [setSurveyStatus]. *)
Definition granted (id : N) (viewer : address) (cv ce cm : bool) (env : Env) (s : State)
    : State :=
  MkState (surveys s) (responses s)
    (<[(id, viewer) := MkPermission cv ce cm true]> (permissions s))
    (surveyCounter s)
    (MkCoprocessor (nextHandle (fhe s))
       ((hid (totalResponses (survey s id)), viewer) :: acl (fhe s)))
    (PermissionGranted id viewer (sender env) :: events s).

Definition revoked (id : N) (viewer : address) (env : Env) (s : State) : State :=
  MkState (surveys s) (responses s)
    (<[(id, viewer) := set_flags false false false (permission s id viewer)]> (permissions s))
    (surveyCounter s) (fhe s)
    (PermissionRevoked id viewer (sender env) :: events s).

Definition switched (id : N) (b : bool) (s : State) : State :=
  MkState (<[id := set_isActive b (survey s id)]> (surveys s))
    (responses s) (permissions s) (surveyCounter s) (fhe s)
    (SurveyStatusChanged id b :: events s).

(** The guard shared by the two [authorize*] functions. *)
Definition mayView (s : State) (id : N) (who : address) : Prop :=
  who = creator (survey s id) ∨ isViewer (permission s id who) = true.

(** The handles [getQuestionOptionCounts] reads for question [q]. *)
Definition countHandles (sv : Survey) (q : nat) : list euint32 :=
  map (fun o => aggregated sv q o) (seq 0 (bucketCount (question sv q))).

(** Every handle of the results of a survey: the total, then the buckets of
    each question in order. *)
Definition resultHandles (sv : Survey) : list euint32 :=
  totalResponses sv :: flat_map (countHandles sv) (seq 0 (questionCount sv)).

(** The grants logged when the handles of [l] are granted to [who] one
    after the other. *)
Definition grantsTo (who : address) (l : list euint32) : list (N * address) :=
  rev (map (fun e => (hid e, who)) l).

(** Whether a call is a [submitResponse] to survey [id]. *)
Definition isSubmitTo (id : N) (c : Call) : bool :=
  match c with
  | SubmitResponse id' _ _ => (id' =? id)%N
  | _ => false
  end.

(** Every stored survey exists and sits below the counter. *)
Definition slots_ok (s : State) : Prop :=
  ∀ id sv, surveys s !! id = Some sv → s_exists sv = true ∧ (id < surveyCounter s)%N.

(** Every stored bucket holds a 32-bit value. *)
Definition shadows_ok (s : State) : Prop :=
  ∀ id q o, (0 ≤ shadow (aggregated (survey s id) q o) < 2 ^ 32)%Z.

(** The sum of a list of integers. *)
Definition sumZ (l : list Z) : Z := foldr Z.add 0%Z l.

(** The number of answers equal to option [o]. *)
Definition chose (answers : list Z) (o : nat) : nat :=
  count_occ Z.eq_dec answers (Z.of_nat o).

(** Every stored total holds a 32-bit value. *)
Definition totals_ok (s : State) : Prop :=
  ∀ id, (0 ≤ shadow (totalResponses (survey s id)) < 2 ^ 32)%Z.

(** The handles stored as answers of responses, and the handles the
    contract holds as counters: the total and the buckets of a survey, or the
    uninitialised handle [0] that an untouched slot reads as. *)
Definition answerHandle (s : State) (h : N) : Prop :=
  ∃ id u r q e, responses s !! (id, u) = Some r
    ∧ encryptedAnswers r !! q = Some e ∧ hid e = h.

Definition counterHandle (s : State) (h : N) : Prop :=
  h = 0%N
  ∨ ∃ id sv, surveys s !! id = Some sv
      ∧ (h = hid (totalResponses sv)
         ∨ ∃ q o e, aggregatedCounts sv !! (q, o) = Some e ∧ h = hid e).

(** The invariant behind the privacy of the answers: handles are drawn in
    increasing order, every granted or stored handle has been drawn, and an
    answer handle is never a counter handle and is granted to the contract
    and to nobody else. *)
Record handles_ok (this : address) (s : State) : Prop := {
  ho_next : (0 < nextHandle (fhe s))%N;
  ho_acl : ∀ h a, (h, a) ∈ acl (fhe s) → (h < nextHandle (fhe s))%N;
  ho_counter : ∀ h, counterHandle s h → (h < nextHandle (fhe s))%N;
  ho_answer : ∀ h, answerHandle s h →
    (h < nextHandle (fhe s))%N ∧ ¬ counterHandle s h
    ∧ (h, this) ∈ acl (fhe s)
    ∧ ∀ a, (h, a) ∈ acl (fhe s) → a = this
}.

(** The primitive steps [submitResponse] is made of. A property closed
    under them is preserved by every accepted [submitResponse] call of
    [u] to survey [id]. *)
Record submit_closed (this : address) (id : N) (u : address) (P : State → Prop)
    : Prop := {
  sc_mark : ∀ now s, P s →
    P (set_responses (fun m => <[(id, u) := set_submitted now (response s id u)]> m) s);
  sc_import : ∀ q a s, P s → P (imported this id u q a s);
  sc_bump : ∀ q o k v s, P s → P (bump this id q o k v s);
  sc_count : ∀ s, P s → P (counted this id s);
  sc_event : ∀ e s, P s → P (set_events (e :: events s) s)
}.

(** Every response belongs to an existing survey and holds an answer for
    each of its questions. *)
Definition responses_ok (s : State) : Prop :=
  ∀ id u, r_exists (response s id u) = true →
    s_exists (survey s id) = true
    ∧ ∀ q, q < questionCount (survey s id) →
        is_Some (encryptedAnswers (response s id u) !! q).

(** A scenario: Alice creates a survey with a single-choice, a
    multiple-choice and a rating question; Bob and Carol answer it. *)
Definition exampleThis : address := 4096%N.

(** A verifier for the scenario: any non-empty proof is accepted and the
    external input is read as its own plaintext. *)
Definition exampleVerify (input : externalEuint32) (proof : bytes) : option Z :=
  match proof with
  | [] => None
  | _ :: _ => Some (Z.of_N input)
  end.

Definition alice : address := 10%N.

Definition bob : address := 11%N.

Definition carol : address := 12%N.

Definition exampleProof : bytes := [Byte.x01].

Definition exampleCreate : Env * Call :=
  (MkEnv alice 100,
   CreateSurvey "T" "C" ["x"] 100 200 ["Q1"; "Q2"; "Q3"]
     [SingleChoice; MultipleChoice; Rating]
     [["A"; "B"]; ["X"; "Y"; "Z"]; ["stars"]])%string.

Definition exampleSubmitBob : Env * Call :=
  (MkEnv bob 150,
   SubmitResponse 0 [1%N; 5%N; 4%N] [exampleProof; exampleProof; exampleProof]).

Definition exampleSubmitCarol : Env * Call :=
  (MkEnv carol 160,
   SubmitResponse 0 [0%N; 2%N; 9%N] [exampleProof; exampleProof; exampleProof]).

Definition exampleCreated : State :=
  run exampleThis exampleVerify initState [exampleCreate].

Definition exampleAnswered : State :=
  run exampleThis exampleVerify exampleCreated [exampleSubmitBob].

Definition exampleAuthorized : State :=
  run exampleThis exampleVerify exampleAnswered
    [(MkEnv alice 180, AuthorizeAllResultsDecryption 0)].

Section Vocabulary.

Variable this : address.
Variable verifyCiphertext : externalEuint32 → bytes → option Z.

(** What each entry point does when it succeeds. *)
Definition call_effect (env : Env) (c : Call) (s s' : State) : Prop :=
  match c with
  | CreateSurvey t cat tg st en qt qty qo =>
      ∃ id, create_effect this env t cat tg st en qt qty qo s id s'
  | SubmitResponse id ans prf => submit_effect verifyCiphertext env id ans prf s s'
  | GrantPermission id v cv ce cm =>
      s_exists (survey s id) = true ∧ sender env = creator (survey s id)
      ∧ s' = granted id v cv ce cm env s
  | RevokePermission id v =>
      s_exists (survey s id) = true ∧ sender env = creator (survey s id)
      ∧ s' = revoked id v env s
  | SetSurveyStatus id b =>
      s_exists (survey s id) = true
      ∧ (sender env = creator (survey s id)
         ∨ isManager (permission s id (sender env)) = true)
      ∧ s' = switched id b s
  | AuthorizeMyDecryption id =>
      s_exists (survey s id) = true ∧ mayView s id (sender env)
      ∧ s' = granting [(hid (totalResponses (survey s id)), sender env)] s
  | AuthorizeAllResultsDecryption id =>
      s_exists (survey s id) = true ∧ mayView s id (sender env)
      ∧ s' = granting (grantsTo (sender env) (resultHandles (survey s id))) s
  end.

(** Whether a call is accepted in a state. *)
Definition accepts (env : Env) (c : Call) (s : State) : bool :=
  match dispatch this verifyCiphertext env c s with Ok _ => true | Revert _ => false end.

(** The arguments of the accepted [submitResponse] calls to survey [id]
    along a run that starts in [s], in order. *)
Fixpoint acceptedResponses (id : N) (s : State) (calls : list (Env * Call))
    : list (list externalEuint32 * list bytes) :=
  match calls with
  | [] => []
  | ec :: rest =>
      match ec.2 with
      | SubmitResponse id' ans prf =>
          if (id' =? id)%N && accepts ec.1 ec.2 s then [(ans, prf)] else []
      | _ => []
      end ++ acceptedResponses id (step this verifyCiphertext s ec) rest
  end.

(** The plaintext answers to question [q] in a list of accepted responses. *)
Definition answersTo (q : nat) (l : list (list externalEuint32 * list bytes)) : list Z :=
  map (fun r => default 0%Z (plainAnswer verifyCiphertext r.1 r.2 q)) l.

End Vocabulary.

(** ** Acceptance conditions *)

(** The arguments [createSurvey] checks before and while it stores a
    survey: a title, a non-empty time range, between 1 and 20 questions with
    as many types and option lists, no empty question text and no empty
    option list. *)
Definition validSurvey (ttl : string) (st en : N) (texts : list string)
    (types : list QuestionType) (opts : list (list string)) : bool :=
  (0 <? String.length ttl) && (st <? en)%N
  && (0 <? length texts) && (length texts <=? 20)
  && (length texts =? length types) && (length texts =? length opts)
  && forallb (fun txt => 0 <? String.length txt) texts
  && forallb (fun os => 0 <? length os) opts.

(** The conditions every [submitResponse] that goes through has met: the
    guards at its top, and a verifying proof for the answer to every
    question. *)
Definition acceptable (verifyCiphertext : externalEuint32 → bytes → option Z)
    (env : Env) (id : N) (ans : list externalEuint32) (prf : list bytes) (s : State)
    : Prop :=
  s_exists (survey s id) = true
  ∧ isActive (survey s id) = true
  ∧ (startTime (survey s id) ≤ timestamp env ≤ endTime (survey s id))%N
  ∧ length ans = questionCount (survey s id)
  ∧ length prf = questionCount (survey s id)
  ∧ r_exists (response s id (sender env)) = false
  ∧ ∀ q, q < questionCount (survey s id) →
      is_Some (plainAnswer verifyCiphertext ans prf q).

(** ** Invariants of the stored data *)

(** A stored survey as [createSurvey] validates it: a title, a non-empty
    time range, between 1 and 20 questions, and for every question a text,
    at least one option and an option count that is the length of the option
    list. *)
Definition wellFormed (sv : Survey) : Prop :=
  title sv ≠ ""%string
  ∧ (startTime sv < endTime sv)%N
  ∧ 0 < questionCount sv ≤ 20
  ∧ ∀ q, q < questionCount sv →
      ∃ qn, questions sv !! q = Some qn
        ∧ text qn ≠ ""%string ∧ options qn ≠ []
        ∧ optionCount qn = length (options qn).

(** Survey ids are handed out consecutively: the surveys that exist are
    those below the counter. *)
Definition dense (s : State) : Prop :=
  ∀ id, s_exists (survey s id) = true ↔ (id < surveyCounter s)%N.

(** Permission records belong to existing surveys, and a record with a
    capability set has its existence flag set. *)
Definition permissions_ok (s : State) : Prop :=
  ∀ id u p, permissions s !! (id, u) = Some p →
    s_exists (survey s id) = true
    ∧ (canView p || canExport p || canManage p = true → p_exists p = true).

(** The survey a call is about: the id its first argument names, and for
    [createSurvey] the id the call is about to hand out. *)
Definition target (c : Call) (s : State) : N :=
  match c with
  | CreateSurvey _ _ _ _ _ _ _ _ => surveyCounter s
  | SubmitResponse id _ _ => id
  | GrantPermission id _ _ _ _ => id
  | RevokePermission id _ => id
  | SetSurveyStatus id _ => id
  | AuthorizeMyDecryption id => id
  | AuthorizeAllResultsDecryption id => id
  end.

(** ** The event log *)

(** The participants of the [ResponseSubmitted] events for survey [id] in
    a log, most recent first. *)
Fixpoint respondents (id : N) (evs : list Event) : list address :=
  match evs with
  | [] => []
  | ResponseSubmitted id' u :: evs' =>
      if (id' =? id)%N then u :: respondents id evs' else respondents id evs'
  | _ :: evs' => respondents id evs'
  end.

(** The flag of the most recent [SurveyStatusChanged] event for survey
    [id] in a log, if there is one. *)
Fixpoint lastStatus (id : N) (evs : list Event) : option bool :=
  match evs with
  | [] => None
  | SurveyStatusChanged id' b :: evs' =>
      if (id' =? id)%N then Some b else lastStatus id evs'
  | _ :: evs' => lastStatus id evs'
  end.

(** The log agrees with the storage: the addresses with a response to a
    survey are the participants of its [ResponseSubmitted] events, each
    logged once, and the encrypted total counts them. *)
Record log_ok (s : State) : Prop := {
  lo_member : ∀ id u,
    r_exists (response s id u) = true ↔ u ∈ respondents id (events s);
  lo_nodup : ∀ id, NoDup (respondents id (events s));
  lo_total : ∀ id,
    shadow (totalResponses (survey s id))
    = uint32 (Z.of_nat (length (respondents id (events s))))
}.

(** ** Grants on the results *)

(** The creator of every existing survey, and the contract, hold a grant
    on the handle of its total and on every bucket handle that has been
    written. *)
Definition grants_ok (this : address) (s : State) : Prop :=
  ∀ id, s_exists (survey s id) = true →
    let sv := survey s id in
    ((hid (totalResponses sv), creator sv) ∈ acl (fhe s)
     ∧ (hid (totalResponses sv), this) ∈ acl (fhe s))
    ∧ ∀ q o e, aggregatedCounts sv !! (q, o) = Some e →
        (hid e, creator sv) ∈ acl (fhe s) ∧ (hid e, this) ∈ acl (fhe s).

(** Once a survey has a response, every bucket of every question has been
    written. *)
Definition written (s : State) : Prop :=
  ∀ id u, r_exists (response s id u) = true →
    ∀ q o, q < questionCount (survey s id) →
      o < bucketCount (question (survey s id) q) →
      is_Some (aggregatedCounts (survey s id) !! (q, o)).

(** ** The client

    The pieces of the web client that prepare the arguments of a call or
    read its results: [frontend/components/SurveyList.tsx] and the hook
    [useEncryptedSurvey]. JavaScript's bitwise operators work on signed
    32-bit integers. *)

(** [ToInt32]: reduction modulo [2^32] into [-2^31 .. 2^31 - 1]. *)
Definition toInt32 (z : Z) : Z := ((z + 2 ^ 31) mod 2 ^ 32 - 2 ^ 31)%Z.

(** [a << n]: the left operand as a signed 32-bit integer, shifted by the
    low five bits of the count, as a signed 32-bit integer. *)
Definition js_shl (a : Z) (n : nat) : Z :=
  toInt32 (Z.shiftl (toInt32 a) (Z.of_nat n mod 32)).

(** [a | b] on signed 32-bit integers. *)
Definition js_or (a b : Z) : Z := toInt32 (Z.lor (toInt32 a) (toInt32 b)).

(** The bitmask [handleSubmit] sends for a multiple-choice question:
    [selected.reduce((acc, idx) => acc | (1 << idx), 0)]. *)
Definition encodeSelection (selected : list nat) : Z :=
  foldl (fun acc idx => js_or acc (js_shl 1 idx)) 0%Z selected.

(** [toggleMultipleChoice] on the list of selected options of a
    multiple-choice question: an option that is in the list is spliced out at
    its first position, one that is not is pushed at the end. *)
Definition toggleMultipleChoice (currentAnswers : list nat) (optionIndex : nat)
    : list nat :=
  match list_find (fun x => x = optionIndex) currentAnswers with
  | Some (index, _) => delete index currentAnswers
  | None => currentAnswers ++ [optionIndex]
  end.

(** The row [loadAllQuestionResults] keeps for a question: the handles it
    read, padded with the zero handle or cut to the expected length. *)
Definition padHandles (expectedLen : nat) (arrHandles : list N) : list N :=
  if length arrHandles <? expectedLen
  then arrHandles ++ replicate (expectedLen - length arrHandles) 0%N
  else take expectedLen arrHandles.

(** Running a view for every element of a list, in order. *)
Fixpoint mapM {A B} (f : A → M B) (l : list A) : M (list B) :=
  match l with
  | [] => ret []
  | x :: l' => do y <- f x; do ys <- mapM f l'; ret (y :: ys)
  end.

(** [loadAllQuestionResults] of the hook: the question count from
    [getSurveyInfo], then for every question its type and option count from
    [getQuestionInfo] and its handles from [getQuestionOptionCounts], all
    read against one state of the contract. A failing read aborts the
    load. *)
Definition loadAllQuestionResults (surveyId : N) : M (list (list N)) :=
  do info <- getSurveyInfo surveyId;
  let '(_, _, _, _, _, _, count, _, _) := info in
  mapM (fun q =>
    do qInfo <- getQuestionInfo surveyId q;
    let '(_, qType, optionCount, _) := qInfo in
    let expectedLen := if decide (qType = Rating) then 5 else optionCount in
    do arr <- getQuestionOptionCounts surveyId q;
    ret (padHandles expectedLen (map hid arr))) (seq 0 count).

(** A question as the creation form holds it. *)
Record FormQuestion := MkFormQuestion {
  f_text : string;
  f_type : QuestionType;
  f_options : list string
}.

Section Form.

(** [String.prototype.trim]. *)
Variable trim : string → string.

(** [!x.trim()]: nothing is left of [x] once it is trimmed. *)
Definition blank (x : string) : bool := String.length (trim x) =? 0.

(** The validation of the creation form in [handleSubmit]: a title, at
    least one question, a text for every question and, unless the question
    is a rating, at least one option and no blank option. *)
Definition formValid (title : string) (questions : list FormQuestion) : bool :=
  negb (blank title)
  && negb (length questions =? 0)
  && forallb (fun q =>
       negb (blank (f_text q))
       && (if decide (f_type q = Rating) then true
           else negb ((length (f_options q) =? 0) || existsb blank (f_options q))))
     questions.

End Form.

(** The questions [handleSubmit] passes on: a rating question without
    options gets the five default options. *)
Definition prepareQuestions (questions : list FormQuestion) : list FormQuestion :=
  map (fun q =>
    if decide (f_type q = Rating)
    then if length (f_options q) =? 0
         then MkFormQuestion (f_text q) (f_type q) ["1"; "2"; "3"; "4"; "5"]%string
         else q
    else q) questions.

(** Further states of the scenario: Alice has granted Bob the capability
    to view, or has switched the survey off. *)
Definition exampleGranted : State :=
  run exampleThis exampleVerify exampleCreated
    [(MkEnv alice 120, GrantPermission 0 bob true false false)].

Definition exampleSwitchedOff : State :=
  run exampleThis exampleVerify exampleCreated
    [(MkEnv alice 120, SetSurveyStatus 0 false)].

(** The creation form behind the scenario: the rating question comes
    without options. *)
Definition exampleForm : list FormQuestion :=
  [MkFormQuestion "Q1" SingleChoice ["A"; "B"];
   MkFormQuestion "Q2" MultipleChoice ["X"; "Y"; "Z"];
   MkFormQuestion "Q3" Rating []]%string.

(** * Lemmas and theorems *)

(** * Reasoning about transactions *)

Lemma bind_Ok {A B} (m : M A) (k : A → M B) s b s' :
  bind m k s = Ok (b, s') ↔ ∃ a s1, m s = Ok (a, s1) ∧ k a s1 = Ok (b, s').
Proof.
  unfold bind. split.
  - destruct (m s) as [[a s1]|msg]; [eauto | discriminate].
  - intros (a & s1 & -> & Hk). exact Hk.
Qed.

Lemma require_Ok b msg s u s' :
  require b msg s = Ok (u, s') ↔ b = true ∧ s' = s.
Proof.
  destruct b; cbn; split; try (intros [? ?]; discriminate); try discriminate.
  - intros [= <-]. done.
  - intros [_ ->]. by destruct u.
Qed.

Lemma exec_Ok {A} (m : M A) s s' :
  exec m s = Ok s' ↔ ∃ a, m s = Ok (a, s').
Proof.
  unfold exec. destruct (m s) as [[a s1]|msg]; split.
  - intros [= <-]. eauto.
  - intros [a' [= _ <-]]. done.
  - discriminate.
  - intros [? ?]; discriminate.
Qed.

Lemma view_Ok {A} (m : M A) s a :
  view m s = Ok a ↔ ∃ s', m s = Ok (a, s').
Proof.
  unfold view. destruct (m s) as [[a1 s1]|msg]; split.
  - intros [= <-]. eauto.
  - intros [s' [= <- _]]. done.
  - discriminate.
  - intros [? ?]; discriminate.
Qed.

Lemma forEach_app {A} (l1 l2 : list A) (body : A → M unit) s :
  forEach (l1 ++ l2) body s = (forEach l1 body ;; forEach l2 body) s.
Proof.
  revert s. induction l1 as [|x l1 IH]; intros s.
  - reflexivity.
  - change (forEach ((x :: l1) ++ l2) body s)
      with (bind (body x) (fun _ => forEach (l1 ++ l2) body) s).
    change (forEach (x :: l1) body) with (bind (body x) (fun _ => forEach l1 body)).
    unfold bind. destruct (body x s) as [[[] s1]|]; [|done].
    rewrite IH. reflexivity.
Qed.

(** Loop rule for [for (i = start; i < start + n; i++)]: a property
    indexed by the number of completed iterations. *)
Lemma forEach_seq_ind (P : nat → State → Prop) start n (body : nat → M unit) s s' :
  P 0 s →
  (∀ k s1 s2, k < n → P k s1 → body (start + k) s1 = Ok (tt, s2) → P (S k) s2) →
  forEach (seq start n) body s = Ok (tt, s') →
  P n s'.
Proof.
  intros H0 Hstep. revert s'.
  induction n as [|n IH]; intros s' Hrun.
  - cbn in Hrun. injection Hrun as <-. exact H0.
  - rewrite seq_S, forEach_app in Hrun.
    apply bind_Ok in Hrun as ([] & s1 & Hpre & Hlast).
    cbn in Hlast. apply bind_Ok in Hlast as ([] & s2 & Hb & Hret).
    injection Hret as <-.
    apply (Hstep n s1 s2); [lia | | exact Hb].
    apply IH; [|exact Hpre].
    intros k sa sb Hk. apply Hstep. lia.
Qed.

(** ** Reading storage after a write *)

Lemma survey_insert s id id' x :
  survey (set_surveys (fun m => <[id := x]> m) s) id'
  = if decide (id = id') then x else survey s id'.
Proof.
  unfold survey, set_surveys; cbn. rewrite lookup_insert.
  by destruct (decide (id = id')).
Qed.

Lemma aggregated_insert sv q o q' o' e :
  aggregated (set_aggregatedCounts (<[(q, o) := e]> (aggregatedCounts sv)) sv) q' o'
  = if decide ((q, o) = (q', o')) then e else aggregated sv q' o'.
Proof.
  unfold aggregated; cbn. rewrite lookup_insert.
  by destruct (decide ((q, o) = (q', o'))).
Qed.

(** * Effects of the tallying code *)

Ltac unfold_tx :=
  unfold FHE.asEuint32, FHE.eq, FHE.gt, FHE.and, FHE.select, FHE.add,
    FHE.allowThis, FHE.allow, emit, modifySurvey, modifyResponse,
    modifyPermission, modify, bind, get, ret, freshHandle.

Lemma tallySingleChoice_eq this id q e o s :
  tallySingleChoice this id q e o s
  = Ok (tt, bump this id q o 5
              (if (shadow e =? uint32 (uint32 (Z.of_nat o)))%Z then uint32 1 else uint32 0) s).
Proof.
  unfold tallySingleChoice, accumulate, bump. unfold_tx. cbn.
  unfold survey, aggregated. cbn. simplify_map_eq. reflexivity.
Qed.

Lemma tallyMultipleChoice_eq this id q e o s :
  tallyMultipleChoice this id q e o s
  = Ok (tt, bump this id q o 7
              (if (uint32 0 <? Z.land (shadow e) (uint32 (shl32 1 (uint32 (Z.of_nat o)))))%Z
               then uint32 1 else uint32 0) s).
Proof.
  unfold tallyMultipleChoice, accumulate, bump. unfold_tx. cbn.
  unfold survey, aggregated. cbn. simplify_map_eq. reflexivity.
Qed.

Lemma tallyRating_eq this id q e r s :
  tallyRating this id q e r s
  = Ok (tt, bump this id q (r - 1) 5
              (if (shadow e =? uint32 (Z.of_nat r))%Z then uint32 1 else uint32 0) s).
Proof.
  unfold tallyRating, accumulate, bump. unfold_tx. cbn.
  unfold survey, aggregated. cbn. simplify_map_eq. reflexivity.
Qed.

Lemma bump_survey this id q o k v s :
  survey (bump this id q o k v s) id
  = set_aggregatedCounts
      (<[(q, o) := Euint32 (Nat.iter k N.succ (nextHandle (fhe s)))
                     (uint32 (shadow (aggregated (survey s id) q o) + v))]>
         (aggregatedCounts (survey s id)))
      (survey s id).
Proof. unfold bump, survey; cbn. by simplify_map_eq. Qed.

Lemma bump_surveys_other this id q o k v s id' :
  id' ≠ id → surveys (bump this id q o k v s) !! id' = surveys s !! id'.
Proof. intros. unfold bump; cbn. by simplify_map_eq. Qed.

Lemma tally_effect_refl id q ind s : tally_effect id q 0 ind s s.
Proof. split; try done. intros; lia. Qed.

Lemma tally_effect_bump this id q n ind k s s1 :
  tally_effect id q n ind s s1 →
  tally_effect id q (S n) ind s (bump this id q n k (ind n) s1).
Proof.
  intros [].
  split.
  - intros id' Hne. rewrite bump_surveys_other by done. auto.
  - rewrite bump_survey. rewrite <- te_meta0. reflexivity.
  - rewrite bump_survey. rewrite <- te_active0. reflexivity.
  - rewrite bump_survey. rewrite <- te_total0. reflexivity.
  - intros q' o' Hq. rewrite bump_survey, aggregated_insert.
    rewrite decide_False by (intros [= <- <-]; lia).
    apply te_kept0. lia.
  - intros o Ho. rewrite bump_survey, aggregated_insert.
    destruct (decide (o = n)) as [->|Hne].
    + rewrite decide_True by done. cbn. rewrite te_kept0 by lia. reflexivity.
    + rewrite decide_False by congruence. apply te_added0. lia.
  - done.
  - done.
  - done.
  - done.
Qed.

Lemma tally_loop this id q start n K ind (body : nat → M unit) s s' :
  (∀ k s1, body (start + k) s1 = Ok (tt, bump this id q k K (ind k) s1)) →
  forEach (seq start n) body s = Ok (tt, s') →
  tally_effect id q n ind s s'.
Proof.
  intros Hbody Hrun.
  apply (forEach_seq_ind (fun k s1 => tally_effect id q k ind s s1) start n body s s');
    [apply tally_effect_refl| |exact Hrun].
  intros k s1 s2 _ IH Hb. rewrite Hbody in Hb. injection Hb as <-.
  by apply tally_effect_bump.
Qed.

Lemma index_Ok {A} (l : list A) i s x s' :
  index l i s = Ok (x, s') ↔ l !! i = Some x ∧ s' = s.
Proof.
  unfold index. destruct (l !! i) as [y|]; cbn; split.
  - intros [= <- <-]. done.
  - intros [[= <-] ->]. done.
  - discriminate.
  - intros [? ?]; discriminate.
Qed.

Lemma bucketCount_eq qn :
  bucketCount qn = match qType qn with Rating => 5 | _ => optionCount qn end.
Proof. unfold bucketCount. by destruct (qType qn). Qed.

Section ProcessAnswer.
Variable this : address.
Variable verifyCiphertext : externalEuint32 → bytes → option Z.
Lemma processAnswer_Ok env id ans prf q s s' :
  processAnswer this verifyCiphertext env id ans prf q s = Ok (tt, s') →
  ∃ a, plainAnswer verifyCiphertext ans prf q = Some a ∧
    tally_effect id q (bucketCount (question (survey s id) q))
      (indicator (question (survey s id) q) a)
      (imported this id (sender env) q a s) s'.
Proof.
  unfold processAnswer. intros H.
  apply bind_Ok in H as (input & s1 & Hin & H). apply index_Ok in Hin as [Hin ->].
  apply bind_Ok in H as (proof & s1 & Hpr & H). apply index_Ok in Hpr as [Hpr ->].
  apply bind_Ok in H as (e & s1 & Himp & H).
  unfold FHE.fromExternal in Himp.
  destruct (verifyCiphertext input proof) as [v|] eqn:Hv; [|discriminate].
  injection Himp as <- <-.
  exists (uint32 v). split.
  { unfold plainAnswer. by rewrite Hin, Hpr, Hv. }
  revert H. unfold_tx. cbn.
  change (survey _ id) with (survey s id).
  set (qn := question (survey s id) q).
  rewrite bucketCount_eq. unfold indicator.
  destruct (qType qn); cbv beta iota.
  - apply (tally_loop this) with (K := 5). intros k s1. apply tallySingleChoice_eq.
  - apply (tally_loop this) with (K := 7). intros k s1. apply tallyMultipleChoice_eq.
  - intros H.
    refine (tally_loop this id q 1 5 5 _ (tallyRating this id q _) _ _ _ H).
    intros k s1. rewrite tallyRating_eq.
    replace (1 + k - 1) with k by lia. reflexivity.
Qed.

End ProcessAnswer.

Lemma meta_question sv sv' q : meta sv' = meta sv → question sv' q = question sv q.
Proof. unfold meta, question. intros [= _ _ _ _ _ _ _ _ _ ->]. done. Qed.

Lemma meta_questionCount sv sv' : meta sv' = meta sv → questionCount sv' = questionCount sv.
Proof. unfold meta. by intros [= _ _ _ _ _ _ _ _ -> _]. Qed.

Lemma meta_exists sv sv' : meta sv' = meta sv → s_exists sv' = s_exists sv.
Proof. unfold meta. by intros [= _ _ _ _ _ _ _ -> _ _]. Qed.

Lemma meta_creator sv sv' : meta sv' = meta sv → creator sv' = creator sv.
Proof. unfold meta. by intros [= -> _ _ _ _ _ _ _ _ _]. Qed.

Lemma answers_effect_refl id u plain s : answers_effect id u plain 0 s s.
Proof. split; try done; intros; lia. Qed.

Lemma imported_response this id u q a s :
  response (imported this id u q a s) id u
  = set_answer q (Euint32 (nextHandle (fhe s)) a) (response s id u).
Proof. unfold imported, response; cbn. by simplify_map_eq. Qed.

Lemma answers_effect_step this id u plain k a s s1 s2 :
  answers_effect id u plain k s s1 →
  plain k = Some a →
  tally_effect id k (bucketCount (question (survey s1 id) k))
    (indicator (question (survey s1 id) k) a) (imported this id u k a s1) s2 →
  answers_effect id u plain (S k) s s2.
Proof.
  intros [] Hplain [].
  change (survey (imported this id u k a s1) id) with (survey s1 id) in *.
  change (surveys (imported this id u k a s1)) with (surveys s1) in *.
  assert (Hq : ∀ q, question (survey s1 id) q = question (survey s id) q)
    by (intros; by apply meta_question).
  rewrite Hq in *.
  assert (Hr : response s2 id u
    = set_answer k (Euint32 (nextHandle (fhe s1)) a) (response s1 id u)).
  { unfold response at 1. rewrite te_responses0. apply imported_response. }
  split.
  - intros id' Hne. rewrite te_others0 by done. auto.
  - by etrans.
  - by etrans.
  - by etrans.
  - intros q Hlt. destruct (decide (q = k)) as [->|]; [by rewrite Hplain|].
    apply ae_defined0. lia.
  - intros q o Hq'. destruct (decide (q = k)) as [->|Hne].
    + rewrite te_kept0 by lia. apply ae_kept0. lia.
    + rewrite te_kept0 by lia. apply ae_kept0. lia.
  - intros q o a' Hlt Hpl Ho. destruct (decide (q = k)) as [->|Hne].
    + rewrite te_added0 by done. rewrite ae_kept0 by lia. congruence.
    + rewrite te_kept0 by lia. apply ae_added0; [lia|done|done].
  - intros key Hne. rewrite te_responses0. unfold imported; cbn.
    rewrite lookup_insert_ne by done. auto.
  - rewrite Hr. cbn. done.
  - rewrite Hr. cbn. done.
  - intros q a' Hlt Hpl. rewrite Hr. cbn.
    destruct (decide (q = k)) as [->|Hne].
    + rewrite lookup_insert_eq. exists (nextHandle (fhe s1)). congruence.
    + rewrite lookup_insert_ne by done. apply ae_resp_answers0; [lia|done].
  - intros q Hle. rewrite Hr. cbn. rewrite lookup_insert_ne by lia.
    apply ae_resp_kept0. lia.
  - by etrans.
  - by etrans.
  - by etrans.
Qed.

Section SubmitResponse.
Variable this : address.
Variable verifyCiphertext : externalEuint32 → bytes → option Z.
Lemma answers_loop env id ans prf n s s' :
  forEach (seq 0 n) (processAnswer this verifyCiphertext env id ans prf) s = Ok (tt, s') →
  answers_effect id (sender env) (plainAnswer verifyCiphertext ans prf) n s s'.
Proof.
  apply (forEach_seq_ind
    (fun k s1 => answers_effect id (sender env) (plainAnswer verifyCiphertext ans prf) k s s1)).
  - apply answers_effect_refl.
  - intros k s1 s2 _ IH Hb. cbn in Hb.
    apply processAnswer_Ok in Hb as (a & Ha & Ht).
    eapply answers_effect_step; eauto.
Qed.

End SubmitResponse.

Lemma uint32_small x : (0 ≤ x < 2 ^ 32)%Z → uint32 x = x.
Proof. intros. unfold uint32. by apply Z.mod_small. Qed.

Lemma uint32_range x : (0 ≤ uint32 x < 2 ^ 32)%Z.
Proof. unfold uint32. apply Z.mod_pos_bound. lia. Qed.

Lemma uint32_idemp x : uint32 (uint32 x) = uint32 x.
Proof. apply uint32_small, uint32_range. Qed.

Lemma incrementTotalResponses_eq this id s :
  incrementTotalResponses this id s = Ok (tt, counted this id s).
Proof.
  unfold incrementTotalResponses, counted. unfold_tx. cbn.
  unfold survey. cbn. simplify_map_eq. reflexivity.
Qed.

Lemma counted_survey this id s :
  survey (counted this id s) id
  = set_totalResponses
      (Euint32 (N.succ (nextHandle (fhe s)))
         (uint32 (shadow (totalResponses (survey s id)) + uint32 1)))
      (survey s id).
Proof. unfold counted, survey; cbn. by simplify_map_eq. Qed.

Lemma counted_surveys_other this id s id' :
  id' ≠ id → surveys (counted this id s) !! id' = surveys s !! id'.
Proof. intros. unfold counted; cbn. by simplify_map_eq. Qed.

Section SubmitEffect.
Variable this : address.
Variable verifyCiphertext : externalEuint32 → bytes → option Z.
Lemma submitResponse_Ok env id ans prf s s' :
  submitResponse this verifyCiphertext env id ans prf s = Ok (tt, s') →
  submit_effect verifyCiphertext env id ans prf s s'.
Proof.
  unfold submitResponse. intros H.
  apply bind_Ok in H as (s0 & s1 & [= <- <-] & H).
  apply bind_Ok in H as ([] & s1 & [Hex ->]%require_Ok & H).
  apply bind_Ok in H as ([] & s1 & [Hact ->]%require_Ok & H).
  apply bind_Ok in H as ([] & s1 & [Hwin ->]%require_Ok & H).
  apply bind_Ok in H as ([] & s1 & [Hla ->]%require_Ok & H).
  apply bind_Ok in H as ([] & s1 & [Hlp ->]%require_Ok & H).
  apply bind_Ok in H as ([] & s1 & [Hfirst ->]%require_Ok & H).
  apply bind_Ok in H as ([] & s1 & [= <-] & H).
  apply bind_Ok in H as ([] & s2 & Hloop & H).
  apply bind_Ok in H as ([] & s3 & Htot & H).
  rewrite incrementTotalResponses_eq in Htot. injection Htot as <-.
  injection H as <-.
  apply answers_loop in Hloop. destruct Hloop.
  set (sM := set_responses _ s) in *.
  change (survey sM id) with (survey s id) in *.
  change (surveys sM) with (surveys s) in *.
  assert (HrM : response sM id (sender env)
                = set_submitted (timestamp env) (response s id (sender env))).
  { unfold sM, response; cbn. by simplify_map_eq. }
  rewrite HrM in *. cbn in *.
  apply andb_true_iff in Hwin as [Hw1%N.leb_le Hw2%N.leb_le].
  apply Nat.eqb_eq in Hla, Hlp. apply negb_true_iff in Hfirst.
  set (s' := set_events _ (counted this id s2)).
  assert (Hs' : survey s' id = set_totalResponses
    (Euint32 (N.succ (nextHandle (fhe s2)))
       (uint32 (shadow (totalResponses (survey s2 id)) + uint32 1))) (survey s2 id))
    by apply counted_survey.
  assert (Ho' : ∀ id', id' ≠ id → surveys s' !! id' = surveys s2 !! id')
    by (intros; by apply counted_surveys_other).
  assert (Hr' : response s' id (sender env) = response s2 id (sender env)) by done.
  split; rewrite ?Hs', ?Hr'; try done.
  - intros id' Hne. rewrite Ho' by done. auto.
  - cbn. rewrite ae_total0. reflexivity.
  - intros key Hne. change (responses s') with (responses s2).
    rewrite ae_resp_others0 by done. by rewrite lookup_insert_ne.
  - change (events s') with (ResponseSubmitted id (sender env) :: events s2).
    by rewrite ae_events0.
Qed.

End SubmitEffect.

(** * Effects of the other entry points *)

Lemma set_questions_id sv : set_questions (questions sv) sv = sv.
Proof. by destruct sv. Qed.

Lemma String_length_pos (x : string) : (0 <? String.length x) = true → x ≠ ""%string.
Proof. by destruct x. Qed.

Lemma length_pos {A} (l : list A) : (0 <? length l) = true → l ≠ [].
Proof. by destruct l. Qed.

Lemma questions_loop id texts types opts n s s' :
  s_exists (survey s id) = true →
  forEach (seq 0 n) (fun i =>
      do txt <- index texts i;
      require (0 <? String.length txt) "Question text cannot be empty" ;;
      do os <- index opts i;
      require (0 <? length os) "Question must have at least one option" ;;
      do ty <- index types i;
      modifySurvey id (fun sv =>
        set_questions (<[i := MkQuestion txt ty (length os) os]> (questions sv)) sv)) s
    = Ok (tt, s') →
  questions_effect id texts types opts n s s'.
Proof.
  intros Hex.
  apply (forEach_seq_ind (fun k s1 => questions_effect id texts types opts k s s1)).
  - split; [|intros; lia|done].
    exists (questions (survey s id)). rewrite set_questions_id.
    destruct s as [sm ? ? ? ? ?]. unfold set_surveys, survey in *; cbn in *. f_equal.
    destruct (sm !! id) as [sv|] eqn:E; cbn in *; [|done].
    by rewrite insert_id.
  - intros k s1 s2 _ [[m ->] Hst Hk] Hb. cbn in Hb.
    apply bind_Ok in Hb as (txt & sa & [Htxt ->]%index_Ok & Hb).
    apply bind_Ok in Hb as ([] & sa & [Hne ->]%require_Ok & Hb).
    apply bind_Ok in Hb as (os & sa & [Hos ->]%index_Ok & Hb).
    apply bind_Ok in Hb as ([] & sa & [Hno ->]%require_Ok & Hb).
    apply bind_Ok in Hb as (ty & sa & [Hty ->]%index_Ok & Hb).
    injection Hb as <-.
    rewrite survey_insert, decide_True in * by done.
    split.
    + exists (<[k := MkQuestion txt ty (length os) os]> m).
      unfold set_surveys; cbn. f_equal. by rewrite insert_insert_eq.
    + intros i Hi. rewrite survey_insert, decide_True by done. cbn.
      destruct (decide (i = k)) as [->|Hik].
      * exists txt, ty, os. rewrite lookup_insert_eq.
        repeat split; auto using String_length_pos, length_pos.
      * rewrite lookup_insert_ne by done. apply Hst. lia.
    + intros i Hi. rewrite survey_insert, decide_True by done. cbn.
      rewrite lookup_insert_ne by lia. apply Hk. lia.
Qed.

Lemma createSurvey_Ok this env ttl cat tgs st en texts types opts s id s' :
  createSurvey this env ttl cat tgs st en texts types opts s = Ok (id, s') →
  create_effect this env ttl cat tgs st en texts types opts s id s'.
Proof.
  unfold createSurvey. intros H.
  apply bind_Ok in H as ([] & s1 & [Httl ->]%require_Ok & H).
  apply bind_Ok in H as ([] & s1 & [Htime ->]%require_Ok & H).
  apply bind_Ok in H as ([] & s1 & [Hcnt ->]%require_Ok & H).
  apply bind_Ok in H as ([] & s1 & [Hlt ->]%require_Ok & H).
  apply bind_Ok in H as ([] & s1 & [Hlo ->]%require_Ok & H).
  apply bind_Ok in H as (s0 & s1 & [= <- <-] & H).
  apply bind_Ok in H as ([] & s1 & [Hmax ->]%require_Ok & H).
  apply bind_Ok in H as ([] & s1 & [= <-] & H).
  apply bind_Ok in H as ([] & s1 & [= <-] & H).
  apply bind_Ok in H as ([] & s2 & Hloop & H).
  set (id0 := surveyCounter s) in *.
  set (hd := set_header (sender env) ttl cat tgs (timestamp env) st en (length texts)
               (survey s id0)) in *.
  change (survey (set_surveyCounter _ s) id0) with (survey s id0) in *.
  set (sO := set_surveys _ (set_surveyCounter _ s)) in *.
  assert (HsO : survey sO id0 = hd).
  { unfold sO. by rewrite survey_insert, decide_True. }
  apply questions_loop in Hloop; [|by rewrite HsO].
  destruct Hloop as [[m ->] Hst Hkept]. rewrite HsO in *.
  set (sQ := set_surveys _ sO) in *.
  assert (HsQ : survey sQ id0 = set_questions m hd).
  { unfold sQ. by rewrite survey_insert, decide_True. }
  rewrite HsQ in *.
  assert (Htail : s' = sealed this env id0 ttl cat (length texts) sQ ∧ id = id0).
  { revert H. unfold_tx. cbn. unfold sealed, survey, permission. cbn.
    simplify_map_eq. by intros [= <- <-]. }
  destruct Htail as [-> ->]. clear H.
  apply andb_true_iff in Hcnt as [Hc1%Nat.ltb_lt Hc2%Nat.leb_le].
  apply Nat.eqb_eq in Hlt, Hlo. apply N.ltb_lt in Htime.
  assert (Hsv : survey (sealed this env id0 ttl cat (length texts) sQ) id0
                = set_totalResponses (Euint32 (nextHandle (fhe s)) (uint32 0))
                    (set_questions m hd)).
  { unfold sealed, survey at 1; cbn. rewrite lookup_insert_eq. cbn. by rewrite HsQ. }
  split; rewrite ?Hsv; try done.
  - intros id' Hne. cbn. by rewrite !lookup_insert_ne.
  - exists m. split; [done|]. split; [exact Hst|exact Hkept].
  - repeat split; auto using String_length_pos.
Qed.

Lemma granting_nil s : granting [] s = s.
Proof. by destruct s as [? ? ? ? [? ?] ?]. Qed.

Lemma granting_app l1 l2 s : granting l2 (granting l1 s) = granting (l2 ++ l1) s.
Proof. unfold granting, set_fhe; cbn. by rewrite app_assoc. Qed.

Lemma granting_survey l s id : survey (granting l s) id = survey s id.
Proof. done. Qed.

Lemma authorizedToView_Ok s env id s1 s' :
  authorizedToView s env id s1 = Ok (tt, s') ↔ mayView s id (sender env) ∧ s' = s1.
Proof.
  unfold authorizedToView, mayView.
  destruct (N.eqb_spec (sender env) (creator (survey s id))) as [Heq|Hne].
  - split; [intros [= <-]; auto | by intros [_ ->]].
  - rewrite require_Ok. split.
    + intros [Hv ->]. auto.
    + intros [[Heq|Hv] ->]; [done|auto].
Qed.

Lemma grantPermission_Ok env id viewer cv ce cm s s' :
  grantPermission env id viewer cv ce cm s = Ok (tt, s') ↔
  s_exists (survey s id) = true ∧ sender env = creator (survey s id)
  ∧ s' = granted id viewer cv ce cm env s.
Proof.
  unfold grantPermission. split.
  - intros H.
    apply bind_Ok in H as (s0 & s1 & [= <- <-] & H).
    apply bind_Ok in H as ([] & s1 & [Hex ->]%require_Ok & H).
    apply bind_Ok in H as ([] & s1 & [Hc%N.eqb_eq ->]%require_Ok & H).
    revert H. unfold_tx. cbn. by intros [= <-].
  - intros (Hex & Hc%N.eqb_eq & ->). unfold bind, get. rewrite Hex, Hc. reflexivity.
Qed.

Lemma revokePermission_Ok env id viewer s s' :
  revokePermission env id viewer s = Ok (tt, s') ↔
  s_exists (survey s id) = true ∧ sender env = creator (survey s id)
  ∧ s' = revoked id viewer env s.
Proof.
  unfold revokePermission. split.
  - intros H.
    apply bind_Ok in H as (s0 & s1 & [= <- <-] & H).
    apply bind_Ok in H as ([] & s1 & [Hex ->]%require_Ok & H).
    apply bind_Ok in H as ([] & s1 & [Hc%N.eqb_eq ->]%require_Ok & H).
    revert H. unfold_tx. cbn. by intros [= <-].
  - intros (Hex & Hc%N.eqb_eq & ->). unfold bind, get. rewrite Hex, Hc. reflexivity.
Qed.

Lemma setSurveyStatus_Ok env id b s s' :
  setSurveyStatus env id b s = Ok (tt, s') ↔
  s_exists (survey s id) = true
  ∧ (sender env = creator (survey s id)
     ∨ isManager (permission s id (sender env)) = true)
  ∧ s' = switched id b s.
Proof.
  unfold setSurveyStatus. split.
  - intros H.
    apply bind_Ok in H as (s0 & s1 & [= <- <-] & H).
    apply bind_Ok in H as ([] & s1 & [Hex ->]%require_Ok & H).
    apply bind_Ok in H as ([] & s1 & [Hc ->]%require_Ok & H).
    revert H. unfold_tx. cbn. intros [= <-].
    apply orb_true_iff in Hc as [Hc%N.eqb_eq|Hc]; auto.
  - intros (Hex & Hc & ->). unfold bind, get. rewrite Hex. cbn.
    assert ((sender env =? creator (survey s id))%N
            || isManager (permission s id (sender env)) = true) as ->.
    { apply orb_true_iff. destruct Hc as [Hc%N.eqb_eq|Hc]; [by left|by right]. }
    reflexivity.
Qed.

Lemma authorizeMyDecryption_Ok env id s s' :
  authorizeMyDecryption env id s = Ok (tt, s') ↔
  s_exists (survey s id) = true ∧ mayView s id (sender env)
  ∧ s' = granting [(hid (totalResponses (survey s id)), sender env)] s.
Proof.
  unfold authorizeMyDecryption. split.
  - intros H.
    apply bind_Ok in H as (s0 & s1 & [= <- <-] & H).
    apply bind_Ok in H as ([] & s1 & [Hex ->]%require_Ok & H).
    apply bind_Ok in H as ([] & s1 & [Hv ->]%authorizedToView_Ok & H).
    revert H. unfold_tx. cbn. by intros [= <-].
  - intros (Hex & Hv & ->). unfold bind at 1. unfold get. cbn.
    unfold bind at 1. rewrite Hex. cbn.
    unfold bind.
    destruct (authorizedToView s env id s) as [[[] s1]|msg] eqn:E.
    + apply authorizedToView_Ok in E as [_ ->]. reflexivity.
    + exfalso. assert (authorizedToView s env id s = Ok (tt, s)) as E'
        by (by apply authorizedToView_Ok).
      congruence.
Qed.

Lemma grantsTo_app who l1 l2 : grantsTo who (l1 ++ l2) = grantsTo who l2 ++ grantsTo who l1.
Proof. unfold grantsTo. by rewrite map_app, rev_app_distr. Qed.

Lemma allow_buckets_loop id who q n s s' :
  forEach (seq 0 n) (fun o =>
      do s2 <- get; FHE.allow (aggregated (survey s2 id) q o) who) s = Ok (tt, s') →
  s' = granting (grantsTo who (map (fun o => aggregated (survey s id) q o) (seq 0 n))) s.
Proof.
  apply (forEach_seq_ind (fun k s1 =>
    s1 = granting (grantsTo who (map (fun o => aggregated (survey s id) q o) (seq 0 k))) s)).
  - by rewrite granting_nil.
  - intros k s1 s2 _ -> Hb. revert Hb. unfold_tx. intros [= <-].
    rewrite seq_S, map_app, grantsTo_app. cbn.
    unfold granting, set_fhe; cbn. reflexivity.
Qed.

Lemma allow_questions_loop id who n s s' :
  forEach (seq 0 n) (fun q =>
      do s1 <- get;
      let len := bucketCount (question (survey s1 id) q) in
      forEach (seq 0 len) (fun o =>
        do s2 <- get; FHE.allow (aggregated (survey s2 id) q o) who)) s = Ok (tt, s') →
  s' = granting (grantsTo who (flat_map (countHandles (survey s id)) (seq 0 n))) s.
Proof.
  apply (forEach_seq_ind (fun k s1 =>
    s1 = granting (grantsTo who (flat_map (countHandles (survey s id)) (seq 0 k))) s)).
  - by rewrite granting_nil.
  - intros k s1 s2 _ -> Hb. cbn in Hb.
    rewrite granting_survey in Hb.
    apply allow_buckets_loop in Hb. rewrite Hb, granting_survey, granting_app.
    rewrite seq_S, flat_map_app, grantsTo_app. cbn. by rewrite app_nil_r.
Qed.

Lemma authorizeAllResultsDecryption_Ok env id s s' :
  authorizeAllResultsDecryption env id s = Ok (tt, s') →
  s_exists (survey s id) = true ∧ mayView s id (sender env)
  ∧ s' = granting (grantsTo (sender env) (resultHandles (survey s id))) s.
Proof.
  unfold authorizeAllResultsDecryption. intros H.
  apply bind_Ok in H as (s0 & s1 & [= <- <-] & H).
  apply bind_Ok in H as ([] & s1 & [Hex ->]%require_Ok & H).
  apply bind_Ok in H as ([] & s1 & [Hv ->]%authorizedToView_Ok & H).
  apply bind_Ok in H as ([] & s1 & [= <-] & H).
  apply allow_questions_loop in H.
  change (set_fhe _ s) with (granting (grantsTo (sender env) [totalResponses (survey s id)]) s) in H.
  rewrite granting_survey, granting_app in H.
  split; [done|]. split; [done|].
  rewrite H. unfold resultHandles.
  change (totalResponses (survey s id) :: ?l) with ([totalResponses (survey s id)] ++ l).
  by rewrite grantsTo_app.
Qed.

(** * Permissions *)

(** C8. For an existing survey with creator [c] and an address [addr]
    other than [c]: when [c] calls [grantPermission(id, addr, true, false,
    false)] and then [revokePermission(id, addr)], both calls succeed,
    [getPermission(id, addr)] returns [(false, false, false)], the existence
    flag of the permission record is still [true], and
    [authorizeMyDecryption(id)] called by [addr] reverts. *)
Theorem revoke_after_grant (s : State) (id : N) (addr : address) (e1 e2 ea : Env) :
  s_exists (survey s id) = true →
  sender e1 = creator (survey s id) →
  sender e2 = creator (survey s id) →
  addr ≠ creator (survey s id) →
  sender ea = addr →
  ∃ s1 s2,
    exec (grantPermission e1 id addr true false false) s = Ok s1 ∧
    exec (revokePermission e2 id addr) s1 = Ok s2 ∧
    view (getPermission id addr) s2 = Ok (false, false, false) ∧
    p_exists (permission s2 id addr) = true ∧
    exec (authorizeMyDecryption ea id) s2 = Revert "Not authorized to view".
Proof.
  intros Hex Hc1 Hc2 Hne Ha.
  eexists. eexists. split; [|split].
  - unfold exec, grantPermission, bind, get. rewrite Hex, Hc1, N.eqb_refl. cbn.
    reflexivity.
  - unfold exec, revokePermission, bind, get.
    change (survey _ id) with (survey s id).
    rewrite Hex, Hc2, N.eqb_refl. cbn. reflexivity.
  - split; [|split].
    + unfold view, getPermission, bind, get, ret, permission. cbn.
      simplify_map_eq. reflexivity.
    + unfold permission. cbn. simplify_map_eq. reflexivity.
    + unfold exec, authorizeMyDecryption, bind, get.
      change (survey _ id) with (survey s id).
      rewrite Hex. cbn. unfold authorizedToView.
      change (survey _ id) with (survey s id).
      rewrite Ha. destruct (N.eqb_spec addr (creator (survey s id))) as [|_]; [done|].
      unfold permission. cbn. simplify_map_eq. reflexivity.
Qed.

(** * Calls, one at a time *)

Lemma survey_lookup s s' id :
  surveys s' !! id = surveys s !! id → survey s' id = survey s id.
Proof. unfold survey. by intros ->. Qed.

Lemma response_lookup s s' id u :
  responses s' !! (id, u) = responses s !! (id, u) → response s' id u = response s id u.
Proof. unfold response. by intros ->. Qed.

Lemma exists_lookup s id :
  s_exists (survey s id) = true → surveys s !! id = Some (survey s id).
Proof. unfold survey. by destruct (surveys s !! id). Qed.

Lemma switched_survey id b s :
  survey (switched id b s) id = set_isActive b (survey s id).
Proof. unfold switched, survey; cbn. by rewrite lookup_insert_eq. Qed.

Lemma switched_surveys_other id b s id' :
  id' ≠ id → surveys (switched id b s) !! id' = surveys s !! id'.
Proof. intros. unfold switched; cbn. by rewrite lookup_insert_ne. Qed.

Section Calls.
Variable this : address.
Variable verifyCiphertext : externalEuint32 → bytes → option Z.
Lemma dispatch_Ok env c s s' :
  dispatch this verifyCiphertext env c s = Ok s' → call_effect this verifyCiphertext env c s s'.
Proof.
  destruct c; cbn; intros [r H]%exec_Ok; [|destruct r..].
  - eexists. by apply createSurvey_Ok.
  - by apply (submitResponse_Ok this).
  - by apply grantPermission_Ok.
  - by apply revokePermission_Ok.
  - by apply setSurveyStatus_Ok.
  - by apply authorizeMyDecryption_Ok.
  - by apply authorizeAllResultsDecryption_Ok.
Qed.

(** The survey counter never decreases. *)
Lemma call_counter env c s s' :
  call_effect this verifyCiphertext env c s s' → (surveyCounter s ≤ surveyCounter s')%N.
Proof.
  destruct c; cbn.
  - intros [id []]. lia.
  - intros []. lia.
  - by intros (_ & _ & ->).
  - by intros (_ & _ & ->).
  - by intros (_ & _ & ->).
  - by intros (_ & _ & ->).
  - by intros (_ & _ & ->).
Qed.

(** A survey in a slot below the counter keeps its metadata. *)
Lemma call_meta env c s s' id :
  call_effect this verifyCiphertext env c s s' → (id < surveyCounter s)%N →
  meta (survey s' id) = meta (survey s id).
Proof.
  destruct c; cbn.
  - intros [id0 []] Hlt. f_equal. apply survey_lookup, ce_others0. lia.
  - intros [] _. destruct (decide (id = surveyId)) as [->|Hne]; [done|].
    f_equal. by apply survey_lookup, se_others0.
  - by intros (_ & _ & ->).
  - by intros (_ & _ & ->).
  - intros (_ & _ & ->) _. destruct (decide (id = surveyId)) as [->|Hne].
    + by rewrite switched_survey.
    + f_equal. by apply survey_lookup, switched_surveys_other.
  - by intros (_ & _ & ->).
  - by intros (_ & _ & ->).
Qed.

(** Only [setSurveyStatus], called by the creator or a manager, changes
    the active flag. *)
Lemma call_active env c s s' id :
  call_effect this verifyCiphertext env c s s' → (id < surveyCounter s)%N →
  isActive (survey s' id) ≠ isActive (survey s id) →
  ∃ b, c = SetSurveyStatus id b
       ∧ (sender env = creator (survey s id)
          ∨ isManager (permission s id (sender env)) = true).
Proof.
  destruct c; cbn.
  - intros [id0 []] Hlt Hne. exfalso. apply Hne. f_equal.
    apply survey_lookup, ce_others0. lia.
  - intros [] _ Hne. exfalso. apply Hne.
    destruct (decide (id = surveyId)) as [->|Hne']; [done|].
    f_equal. by apply survey_lookup, se_others0.
  - by intros (_ & _ & ->) _ Hne.
  - by intros (_ & _ & ->) _ Hne.
  - intros (_ & Hauth & ->) _ Hne. destruct (decide (id = surveyId)) as [->|Hne'].
    + eauto.
    + exfalso. apply Hne. f_equal. by apply survey_lookup, switched_surveys_other.
  - by intros (_ & _ & ->) _ Hne.
  - by intros (_ & _ & ->) _ Hne.
Qed.

(** Only [submitResponse] to a survey changes its encrypted counters. *)
Lemma call_counters env c s s' id :
  call_effect this verifyCiphertext env c s s' → (id < surveyCounter s)%N → isSubmitTo id c = false →
  totalResponses (survey s' id) = totalResponses (survey s id)
  ∧ aggregatedCounts (survey s' id) = aggregatedCounts (survey s id).
Proof.
  destruct c; cbn.
  - intros [id0 []] Hlt _.
    assert (survey s' id = survey s id) as -> by (apply survey_lookup, ce_others0; lia).
    done.
  - intros [] _ Hne%N.eqb_neq.
    assert (survey s' id = survey s id) as -> by (apply survey_lookup, se_others0; done).
    done.
  - by intros (_ & _ & ->).
  - by intros (_ & _ & ->).
  - intros (_ & _ & ->) _ _. destruct (decide (id = surveyId)) as [->|Hne].
    + by rewrite switched_survey.
    + rewrite (survey_lookup s (switched _ _ s) id)
        by (by apply switched_surveys_other).
      done.
  - by intros (_ & _ & ->).
  - by intros (_ & _ & ->).
Qed.

(** A response record, once it exists, is never written again. *)
Lemma call_response env c s s' id u :
  call_effect this verifyCiphertext env c s s' → r_exists (response s id u) = true →
  response s' id u = response s id u.
Proof.
  destruct c; cbn.
  - intros [id0 []] _. unfold response. by rewrite ce_responses0.
  - intros [] Hex. apply response_lookup, se_resp_others0.
    intros [= -> ->]. congruence.
  - by intros (_ & _ & ->).
  - by intros (_ & _ & ->).
  - by intros (_ & _ & ->).
  - by intros (_ & _ & ->).
  - by intros (_ & _ & ->).
Qed.

(** ** Invariants of the reachable states *)

Lemma slots_ok_lt s id :
  slots_ok s → s_exists (survey s id) = true → (id < surveyCounter s)%N.
Proof. intros Hs Hex. apply exists_lookup in Hex. by apply Hs in Hex as [_ ?]. Qed.

Lemma slots_ok_fresh s : slots_ok s → surveys s !! surveyCounter s = None.
Proof.
  intros Hs. destruct (surveys s !! surveyCounter s) as [sv|] eqn:E; [|done].
  apply Hs in E as [_ ?]. lia.
Qed.

Lemma slots_ok_survey s id :
  slots_ok s → s_exists (survey s id) = false → survey s id = emptySurvey.
Proof.
  intros Hs Hex. unfold survey in *. destruct (surveys s !! id) as [sv|] eqn:E; [|done].
  apply Hs in E as [? _]. cbn in Hex. congruence.
Qed.

Lemma call_slots_ok env c s s' :
  call_effect this verifyCiphertext env c s s' → slots_ok s → slots_ok s'.
Proof.
  intros Hc Hs id sv Hsv.
  assert (Hle := call_counter _ _ _ _ Hc).
  assert (Hkeep : surveys s' !! id = surveys s !! id →
            s_exists sv = true ∧ (id < surveyCounter s')%N).
  { intros E. rewrite E in Hsv. apply Hs in Hsv as [? ?]. split; [done|lia]. }
  assert (Hsame : ∀ id0, s_exists (survey s id0) = true →
            meta (survey s' id0) = meta (survey s id0) →
            (id ≠ id0 → surveys s' !! id = surveys s !! id) →
            s_exists sv = true ∧ (id < surveyCounter s')%N).
  { intros id0 Hex Hm Ho. destruct (decide (id = id0)) as [->|Hne]; [|auto].
    apply meta_exists in Hm. unfold survey at 1 in Hm. rewrite Hsv in Hm. cbn in Hm.
    split; [congruence|]. apply slots_ok_lt in Hex; [lia|done]. }
  destruct c; cbn in Hc.
  - destruct Hc as [id0 []]. destruct (decide (id = id0)) as [->|Hne].
    + destruct ce_meta0 as (qs & Hm & _). unfold survey at 1 in Hm.
      rewrite Hsv in Hm. cbn in Hm. injection Hm as _ _ _ _ _ _ _ -> _ _.
      split; [done|lia].
    + apply Hkeep. auto.
  - destruct Hc. eapply Hsame; eauto.
  - destruct Hc as (_ & _ & ->). by apply Hkeep.
  - destruct Hc as (_ & _ & ->). by apply Hkeep.
  - destruct Hc as (Hex & _ & ->). apply (Hsame surveyId Hex).
    + by rewrite switched_survey.
    + intros. by apply switched_surveys_other.
  - destruct Hc as (_ & _ & ->). by apply Hkeep.
  - destruct Hc as (_ & _ & ->). by apply Hkeep.
Qed.

Lemma reachable_slots_ok s : reachable this verifyCiphertext s → slots_ok s.
Proof.
  induction 1 as [|s env c s' _ IH Hd].
  - intros id sv. cbn. by rewrite lookup_empty.
  - apply dispatch_Ok in Hd. eauto using call_slots_ok.
Qed.

Lemma reachable_step_total s ec :
  reachable this verifyCiphertext s → reachable this verifyCiphertext (step this verifyCiphertext s ec).
Proof.
  intros Hr. unfold step.
  destruct (dispatch this verifyCiphertext ec.1 ec.2 s) eqn:E; [|done].
  eapply reachable_step; eauto.
Qed.

Lemma reachable_run s calls :
  reachable this verifyCiphertext s → reachable this verifyCiphertext (run this verifyCiphertext s calls).
Proof.
  revert s. induction calls as [|ec calls IH]; intros s Hr; [done|].
  cbn. apply IH. by apply reachable_step_total.
Qed.

End Calls.

(** * Runs *)

Section Runs.
Variable this : address.
Variable verifyCiphertext : externalEuint32 → bytes → option Z.
Notation dispatch' := (dispatch this verifyCiphertext).
Notation step' := (step this verifyCiphertext).
Notation run' := (run this verifyCiphertext).
Notation reachable' := (reachable this verifyCiphertext).
Lemma step_cases s ec :
  (∃ s', dispatch' ec.1 ec.2 s = Ok s' ∧ step' s ec = s')
  ∨ ((∃ msg, dispatch' ec.1 ec.2 s = Revert msg) ∧ step' s ec = s).
Proof. unfold step. destruct (dispatch' ec.1 ec.2 s); eauto. Qed.

Lemma run_cons s ec calls : run' s (ec :: calls) = run' (step' s ec) calls.
Proof. reflexivity. Qed.

Lemma run_snoc s calls ec : run' s (calls ++ [ec]) = step' (run' s calls) ec.
Proof. unfold run. by rewrite foldl_app. Qed.

(** A property that every successful call preserves holds along a run. *)
Lemma run_invariant (P : State → Prop) s calls :
  (∀ env c s1 s2, P s1 → dispatch' env c s1 = Ok s2 → P s2) →
  P s → P (run' s calls).
Proof.
  intros Hstep. revert s. induction calls as [|ec calls IH]; intros s HP; [done|].
  rewrite run_cons. apply IH.
  destruct (step_cases s ec) as [(s' & Hd & ->)|[_ ->]]; eauto.
Qed.

Lemma run_meta s calls id :
  (id < surveyCounter s)%N →
  meta (survey (run' s calls) id) = meta (survey s id)
  ∧ (id < surveyCounter (run' s calls))%N.
Proof.
  intros Hlt.
  apply (run_invariant (fun s1 =>
    meta (survey s1 id) = meta (survey s id) ∧ (id < surveyCounter s1)%N)); [|done].
  intros env c s1 s2 [Hm Hl] Hd%dispatch_Ok. split.
  - etrans; [|exact Hm]. by eapply call_meta.
  - apply call_counter in Hd. lia.
Qed.

(** C9. Once a survey has been created, no call changes its creator,
    title, category, tags, creation timestamp, start and end time, existence
    flag, question count or any of its questions (text, type, option count,
    option list). The active flag changes only in a [setSurveyStatus] call
    for that survey made by its creator or by a holder of [canManage], and
    such a call always succeeds and sets the flag. *)
Theorem survey_metadata_immutable s id :
  reachable' s → s_exists (survey s id) = true →
  (∀ calls, meta (survey (run' s calls) id) = meta (survey s id))
  ∧ (∀ env c s', dispatch' env c s = Ok s' →
       isActive (survey s' id) ≠ isActive (survey s id) →
       ∃ b, c = SetSurveyStatus id b
            ∧ (sender env = creator (survey s id)
               ∨ isManager (permission s id (sender env)) = true))
  ∧ (∀ env b,
       sender env = creator (survey s id)
       ∨ isManager (permission s id (sender env)) = true →
       ∃ s', dispatch' env (SetSurveyStatus id b) s = Ok s'
             ∧ isActive (survey s' id) = b).
Proof.
  intros Hr Hex.
  assert (Hlt : (id < surveyCounter s)%N)
    by eauto using slots_ok_lt, reachable_slots_ok.
  split; [|split].
  - intros calls. by apply run_meta.
  - intros env c s' Hd%dispatch_Ok Hne. by eapply call_active.
  - intros env b Hauth. exists (switched id b s). split.
    + cbn. apply exec_Ok. exists tt. by apply setSurveyStatus_Ok.
    + by rewrite switched_survey.
Qed.

(** C3. After a [submitResponse] call from an address to a survey has
    succeeded, the response record of that address for that survey is never
    written again, and every later [submitResponse] call from the same
    address to the same survey reverts, whatever its arguments, and leaves
    the state as it was. *)
Theorem one_response_per_respondent s env id ans prf s1 calls :
  dispatch' env (SubmitResponse id ans prf) s = Ok s1 →
  response (run' s1 calls) id (sender env) = response s1 id (sender env)
  ∧ r_exists (response (run' s1 calls) id (sender env)) = true
  ∧ ∀ env' ans' prf', sender env' = sender env →
      (∃ msg, dispatch' env' (SubmitResponse id ans' prf') (run' s1 calls) = Revert msg)
      ∧ step' (run' s1 calls) (env', SubmitResponse id ans' prf') = run' s1 calls.
Proof.
  intros Hd%dispatch_Ok. cbn in Hd.
  assert (Hex : r_exists (response s1 id (sender env)) = true) by (by destruct Hd).
  assert (Hkeep : response (run' s1 calls) id (sender env) = response s1 id (sender env)).
  { apply (run_invariant (fun s2 =>
      response s2 id (sender env) = response s1 id (sender env))); [|done].
    intros env0 c sa sb Ha Hc%dispatch_Ok. rewrite <- Ha.
    eapply call_response; [exact Hc|]. by rewrite Ha. }
  split; [done|]. split; [by rewrite Hkeep|].
  intros env' ans' prf' Hs.
  assert (Hrev : ∃ msg,
    dispatch' env' (SubmitResponse id ans' prf') (run' s1 calls) = Revert msg).
  { destruct (dispatch' env' (SubmitResponse id ans' prf') (run' s1 calls)) as [s3|msg] eqn:E;
      [exfalso|eauto].
    apply dispatch_Ok in E. cbn in E. destruct E.
    rewrite Hs, Hkeep in se_first0. congruence. }
  split; [done|]. destruct Hrev as [msg Hrev]. unfold step. cbn [fst snd]. by rewrite Hrev.
Qed.

End Runs.

(** * Plaintexts of the counters *)

Lemma plainAnswer_range verifyCiphertext ans prf q a :
  plainAnswer verifyCiphertext ans prf q = Some a → (0 ≤ a < 2 ^ 32)%Z.
Proof.
  unfold plainAnswer. destruct (ans !! q); [|done]. destruct (prf !! q); [|done].
  destruct (verifyCiphertext _ _); [|done]. intros [= <-]. apply uint32_range.
Qed.

Lemma uint32_add_0 x : (0 ≤ x < 2 ^ 32)%Z → uint32 (x + 0) = x.
Proof. intros. rewrite Z.add_0_r. by apply uint32_small. Qed.

Lemma uint32_add_l x y : uint32 (uint32 x + y) = uint32 (x + y).
Proof. unfold uint32. apply Zplus_mod_idemp_l. Qed.

Lemma indicator_range qn a o : (0 ≤ indicator qn a o ≤ 1)%Z.
Proof.
  unfold indicator.
  change (uint32 1) with 1%Z. change (uint32 0) with 0%Z.
  destruct (qType qn); case_match; lia.
Qed.

(** The three indicators in mathematical terms. *)

Lemma indicator_SingleChoice qn a o :
  qType qn = SingleChoice → (Z.of_nat o < 2 ^ 32)%Z →
  indicator qn a o = if (a =? Z.of_nat o)%Z then 1%Z else 0%Z.
Proof.
  intros Hty Ho. unfold indicator. rewrite Hty.
  rewrite uint32_idemp, uint32_small by lia. reflexivity.
Qed.

Lemma shl32_one o : (0 ≤ o)%Z →
  uint32 (shl32 1 o) = if (o <? 32)%Z then (2 ^ o)%Z else 0%Z.
Proof.
  intros Ho. unfold shl32. rewrite uint32_idemp, Z.shiftl_1_l. unfold uint32.
  destruct (Z.ltb_spec o 32) as [Hlt|Hge].
  - apply Z.mod_small. split; [lia|]. apply Z.pow_lt_mono_r; lia.
  - replace o with (32 + (o - 32))%Z by lia.
    rewrite Z.pow_add_r by lia. rewrite Z.mul_comm. apply Z_mod_mult.
Qed.

Lemma indicator_MultipleChoice qn m o :
  qType qn = MultipleChoice → (0 ≤ m < 2 ^ 32)%Z → (Z.of_nat o < 2 ^ 32)%Z →
  indicator qn m o = if Z.testbit m (Z.of_nat o) then 1%Z else 0%Z.
Proof.
  intros Hty Hm Ho. unfold indicator. rewrite Hty.
  rewrite (uint32_small (Z.of_nat o)) by lia.
  rewrite shl32_one by lia.
  change (uint32 1) with 1%Z. change (uint32 0) with 0%Z.
  destruct (Z.ltb_spec (Z.of_nat o) 32) as [Hlt|Hge].
  - destruct (Z.testbit m (Z.of_nat o)) eqn:Hb.
    + assert (Z.land m (2 ^ Z.of_nat o) = 2 ^ Z.of_nat o)%Z as ->.
      { apply Z.bits_inj'. intros n Hn. rewrite Z.land_spec.
        destruct (decide (n = Z.of_nat o)) as [->|Hne].
        - rewrite Hb. by rewrite Z.pow2_bits_true by lia.
        - rewrite Z.pow2_bits_false by lia. apply andb_false_r. }
      assert (0 < 2 ^ Z.of_nat o)%Z by (apply Z.pow_pos_nonneg; lia).
      by destruct (Z.ltb_spec 0 (2 ^ Z.of_nat o)); [|lia].
    + assert (Z.land m (2 ^ Z.of_nat o) = 0)%Z as ->; [|done].
      apply Z.bits_inj'. intros n Hn. rewrite Z.land_spec, Z.bits_0.
      destruct (decide (n = Z.of_nat o)) as [->|Hne].
      * by rewrite Hb.
      * rewrite Z.pow2_bits_false by lia. apply andb_false_r.
  - rewrite Z.land_0_r. cbn.
    assert (Z.testbit m (Z.of_nat o) = false) as ->; [|done].
    apply Z.bits_above_log2; [lia|].
    destruct (decide (m = 0%Z)) as [->|Hm0]; [cbn; lia|].
    assert (Z.log2 m < 32)%Z by (apply Z.log2_lt_pow2; lia). lia.
Qed.

Lemma indicator_Rating qn v o :
  qType qn = Rating → o < 5 →
  indicator qn v o = if (v =? Z.of_nat o + 1)%Z then 1%Z else 0%Z.
Proof.
  intros Hty Ho. unfold indicator. rewrite Hty.
  rewrite uint32_small by lia.
  replace (Z.of_nat (1 + o)) with (Z.of_nat o + 1)%Z by lia. reflexivity.
Qed.

Section Plaintexts.
Variable this : address.
Variable verifyCiphertext : externalEuint32 → bytes → option Z.
Lemma call_shadows_ok env c s s' :
  call_effect this verifyCiphertext env c s s' → slots_ok s → shadows_ok s → shadows_ok s'.
Proof.
  intros Hc Hslots Hs id q o.
  assert (Hsame : aggregatedCounts (survey s' id) = aggregatedCounts (survey s id) →
    (0 ≤ shadow (aggregated (survey s' id) q o) < 2 ^ 32)%Z).
  { intros E. unfold aggregated. rewrite E. apply Hs. }
  destruct c; cbn in Hc.
  - destruct Hc as [id0 []]. apply Hsame.
    destruct (decide (id = id0)) as [->|Hne]; [done|].
    by rewrite (survey_lookup s s' id) by auto.
  - destruct Hc. destruct (decide (id = surveyId)) as [->|Hne].
    + destruct (decide (q < questionCount (survey s surveyId)
                        ∧ o < bucketCount (question (survey s surveyId) q))) as [[Hq Ho]|Hn].
      * destruct (se_defined0 q Hq) as [a Ha].
        rewrite (se_added0 q o a) by done. apply uint32_range.
      * rewrite se_kept0 by lia. apply Hs.
    + apply Hsame. by rewrite (survey_lookup s s' id) by auto.
  - destruct Hc as (_ & _ & ->). by apply Hsame.
  - destruct Hc as (_ & _ & ->). by apply Hsame.
  - destruct Hc as (_ & _ & ->). apply Hsame.
    destruct (decide (id = surveyId)) as [->|Hne].
    + by rewrite switched_survey.
    + by rewrite (survey_lookup s (switched _ _ s) id)
        by (by apply switched_surveys_other).
  - destruct Hc as (_ & _ & ->). by apply Hsame.
  - destruct Hc as (_ & _ & ->). by apply Hsame.
Qed.

Lemma reachable_shadows_ok s : reachable this verifyCiphertext s → shadows_ok s.
Proof.
  induction 1 as [|s env c s' Hr IH Hd].
  - intros id q o. unfold survey, initState; cbn. rewrite lookup_empty; cbn.
    unfold aggregated; cbn. rewrite lookup_empty; cbn. lia.
  - apply dispatch_Ok in Hd.
    eauto using call_shadows_ok, reachable_slots_ok.
Qed.

End Plaintexts.

Section Tallies.
Variable this : address.
Variable verifyCiphertext : externalEuint32 → bytes → option Z.
Notation dispatch' := (dispatch this verifyCiphertext).
Notation step' := (step this verifyCiphertext).
Notation run' := (run this verifyCiphertext).
Notation reachable' := (reachable this verifyCiphertext).
(** What an accepted response does to the buckets of one question, for all
    three question types. *)
Lemma submit_buckets s env id ans prf s' q :
  reachable' s →
  dispatch' env (SubmitResponse id ans prf) s = Ok s' →
  q < questionCount (survey s id) →
  ∃ a, plainAnswer verifyCiphertext ans prf q = Some a
    ∧ (0 ≤ a < 2 ^ 32)%Z
    ∧ (∀ o, o < bucketCount (question (survey s id) q) →
         shadow (aggregated (survey s' id) q o)
         = uint32 (shadow (aggregated (survey s id) q o)
                   + indicator (question (survey s id) q) a o))
    ∧ (∀ o, o < bucketCount (question (survey s id) q) →
         indicator (question (survey s id) q) a o = 0%Z →
         shadow (aggregated (survey s' id) q o)
         = shadow (aggregated (survey s id) q o))
    ∧ (∀ o, bucketCount (question (survey s id) q) ≤ o →
         aggregated (survey s' id) q o = aggregated (survey s id) q o).
Proof.
  intros Hr Hd%dispatch_Ok Hq. cbn in Hd. destruct Hd.
  destruct (se_defined0 q Hq) as [a Ha]. exists a.
  split; [done|]. split; [by eapply plainAnswer_range|].
  split; [|split].
  - intros o Ho. by apply se_added0.
  - intros o Ho Hz. rewrite (se_added0 q o a) by done. rewrite Hz.
    apply uint32_add_0. by apply (reachable_shadows_ok this verifyCiphertext s Hr).
  - intros o Ho. apply se_kept0. lia.
Qed.


(** C4, as the code has it. An accepted response whose plaintext answer to
    a [MultipleChoice] question [q] with [N] options is the bitmask [m] adds
    one to bucket [o] of [q] when bit [o] of [m] is set and leaves it as it is
    otherwise, for every [o < N]; the buckets of [q] from [N] on are not
    touched. The answer [m] reaches no bucket of another question: every
    bucket of another question [q'] changes by the indicator of the answer
    to [q'] alone, and questions past the question count are not touched. *)
Theorem multiple_choice_tally s env id ans prf s' q :
  reachable' s →
  dispatch' env (SubmitResponse id ans prf) s = Ok s' →
  q < questionCount (survey s id) →
  qType (question (survey s id) q) = MultipleChoice →
  (Z.of_nat (optionCount (question (survey s id) q)) ≤ 2 ^ 32)%Z →
  ∃ m, plainAnswer verifyCiphertext ans prf q = Some m
    ∧ (∀ o, o < optionCount (question (survey s id) q) →
         shadow (aggregated (survey s' id) q o)
         = if Z.testbit m (Z.of_nat o)
           then uint32 (shadow (aggregated (survey s id) q o) + 1)
           else shadow (aggregated (survey s id) q o))
    ∧ (∀ o, optionCount (question (survey s id) q) ≤ o →
         aggregated (survey s' id) q o = aggregated (survey s id) q o)
    ∧ (∀ q', q' ≠ q → q' < questionCount (survey s id) →
         ∃ a', plainAnswer verifyCiphertext ans prf q' = Some a'
           ∧ ∀ o', shadow (aggregated (survey s' id) q' o')
                   = if decide (o' < bucketCount (question (survey s id) q'))
                     then uint32 (shadow (aggregated (survey s id) q' o')
                                  + indicator (question (survey s id) q') a' o')
                     else shadow (aggregated (survey s id) q' o'))
    ∧ (∀ q' o', questionCount (survey s id) ≤ q' →
         aggregated (survey s' id) q' o' = aggregated (survey s id) q' o').
Proof.
  intros Hr Hd Hq Hty HN.
  destruct (submit_buckets s env id ans prf s' q Hr Hd Hq)
    as (m & Hm & Hrange & Hadd & Hzero & Hkeep).
  assert (Hb : bucketCount (question (survey s id) q)
               = optionCount (question (survey s id) q))
    by (by rewrite bucketCount_eq, Hty).
  rewrite Hb in *.
  exists m. split; [done|]. split; [|split; [|split]].
  - intros o Ho.
    assert (Hi := indicator_MultipleChoice (question (survey s id) q) m o Hty Hrange).
    destruct (Z.testbit m (Z.of_nat o)).
    + rewrite Hadd, Hi by lia. done.
    + apply Hzero; [done|]. apply Hi. lia.
  - exact Hkeep.
  - intros q' Hne Hq'.
    destruct (submit_buckets s env id ans prf s' q' Hr Hd Hq')
      as (a' & Ha' & _ & Hadd' & _ & Hkeep').
    exists a'. split; [done|]. intros o'. case_decide.
    + by apply Hadd'.
    + by rewrite Hkeep' by lia.
  - intros q' o' Hq'. apply dispatch_Ok in Hd. cbn in Hd. destruct Hd.
    apply se_kept0. lia.
Qed.

End Tallies.

(** * Counting accepted responses *)

Lemma chose_cons a answers o :
  Z.of_nat (chose (a :: answers) o)
  = ((if (a =? Z.of_nat o)%Z then 1 else 0) + Z.of_nat (chose answers o))%Z.
Proof.
  unfold chose. cbn [count_occ].
  destruct (Z.eq_dec a (Z.of_nat o)) as [->|Hne].
  - rewrite Z.eqb_refl. lia.
  - destruct (Z.eqb_spec a (Z.of_nat o)); [done|lia].
Qed.

Lemma chose_le answers o : chose answers o ≤ length answers.
Proof. apply count_occ_bound. Qed.

Lemma sumZ_chose_one a n :
  (0 ≤ a < Z.of_nat n)%Z →
  sumZ (map (fun o => if (a =? Z.of_nat o)%Z then 1%Z else 0%Z) (seq 0 n)) = 1%Z.
Proof.
  induction n as [|n IH]; intros Ha; [lia|].
  rewrite seq_S, map_app. unfold sumZ in *. rewrite foldr_app. cbn.
  destruct (Z.eqb_spec a (Z.of_nat n)) as [->|Hne].
  - assert (Hz : ∀ k, k ≤ n →
      foldr Z.add 1%Z (map (fun o => if (Z.of_nat n =? Z.of_nat o)%Z then 1%Z else 0%Z)
                          (seq 0 k)) = 1%Z).
    { induction k as [|k IHk]; intros Hk; [done|].
      rewrite seq_S, map_app, foldr_app. cbn.
      destruct (Z.eqb_spec (Z.of_nat n) (Z.of_nat k)); [lia|]. apply IHk. lia. }
    rewrite Z.add_0_r. by apply Hz.
  - rewrite Z.add_0_r. apply IH. lia.
Qed.

Lemma sumZ_add {A} (f g : A → Z) l :
  sumZ (map (fun x => (f x + g x)%Z) l) = (sumZ (map f l) + sumZ (map g l))%Z.
Proof. induction l as [|x l IH]; cbn; [done|]. unfold sumZ in *. cbn. lia. Qed.

Lemma sumZ_chose answers n :
  Forall (fun a => (0 ≤ a < Z.of_nat n)%Z) answers →
  sumZ (map (fun o => Z.of_nat (chose answers o)) (seq 0 n)) = Z.of_nat (length answers).
Proof.
  induction 1 as [|a answers Ha _ IH].
  - cbn. unfold chose; cbn. induction (seq 0 n); [done|]. by cbn.
  - erewrite map_ext; [|intros o; apply chose_cons].
    rewrite sumZ_add, IH, sumZ_chose_one by done. cbn [length]. lia.
Qed.

Section Counting.
Variable this : address.
Variable verifyCiphertext : externalEuint32 → bytes → option Z.
Notation dispatch' := (dispatch this verifyCiphertext).
Notation step' := (step this verifyCiphertext).
Notation run' := (run this verifyCiphertext).
Notation reachable' := (reachable this verifyCiphertext).
Lemma acceptedResponses_step id s ec rest :
  (∃ s1 ans prf, ec.2 = SubmitResponse id ans prf ∧ dispatch' ec.1 ec.2 s = Ok s1
     ∧ step' s ec = s1
     ∧ acceptedResponses this verifyCiphertext id s (ec :: rest) = (ans, prf) :: acceptedResponses this verifyCiphertext id s1 rest)
  ∨ (∃ s1, isSubmitTo id ec.2 = false ∧ dispatch' ec.1 ec.2 s = Ok s1
     ∧ step' s ec = s1
     ∧ acceptedResponses this verifyCiphertext id s (ec :: rest) = acceptedResponses this verifyCiphertext id s1 rest)
  ∨ (step' s ec = s
     ∧ acceptedResponses this verifyCiphertext id s (ec :: rest) = acceptedResponses this verifyCiphertext id s rest).
Proof.
  cbn [acceptedResponses]. unfold accepts, step.
  destruct (dispatch' ec.1 ec.2 s) as [s1|msg] eqn:Hd.
  - destruct (isSubmitTo id ec.2) eqn:Hsub.
    + left. destruct ec.2; try discriminate. cbn in Hsub.
      apply N.eqb_eq in Hsub as ->. rewrite N.eqb_refl. cbn.
      eauto 10.
    + right; left. exists s1. repeat split; try done.
      destruct ec.2; try done. cbn in Hsub. by rewrite Hsub.
  - right; right. split; [done|].
    destruct ec.2; try done. by rewrite andb_false_r.
Qed.

Lemma call_totals_ok env c s s' :
  call_effect this verifyCiphertext env c s s' → totals_ok s → totals_ok s'.
Proof.
  intros Hc Hs id.
  assert (Hsame : totalResponses (survey s' id) = totalResponses (survey s id) →
    (0 ≤ shadow (totalResponses (survey s' id)) < 2 ^ 32)%Z).
  { intros ->. apply Hs. }
  destruct c; cbn in Hc.
  - destruct Hc as [id0 []]. destruct (decide (id = id0)) as [->|Hne].
    + rewrite ce_total0. cbn. apply uint32_range.
    + apply Hsame. by rewrite (survey_lookup s s' id) by auto.
  - destruct Hc. destruct (decide (id = surveyId)) as [->|Hne].
    + rewrite se_total0. apply uint32_range.
    + apply Hsame. by rewrite (survey_lookup s s' id) by auto.
  - destruct Hc as (_ & _ & ->). by apply Hsame.
  - destruct Hc as (_ & _ & ->). by apply Hsame.
  - destruct Hc as (_ & _ & ->). apply Hsame.
    destruct (decide (id = surveyId)) as [->|Hne].
    + by rewrite switched_survey.
    + by rewrite (survey_lookup s (switched _ _ s) id)
        by (by apply switched_surveys_other).
  - destruct Hc as (_ & _ & ->). by apply Hsame.
  - destruct Hc as (_ & _ & ->). by apply Hsame.
Qed.

Lemma reachable_totals_ok s : reachable' s → totals_ok s.
Proof.
  induction 1 as [|s env c s' Hr IH Hd].
  - intros id. unfold survey, initState; cbn. rewrite lookup_empty; cbn. lia.
  - apply dispatch_Ok in Hd. eauto using call_totals_ok.
Qed.

(** Facts about a survey that persist from a state to the next one. *)
Lemma step_persist s env c s1 id :
  reachable' s → s_exists (survey s id) = true →
  dispatch' env c s = Ok s1 →
  reachable' s1 ∧ s_exists (survey s1 id) = true
  ∧ meta (survey s1 id) = meta (survey s id).
Proof.
  intros Hr Hex Hd.
  assert (Hlt : (id < surveyCounter s)%N)
    by eauto using slots_ok_lt, reachable_slots_ok.
  assert (Hm : meta (survey s1 id) = meta (survey s id)).
  { apply dispatch_Ok in Hd. by eapply call_meta. }
  split; [by eapply reachable_step|]. split; [|done].
  by rewrite (meta_exists _ _ Hm).
Qed.

Lemma run_total s calls id :
  reachable' s → s_exists (survey s id) = true →
  shadow (totalResponses (survey (run' s calls) id))
  = uint32 (shadow (totalResponses (survey s id))
            + Z.of_nat (length (acceptedResponses this verifyCiphertext id s calls))).
Proof.
  revert s. induction calls as [|ec rest IH]; intros s Hr Hex.
  - cbn. symmetry. apply uint32_add_0. by apply reachable_totals_ok.
  - rewrite run_cons.
    assert (Hlt : (id < surveyCounter s)%N)
      by eauto using slots_ok_lt, reachable_slots_ok.
    destruct (acceptedResponses_step id s ec rest)
      as [(s1 & ans & prf & Hc & Hd & -> & ->)|[(s1 & Hsub & Hd & -> & ->)|[-> ->]]].
    + destruct (step_persist s _ _ s1 id Hr Hex Hd) as (Hr1 & Hex1 & _).
      rewrite Hc in Hd. apply dispatch_Ok in Hd. cbn in Hd. destruct Hd.
      rewrite (IH s1 Hr1 Hex1), se_total0, uint32_add_l.
      f_equal. cbn [length]. lia.
    + destruct (step_persist s _ _ s1 id Hr Hex Hd) as (Hr1 & Hex1 & _).
      apply dispatch_Ok in Hd.
      destruct (call_counters _ _ _ _ _ _ id Hd Hlt Hsub) as [Ht _].
      by rewrite (IH s1 Hr1 Hex1), Ht.
    + by apply IH.
Qed.

End Counting.

(** * Handles and grants *)

Lemma bump_loop_closed (P : State → Prop) this id q start n K ind (body : nat → M unit)
    s s' :
  (∀ o k v s1, P s1 → P (bump this id q o k v s1)) →
  (∀ k s1, body (start + k) s1 = Ok (tt, bump this id q k K (ind k) s1)) →
  forEach (seq start n) body s = Ok (tt, s') →
  P s → P s'.
Proof.
  intros Hb Hbody Hrun HP.
  apply (forEach_seq_ind (fun _ s1 => P s1) start n body s s' HP); [|exact Hrun].
  intros k s1 s2 _ HP1 Hk. rewrite Hbody in Hk. injection Hk as <-. by apply Hb.
Qed.

Section Closure.
Variable this : address.
Variable verifyCiphertext : externalEuint32 → bytes → option Z.
Lemma processAnswer_closed P env id ans prf q s s' :
  submit_closed this id (sender env) P →
  processAnswer this verifyCiphertext env id ans prf q s = Ok (tt, s') →
  P s → P s'.
Proof.
  intros [] H HP. unfold processAnswer in H.
  apply bind_Ok in H as (input & s1 & Hin & H). apply index_Ok in Hin as [Hin ->].
  apply bind_Ok in H as (proof & s1 & Hpr & H). apply index_Ok in Hpr as [Hpr ->].
  apply bind_Ok in H as (e & s1 & Himp & H).
  unfold FHE.fromExternal in Himp.
  destruct (verifyCiphertext input proof) as [v|] eqn:Hv; [|discriminate].
  injection Himp as <- <-.
  assert (HPi : P (imported this id (sender env) q (uint32 v) s)) by auto.
  revert H HPi. unfold_tx. cbn.
  change (survey _ id) with (survey s id).
  set (qn := question (survey s id) q).
  destruct (qType qn); cbv beta iota.
  - intros H HPi.
    refine (bump_loop_closed P this id q 0 _ 5 _ _ _ _ (sc_bump0 q) _ H HPi).
    intros k s1. apply tallySingleChoice_eq.
  - intros H HPi.
    refine (bump_loop_closed P this id q 0 _ 7 _ _ _ _ (sc_bump0 q) _ H HPi).
    intros k s1. apply tallyMultipleChoice_eq.
  - intros H HPi.
    refine (bump_loop_closed P this id q 1 5 5 _ (tallyRating this id q _) _ _ (sc_bump0 q) _ H HPi).
    intros k s1. rewrite tallyRating_eq.
    replace (1 + k - 1) with k by lia. reflexivity.
Qed.

Lemma submitResponse_closed P env id ans prf s s' :
  submit_closed this id (sender env) P →
  submitResponse this verifyCiphertext env id ans prf s = Ok (tt, s') →
  P s → P s'.
Proof.
  intros Hcl H HP. unfold submitResponse in H.
  apply bind_Ok in H as (s0 & s1 & [= <- <-] & H).
  apply bind_Ok in H as ([] & s1 & [_ ->]%require_Ok & H).
  apply bind_Ok in H as ([] & s1 & [_ ->]%require_Ok & H).
  apply bind_Ok in H as ([] & s1 & [_ ->]%require_Ok & H).
  apply bind_Ok in H as ([] & s1 & [_ ->]%require_Ok & H).
  apply bind_Ok in H as ([] & s1 & [_ ->]%require_Ok & H).
  apply bind_Ok in H as ([] & s1 & [_ ->]%require_Ok & H).
  apply bind_Ok in H as ([] & s1 & [= <-] & H).
  apply bind_Ok in H as ([] & s2 & Hloop & H).
  apply bind_Ok in H as ([] & s3 & Htot & H).
  rewrite incrementTotalResponses_eq in Htot. injection Htot as <-.
  injection H as <-.
  apply (sc_event _ _ _ _ Hcl _ (counted this id s2)), (sc_count _ _ _ _ Hcl).
  refine (forEach_seq_ind (fun _ s1 => P s1) _ _ _ _ _ _ _ Hloop).
  - by apply (sc_mark _ _ _ _ Hcl).
  - intros k s1 s2' _ HP1 Hk. cbn in Hk.
    eapply processAnswer_closed; eauto.
Qed.

End Closure.

Lemma iter_succ k n : Nat.iter k N.succ n = (n + N.of_nat k)%N.
Proof.
  induction k as [|k IH]; [cbn; lia|].
  change (Nat.iter (S k) N.succ n) with (N.succ (Nat.iter k N.succ n)).
  rewrite IH. lia.
Qed.

Lemma counterHandle_survey s id h :
  h = hid (totalResponses (survey s id))
  ∨ (∃ q o e, aggregatedCounts (survey s id) !! (q, o) = Some e ∧ h = hid e) →
  counterHandle s h.
Proof.
  unfold survey, counterHandle. destruct (surveys s !! id) as [sv|] eqn:E; cbn.
  - intros H. right. eauto.
  - intros [->|(q & o & e & He & _)]; [by left|]. by rewrite lookup_empty in He.
Qed.

Lemma counterHandle_total s id : counterHandle s (hid (totalResponses (survey s id))).
Proof. apply (counterHandle_survey s id). by left. Qed.

Lemma counterHandle_aggregated s id q o :
  counterHandle s (hid (aggregated (survey s id) q o)).
Proof.
  unfold aggregated.
  destruct (aggregatedCounts (survey s id) !! (q, o)) as [e|] eqn:E; cbn.
  - apply (counterHandle_survey s id). right. eauto.
  - by left.
Qed.

Lemma counterHandle_result s id e :
  e ∈ resultHandles (survey s id) → counterHandle s (hid e).
Proof.
  unfold resultHandles. rewrite elem_of_cons.
  intros [->|He]; [apply counterHandle_total|].
  apply list_elem_of_In, in_flat_map in He as (q & _ & He).
  unfold countHandles in He. apply in_map_iff in He as (o & <- & _).
  apply counterHandle_aggregated.
Qed.

(** A state with the responses and the coprocessor of a good state, and no
    counter handle of its own, is good. *)
Lemma handles_ok_shrink this s s' :
  responses s' = responses s → fhe s' = fhe s →
  (∀ h, counterHandle s' h → counterHandle s h) →
  handles_ok this s → handles_ok this s'.
Proof.
  intros Hrs Hf Hc [].
  assert (Ha : ∀ h, answerHandle s' h ↔ answerHandle s h)
    by (intros; unfold answerHandle; by rewrite Hrs).
  split; rewrite ?Hf; try done.
  - intros h Hh%Hc. auto.
  - intros h Hh%Ha. destruct (ho_answer0 h Hh) as (Hlt & Hnc & Hthis & Honly).
    split; [done|]. split; [|done]. intros Hh'%Hc. done.
Qed.

Lemma handles_ok_same this s s' :
  surveys s' = surveys s → responses s' = responses s → fhe s' = fhe s →
  handles_ok this s → handles_ok this s'.
Proof.
  intros Hsv Hrs Hf. apply handles_ok_shrink; try done.
  intros h. unfold counterHandle. by rewrite Hsv.
Qed.

(** A counter slot is replaced by a freshly drawn handle [n], granted to
    the contract and to [who]. *)
Lemma handles_ok_fresh_counter this s s' n who1 who2 :
  handles_ok this s →
  (nextHandle (fhe s) ≤ n)%N →
  nextHandle (fhe s') = N.succ n →
  acl (fhe s') = (n, who1) :: (n, who2) :: acl (fhe s) →
  responses s' = responses s →
  (∀ h, counterHandle s' h → h = n ∨ counterHandle s h) →
  handles_ok this s'.
Proof.
  intros [] Hn Hnext Hacl Hrs Hc.
  assert (Ha : ∀ h, answerHandle s' h ↔ answerHandle s h)
    by (intros; unfold answerHandle; by rewrite Hrs).
  split; rewrite ?Hnext, ?Hacl.
  - lia.
  - intros h a. rewrite !elem_of_cons.
    intros [[= -> _]|[[= -> _]|Hin]]; [lia|lia|]. apply ho_acl0 in Hin. lia.
  - intros h [->|Hh]%Hc; [lia|]. apply ho_counter0 in Hh. lia.
  - intros h Hh%Ha. destruct (ho_answer0 h Hh) as (Hlt & Hnc & Hthis & Honly).
    split; [lia|]. split; [|split].
    + intros [->|Hh']%Hc; [lia|done].
    + rewrite !elem_of_cons. auto.
    + intros a. rewrite !elem_of_cons.
      intros [[= -> _]|[[= -> _]|Hin]]; [lia|lia|]. auto.
Qed.

(** Existing counter handles are granted to more addresses. *)
Lemma handles_ok_granting this l s :
  handles_ok this s →
  (∀ h a, (h, a) ∈ l → counterHandle s h) →
  handles_ok this (granting l s).
Proof.
  intros [] Hl. split; cbn.
  - done.
  - intros h a [Hin|Hin]%elem_of_app; [|eauto]. eauto.
  - exact ho_counter0.
  - intros h Hh. destruct (ho_answer0 h Hh) as (Hlt & Hnc & Hthis & Honly).
    split; [done|]. split; [done|]. split.
    + apply elem_of_app. by right.
    + intros a [Hin|Hin]%elem_of_app; [|auto]. by apply Hl in Hin.
Qed.

Lemma grantsTo_elem who l h a :
  (h, a) ∈ grantsTo who l → ∃ e, e ∈ l ∧ h = hid e ∧ a = who.
Proof.
  unfold grantsTo. rewrite list_elem_of_In, <- in_rev, in_map_iff.
  intros (e & [= <- <-] & He%list_elem_of_In). eauto.
Qed.

Lemma handles_ok_imported this id u q a s :
  handles_ok this s → handles_ok this (imported this id u q a s).
Proof.
  intros []. set (n := nextHandle (fhe s)).
  assert (Ha : ∀ h, answerHandle (imported this id u q a s) h → h = n ∨ answerHandle s h).
  { intros h (id' & u' & r & q' & e & Hr & He & <-). cbn in Hr.
    destruct (decide ((id, u) = (id', u'))) as [[= <- <-]|Hne].
    - rewrite lookup_insert_eq in Hr. injection Hr as <-. cbn in He.
      destruct (decide (q = q')) as [<-|Hq].
      + rewrite lookup_insert_eq in He. injection He as <-. by left.
      + rewrite lookup_insert_ne in He by done. right.
        unfold response in He. destruct (responses s !! (id, u)) as [r|] eqn:Hr; cbn in He.
        * by exists id, u, r, q', e.
        * by rewrite lookup_empty in He.
    - rewrite lookup_insert_ne in Hr by done. right. by exists id', u', r, q', e. }
  split; cbn; fold n.
  - lia.
  - intros h b [[= -> _]|Hin]%elem_of_cons; [lia|]. apply ho_acl0 in Hin. lia.
  - intros h Hh. apply ho_counter0 in Hh. lia.
  - intros h [->|Hh]%Ha.
    + split; [lia|]. split; [|split].
      * intros Hc. apply ho_counter0 in Hc. lia.
      * apply elem_of_cons. by left.
      * intros b [[= ->]|Hin]%elem_of_cons; [done|]. apply ho_acl0 in Hin. lia.
    + destruct (ho_answer0 h Hh) as (Hlt & Hnc & Hthis & Honly).
      split; [lia|]. split; [done|]. split.
      * apply elem_of_cons. by right.
      * intros b [[= _ ->]|Hin]%elem_of_cons; [done|]. auto.
Qed.

Lemma handles_ok_submit_closed this id u : submit_closed this id u (handles_ok this).
Proof.
  split.
  - intros now s []. split; cbn; try done.
    assert (Ha : ∀ h, answerHandle (set_responses (fun m =>
        <[(id, u) := set_submitted now (response s id u)]> m) s) h → answerHandle s h).
    { intros h (id' & u' & r & q' & e & Hr & He & <-). cbn in Hr.
      destruct (decide ((id, u) = (id', u'))) as [[= <- <-]|Hne].
      - rewrite lookup_insert_eq in Hr. injection Hr as <-. cbn in He.
        unfold response in He. destruct (responses s !! (id, u)) as [r|] eqn:Hr; cbn in He.
        + by exists id, u, r, q', e.
        + by rewrite lookup_empty in He.
      - rewrite lookup_insert_ne in Hr by done. by exists id', u', r, q', e. }
    intros h Hh%Ha. auto.
  - intros q a s. apply handles_ok_imported.
  - intros q o k v s Hs.
    apply (handles_ok_fresh_counter this s _
             (Nat.iter k N.succ (nextHandle (fhe s))) (creator (survey s id)) this Hs);
      try done.
    + rewrite iter_succ. lia.
    + intros h [->|(id' & sv & Hsv & Hh)]; [right; by left|]. cbn in Hsv.
      destruct (decide (id = id')) as [<-|Hne].
      * rewrite lookup_insert_eq in Hsv. injection Hsv as <-. cbn in Hh.
        destruct Hh as [->|(q' & o' & e & He & ->)].
        -- right. apply counterHandle_total.
        -- destruct (decide ((q, o) = (q', o'))) as [[= <- <-]|Hqo].
           ++ rewrite lookup_insert_eq in He. injection He as <-. by left.
           ++ rewrite lookup_insert_ne in He by done. right.
              apply (counterHandle_survey s id). right. eauto.
      * rewrite lookup_insert_ne in Hsv by done. right. right. eauto.
  - intros s Hs.
    apply (handles_ok_fresh_counter this s _
             (N.succ (nextHandle (fhe s))) (creator (survey s id)) this Hs);
      try done.
    + lia.
    + intros h [->|(id' & sv & Hsv & Hh)]; [right; by left|]. cbn in Hsv.
      destruct (decide (id = id')) as [<-|Hne].
      * rewrite lookup_insert_eq in Hsv. injection Hsv as <-. cbn in Hh.
        destruct Hh as [->|(q' & o' & e & He & ->)].
        -- by left.
        -- right. apply (counterHandle_survey s id). right. eauto.
      * rewrite lookup_insert_ne in Hsv by done. right. right. eauto.
  - intros e s. by apply handles_ok_same.
Qed.

Section HandlesInvariant.
Variable this : address.
Variable verifyCiphertext : externalEuint32 → bytes → option Z.
Lemma dispatch_handles_ok env c s s' :
  dispatch this verifyCiphertext env c s = Ok s' →
  handles_ok this s → handles_ok this s'.
Proof.
  intros Hd Hs. destruct c.
  - apply dispatch_Ok in Hd as [id []].
    apply (handles_ok_fresh_counter this s s' (nextHandle (fhe s)) (sender env) this Hs);
      rewrite ?ce_fhe0; try done.
    intros h [->|(id' & sv & Hsv & Hh)]; [right; by left|].
    destruct (decide (id' = id)) as [->|Hne].
    + assert (Hsv' : survey s' id = sv) by (unfold survey; by rewrite Hsv).
      rewrite <- Hsv' in Hh. rewrite ce_total0, ce_aggregated0 in Hh. cbn in Hh.
      destruct Hh as [->|Hh]; [by left|]. right.
      apply (counterHandle_survey s id). by right.
    + rewrite ce_others0 in Hsv by done. right. right. eauto.
  - cbn in Hd. apply exec_Ok in Hd as [[] Hd].
    eapply submitResponse_closed; eauto using handles_ok_submit_closed.
  - apply dispatch_Ok in Hd as (_ & _ & ->).
    apply (handles_ok_same this
      (granting [(hid (totalResponses (survey s surveyId)), viewer)] s)); try done.
    apply handles_ok_granting; [done|].
    intros h a [= -> ->]%list_elem_of_singleton. apply counterHandle_total.
  - apply dispatch_Ok in Hd as (_ & _ & ->). by apply (handles_ok_same this s).
  - apply dispatch_Ok in Hd as (_ & _ & ->).
    apply (handles_ok_shrink this s); try done.
    intros h [->|(id' & sv & Hsv & Hh)]; [by left|]. cbn in Hsv.
    destruct (decide (surveyId = id')) as [<-|Hne].
    + rewrite lookup_insert_eq in Hsv. injection Hsv as <-. cbn in Hh.
      by apply (counterHandle_survey s surveyId).
    + rewrite lookup_insert_ne in Hsv by done. right. eauto.
  - apply dispatch_Ok in Hd as (_ & _ & ->).
    apply handles_ok_granting; [done|].
    intros h a [= -> ->]%list_elem_of_singleton. apply counterHandle_total.
  - apply dispatch_Ok in Hd as (_ & _ & ->).
    apply handles_ok_granting; [done|].
    intros h a (e & He & -> & _)%grantsTo_elem.
    by apply (counterHandle_result s surveyId).
Qed.

Lemma reachable_handles_ok s :
  reachable this verifyCiphertext s → handles_ok this s.
Proof.
  induction 1 as [|s env c s' Hr IH Hd].
  - split; cbn.
    + lia.
    + intros h a Hin. by apply elem_of_nil in Hin.
    + intros h [->|(id & sv & Hsv & _)]; [lia|]. cbn in Hsv.
      by rewrite lookup_empty in Hsv.
    + intros h (id & u & r & q & e & Hr & _). cbn in Hr.
      by rewrite lookup_empty in Hr.
  - eauto using dispatch_handles_ok.
Qed.

End HandlesInvariant.

Section Privacy.
Variable this : address.
Variable verifyCiphertext : externalEuint32 → bytes → option Z.
Notation dispatch' := (dispatch this verifyCiphertext).
Notation step' := (step this verifyCiphertext).
Notation run' := (run this verifyCiphertext).
Notation reachable' := (reachable this verifyCiphertext).
Lemma call_responses_ok env c s s' :
  call_effect this verifyCiphertext env c s s' →
  slots_ok s → responses_ok s → responses_ok s'.
Proof.
  intros Hc Hslots Hs id u Hex'.
  assert (Hold : response s' id u = response s id u →
    s_exists (survey s' id) = true
    ∧ ∀ q, q < questionCount (survey s' id) →
        is_Some (encryptedAnswers (response s' id u) !! q)).
  { intros E. rewrite E in *. destruct (Hs id u Hex') as [Hex Hq].
    assert (Hm : meta (survey s' id) = meta (survey s id)).
    { eapply call_meta; eauto using slots_ok_lt. }
    rewrite (meta_exists _ _ Hm), (meta_questionCount _ _ Hm). done. }
  destruct c; cbn in Hc.
  - destruct Hc as [id0 []]. apply Hold. unfold response. by rewrite ce_responses0.
  - destruct Hc. destruct (decide ((id, u) = (surveyId, sender env))) as [[= -> ->]|Hne].
    + rewrite (meta_exists _ _ se_meta0), (meta_questionCount _ _ se_meta0).
      split; [done|]. intros q Hq. destruct (se_defined0 q Hq) as [a Ha].
      destruct (se_resp_answers0 q a Hq Ha) as [h ->]. eauto.
    + apply Hold. apply response_lookup. by apply se_resp_others0.
  - destruct Hc as (_ & _ & ->). by apply Hold.
  - destruct Hc as (_ & _ & ->). by apply Hold.
  - destruct Hc as (_ & _ & ->). by apply Hold.
  - destruct Hc as (_ & _ & ->). by apply Hold.
  - destruct Hc as (_ & _ & ->). by apply Hold.
Qed.

Lemma reachable_responses_ok s : reachable' s → responses_ok s.
Proof.
  induction 1 as [|s env c s' Hr IH Hd].
  - intros id u. unfold response, initState; cbn. by rewrite lookup_empty.
  - apply dispatch_Ok in Hd.
    eauto using call_responses_ok, reachable_slots_ok.
Qed.

(** The handle [getResponse] returns is an answer handle. *)
Lemma getResponse_answerHandle s id user q e :
  reachable' s → view (getResponse id user q) s = Ok e → answerHandle s (hid e).
Proof.
  intros Hr [s' H]%view_Ok. unfold getResponse in H.
  apply bind_Ok in H as (s0 & s1 & [= <- <-] & H).
  apply bind_Ok in H as ([] & s1 & [Hex ->]%require_Ok & H).
  apply bind_Ok in H as ([] & s1 & [Hq%Nat.ltb_lt ->]%require_Ok & H).
  injection H as <- <-.
  destruct (reachable_responses_ok s Hr id user Hex) as [_ Hans].
  destruct (Hans q Hq) as [e He].
  unfold answer. rewrite He. cbn.
  unfold response in He. destruct (responses s !! (id, user)) as [r|] eqn:Er; cbn in He.
  - by exists id, user, r, q, e.
  - by rewrite lookup_empty in He.
Qed.

Lemma getResponse_eq s id u q :
  view (getResponse id u q) s
  = if r_exists (response s id u)
    then if q <? questionCount (survey s id)
         then Ok (answer (response s id u) q)
         else Revert "Invalid question index"
    else Revert "Response does not exist".
Proof.
  unfold view, getResponse, bind, get.
  destruct (r_exists (response s id u)); [|reflexivity].
  unfold require at 1. unfold ret at 1.
  destruct (q <? questionCount (survey s id)); reflexivity.
Qed.

Lemma getResponse_run s id user q e calls :
  reachable' s →
  view (getResponse id user q) s = Ok e →
  view (getResponse id user q) (run' s calls) = Ok e.
Proof.
  intros Hr Hv.
  assert (Hex : r_exists (response s id user) = true).
  { rewrite getResponse_eq in Hv. by destruct (r_exists (response s id user)). }
  cut (reachable' (run' s calls)
       ∧ response (run' s calls) id user = response s id user
       ∧ meta (survey (run' s calls) id) = meta (survey s id)).
  { intros (_ & Hresp & Hm). rewrite getResponse_eq in *.
    by rewrite Hresp, (meta_questionCount _ _ Hm). }
  apply (run_invariant this verifyCiphertext (fun s1 =>
    reachable' s1 ∧ response s1 id user = response s id user
    ∧ meta (survey s1 id) = meta (survey s id))); [|done].
  intros env c s1 s2 (Hr1 & Hresp & Hm) Hd.
  split; [by eapply reachable_step|].
  assert (Hex1 : r_exists (response s1 id user) = true) by (by rewrite Hresp).
  destruct (reachable_responses_ok s1 Hr1 id user Hex1) as [Hsv _].
  apply dispatch_Ok in Hd. split.
  - rewrite <- Hresp. by eapply call_response.
  - rewrite <- Hm. eapply call_meta; eauto.
    eauto using slots_ok_lt, reachable_slots_ok.
Qed.

(** In every reachable state the handle [getResponse] returns for a
    stored answer is granted to the contract itself and to no other
    address, and this stays so after any further calls. *)
Lemma getResponse_private s id user q e calls :
  reachable' s →
  view (getResponse id user q) s = Ok e →
  view (getResponse id user q) (run' s calls) = Ok e
  ∧ isAllowed (fhe (run' s calls)) (hid e) this
  ∧ (∀ a, isAllowed (fhe (run' s calls)) (hid e) a → a = this)
  ∧ (user ≠ this → ¬ isAllowed (fhe (run' s calls)) (hid e) user)
  ∧ (creator (survey s id) ≠ this →
       ¬ isAllowed (fhe (run' s calls)) (hid e) (creator (survey s id))).
Proof.
  intros Hr Hv.
  assert (Hr' : reachable' (run' s calls)) by (by apply reachable_run).
  assert (Hv' := getResponse_run s id user q e calls Hr Hv).
  assert (Ha := getResponse_answerHandle _ _ _ _ _ Hr' Hv').
  destruct (reachable_handles_ok this verifyCiphertext _ Hr') as [_ _ _ Hans].
  destruct (Hans _ Ha) as (_ & _ & Hthis & Honly).
  unfold isAllowed. split; [done|]. split; [done|].
  split; [done|]. split.
  - intros Hne Hin. by apply Honly in Hin.
  - intros Hne Hin. by apply Honly in Hin.
Qed.

(** C10. After an accepted [submitResponse], for every question index [q]
    of the survey, the answer handle stored for the caller is the one
    [getResponse] returns, now and after any further calls, and the access
    list grants it to the contract itself and to no other address: whatever
    entry points are called afterwards, neither the respondent who submitted
    it nor the creator of the survey is allowed to decrypt it. *)
Theorem answers_private s env id ans prf s1 q calls :
  reachable' s →
  dispatch' env (SubmitResponse id ans prf) s = Ok s1 →
  q < questionCount (survey s id) →
  let e := answer (response s1 id (sender env)) q in
  let s2 := run' s1 calls in
  view (getResponse id (sender env) q) s2 = Ok e
  ∧ isAllowed (fhe s2) (hid e) this
  ∧ (∀ a, isAllowed (fhe s2) (hid e) a → a = this)
  ∧ (sender env ≠ this → ¬ isAllowed (fhe s2) (hid e) (sender env))
  ∧ (creator (survey s id) ≠ this →
       ¬ isAllowed (fhe s2) (hid e) (creator (survey s id))).
Proof.
  intros Hr Hd Hq e s2.
  assert (Hr1 : reachable' s1) by (by eapply reachable_step).
  assert (He := dispatch_Ok _ _ _ _ _ _ Hd). cbn in He.
  assert (Hv : view (getResponse id (sender env) q) s1 = Ok e).
  { rewrite getResponse_eq, (se_resp_flag _ _ _ _ _ _ _ He).
    rewrite (meta_questionCount _ _ (se_meta _ _ _ _ _ _ _ He)).
    by apply Nat.ltb_lt in Hq as ->. }
  destruct (getResponse_private s1 id (sender env) q e calls Hr1 Hv)
    as (H1 & H2 & H3 & H4 & H5).
  rewrite (meta_creator _ _ (se_meta _ _ _ _ _ _ _ He)) in H5.
  done.
Qed.

End Privacy.

Section CountingTheorems.
Variable this : address.
Variable verifyCiphertext : externalEuint32 → bytes → option Z.
Notation dispatch' := (dispatch this verifyCiphertext).
Notation step' := (step this verifyCiphertext).
Notation run' := (run this verifyCiphertext).
Notation reachable' := (reachable this verifyCiphertext).
Notation acceptedResponses' := (acceptedResponses this verifyCiphertext).
Notation answersTo' := (answersTo verifyCiphertext).
(** The state right after a survey has been created. *)
Lemma created_state s env ttl cat tgs st en texts types opts id s0 :
  reachable' s →
  createSurvey this env ttl cat tgs st en texts types opts s = Ok (id, s0) →
  reachable' s0 ∧ s_exists (survey s0 id) = true
  ∧ questionCount (survey s0 id) = length texts
  ∧ creator (survey s0 id) = sender env
  ∧ shadow (totalResponses (survey s0 id)) = 0%Z
  ∧ hid (totalResponses (survey s0 id)) ≠ 0%N
  ∧ (∀ q o, aggregated (survey s0 id) q o = euint32_zero)
  ∧ (∀ q ty os, q < length texts → types !! q = Some ty → opts !! q = Some os →
       qType (question (survey s0 id) q) = ty
       ∧ optionCount (question (survey s0 id) q) = length os
       ∧ options (question (survey s0 id) q) = os).
Proof.
  intros Hr Hc.
  assert (Hd : dispatch' env (CreateSurvey ttl cat tgs st en texts types opts) s = Ok s0).
  { cbn. apply exec_Ok. eauto. }
  assert (Hr0 : reachable' s0) by (by eapply reachable_step).
  apply createSurvey_Ok in Hc. destruct Hc.
  destruct ce_meta0 as (qs & Hm & Hqs & _).
  unfold meta in Hm. injection Hm as Hcr _ _ _ _ _ _ Hex Hqc Hquestions.
  assert (Hempty : survey s id = emptySurvey).
  { unfold survey. rewrite ce_id0.
    by rewrite (slots_ok_fresh s (reachable_slots_ok this verifyCiphertext s Hr)). }
  repeat split; try done.
  - by rewrite ce_total0.
  - rewrite ce_total0. cbn.
    destruct (reachable_handles_ok this verifyCiphertext s Hr) as [Hpos _ _ _]. lia.
  - intros q o. unfold aggregated. rewrite ce_aggregated0, Hempty. cbn.
    by rewrite lookup_empty.
  - destruct (Hqs q H) as (txt & ty' & os' & _ & Hty & Hos & _ & _ & Hq).
    unfold question. rewrite Hquestions, Hq. cbn. congruence.
  - destruct (Hqs q H) as (txt & ty' & os' & _ & Hty & Hos & _ & _ & Hq).
    unfold question. rewrite Hquestions, Hq. cbn. congruence.
  - destruct (Hqs q H) as (txt & ty' & os' & _ & Hty & Hos & _ & _ & Hq).
    unfold question. rewrite Hquestions, Hq. cbn. congruence.
Qed.

(** C2. The encrypted total of a survey is an encryption of zero right
    after [createSurvey]; every accepted [submitResponse] to the survey adds
    one to its plaintext in 32-bit arithmetic and no other call changes it;
    so its plaintext is the number of accepted responses, modulo [2^32]. *)
Theorem total_responses_counts s env ttl cat tgs st en texts types opts id s0 calls :
  reachable' s →
  createSurvey this env ttl cat tgs st en texts types opts s = Ok (id, s0) →
  shadow (totalResponses (survey s0 id)) = 0%Z
  ∧ hid (totalResponses (survey s0 id)) ≠ 0%N
  ∧ shadow (totalResponses (survey (run' s0 calls) id))
    = uint32 (Z.of_nat (length (acceptedResponses' id s0 calls)))
  ∧ ∀ env' c s',
      dispatch' env' c (run' s0 calls) = Ok s' →
      if isSubmitTo id c
      then shadow (totalResponses (survey s' id))
           = uint32 (shadow (totalResponses (survey (run' s0 calls) id)) + 1)
      else totalResponses (survey s' id)
           = totalResponses (survey (run' s0 calls) id).
Proof.
  intros Hr Hc.
  destruct (created_state _ _ _ _ _ _ _ _ _ _ _ _ Hr Hc)
    as (Hr0 & Hex0 & _ & _ & Hz & Hh & _).
  split; [done|]. split; [done|]. split.
  - by rewrite (run_total this verifyCiphertext s0 calls id Hr0 Hex0), Hz.
  - intros env' c s' Hd.
    assert (Hr1 : reachable' (run' s0 calls)) by (by apply reachable_run).
    assert (Hlt : (id < surveyCounter (run' s0 calls))%N).
    { apply run_meta. eauto using slots_ok_lt, reachable_slots_ok. }
    apply dispatch_Ok in Hd.
    destruct (isSubmitTo id c) eqn:Hsub.
    + destruct c; try discriminate. cbn in Hsub. apply N.eqb_eq in Hsub as ->.
      cbn in Hd. by destruct Hd.
    + by destruct (call_counters _ _ _ _ _ _ id Hd Hlt Hsub).
Qed.

Lemma answersTo_cons q ans prf l a :
  plainAnswer verifyCiphertext ans prf q = Some a →
  answersTo' q ((ans, prf) :: l) = a :: answersTo' q l.
Proof. intros H. unfold answersTo. cbn. by rewrite H. Qed.

Lemma answersTo_nonneg q l : Forall (fun a => (0 ≤ a)%Z) (answersTo' q l).
Proof.
  unfold answersTo. apply Forall_forall.
  intros a (r & <- & _)%list_elem_of_In%in_map_iff.
  destruct (plainAnswer verifyCiphertext r.1 r.2 q) as [a|] eqn:E; cbn; [|done].
  apply plainAnswer_range in E. lia.
Qed.

(** The plaintext of a bucket after a run: what it was, plus the
    indicators of the accepted answers. *)
Lemma run_buckets s calls id q o qn :
  reachable' s → s_exists (survey s id) = true →
  q < questionCount (survey s id) → question (survey s id) q = qn →
  o < bucketCount qn →
  shadow (aggregated (survey (run' s calls) id) q o)
  = uint32 (shadow (aggregated (survey s id) q o)
            + sumZ (map (fun a => indicator qn a o)
                      (answersTo' q (acceptedResponses' id s calls)))).
Proof.
  revert s. induction calls as [|ec rest IH]; intros s Hr Hex Hq Hqn Ho.
  - cbn. symmetry. apply uint32_add_0.
    by apply (reachable_shadows_ok this verifyCiphertext s Hr).
  - rewrite run_cons.
    assert (Hlt : (id < surveyCounter s)%N)
      by eauto using slots_ok_lt, reachable_slots_ok.
    assert (Hnext : ∀ s1, dispatch' ec.1 ec.2 s = Ok s1 →
      reachable' s1 ∧ s_exists (survey s1 id) = true
      ∧ q < questionCount (survey s1 id) ∧ question (survey s1 id) q = qn).
    { intros s1 Hd.
      destruct (step_persist this verifyCiphertext s _ _ s1 id Hr Hex Hd)
        as (Hr1 & Hex1 & Hm).
      rewrite (meta_questionCount _ _ Hm), (meta_question _ _ q Hm). done. }
    destruct (acceptedResponses_step this verifyCiphertext id s ec rest)
      as [(s1 & ans & prf & Hc & Hd & -> & ->)|[(s1 & Hsub & Hd & -> & ->)|[-> ->]]].
    + destruct (Hnext s1 Hd) as (Hr1 & Hex1 & Hq1 & Hqn1).
      rewrite (IH s1 Hr1 Hex1 Hq1 Hqn1 Ho).
      rewrite Hc in Hd.
      destruct (submit_buckets this verifyCiphertext s _ id ans prf s1 q Hr Hd Hq)
        as (a & Ha & _ & Hadd & _).
      rewrite Hqn in Hadd. rewrite (Hadd o Ho), uint32_add_l.
      rewrite (answersTo_cons q ans prf _ a Ha). cbn.
      f_equal. unfold sumZ. lia.
    + destruct (Hnext s1 Hd) as (Hr1 & Hex1 & Hq1 & Hqn1).
      rewrite (IH s1 Hr1 Hex1 Hq1 Hqn1 Ho).
      apply dispatch_Ok in Hd.
      destruct (call_counters _ _ _ _ _ _ id Hd Hlt Hsub) as [_ Ha].
      unfold aggregated. by rewrite Ha.
    + by apply IH.
Qed.

Lemma sumZ_indicator_SingleChoice qn answers o :
  qType qn = SingleChoice → (Z.of_nat o < 2 ^ 32)%Z →
  sumZ (map (fun a => indicator qn a o) answers) = Z.of_nat (chose answers o).
Proof.
  intros Hty Ho. induction answers as [|a answers IH]; [done|].
  rewrite chose_cons. cbn. unfold sumZ in IH. rewrite IH.
  by rewrite indicator_SingleChoice.
Qed.


End CountingTheorems.

(** * Views *)

Lemma getSurveyInfo_eq s id :
  view (getSurveyInfo id) s
  = Ok (creator (survey s id), title (survey s id), category (survey s id),
        createdAt (survey s id), startTime (survey s id), endTime (survey s id),
        questionCount (survey s id), s_exists (survey s id), isActive (survey s id)).
Proof. reflexivity. Qed.

Lemma getQuestionInfo_eq s id q :
  view (getQuestionInfo id q) s
  = if s_exists (survey s id)
    then if q <? questionCount (survey s id)
         then Ok (text (question (survey s id) q), qType (question (survey s id) q),
                  optionCount (question (survey s id) q),
                  options (question (survey s id) q))
         else Revert "Invalid question index"
    else Revert "Survey does not exist".
Proof.
  unfold view, getQuestionInfo, bind, get.
  destruct (s_exists (survey s id)); [|reflexivity].
  unfold require at 1. unfold ret at 1.
  destruct (q <? questionCount (survey s id)); reflexivity.
Qed.

Lemma getSurveyTags_eq s id :
  view (getSurveyTags id) s
  = if s_exists (survey s id) then Ok (tags (survey s id))
    else Revert "Survey does not exist".
Proof.
  unfold view, getSurveyTags, bind, get.
  destruct (s_exists (survey s id)); reflexivity.
Qed.

Lemma getTotalResponses_eq s id :
  view (getTotalResponses id) s
  = if s_exists (survey s id) then Ok (totalResponses (survey s id))
    else Revert "Survey does not exist".
Proof.
  unfold view, getTotalResponses, bind, get.
  destruct (s_exists (survey s id)); reflexivity.
Qed.

Lemma getQuestionOptionCounts_eq s id q :
  view (getQuestionOptionCounts id q) s
  = if s_exists (survey s id)
    then if q <? questionCount (survey s id)
         then Ok (countHandles (survey s id) q)
         else Revert "Invalid question index"
    else Revert "Survey does not exist".
Proof.
  unfold view, getQuestionOptionCounts, bind, get.
  destruct (s_exists (survey s id)); [|reflexivity].
  unfold require at 1. unfold ret at 1.
  destruct (q <? questionCount (survey s id)); reflexivity.
Qed.

Section ViewTheorems.
Variable this : address.
Variable verifyCiphertext : externalEuint32 → bytes → option Z.
Notation dispatch' := (dispatch this verifyCiphertext).
Notation reachable' := (reachable this verifyCiphertext).
(** C6, as the code has it. For a survey id under which no survey exists,
    [getQuestionInfo] and [getSurveyTags] revert, while [getSurveyInfo]
    succeeds and returns the zero-valued record, whose [exists] component is
    [false]. For an existing survey [getQuestionInfo] reverts when the
    question index is not below the question count. *)
Theorem read_accessors_not_found s id q :
  reachable' s →
  (s_exists (survey s id) = false →
     view (getQuestionInfo id q) s = Revert "Survey does not exist"
     ∧ view (getSurveyTags id) s = Revert "Survey does not exist"
     ∧ view (getSurveyInfo id) s
       = Ok (0%N, ""%string, ""%string, 0%N, 0%N, 0%N, 0, false, false))
  ∧ (s_exists (survey s id) = true → questionCount (survey s id) ≤ q →
     view (getQuestionInfo id q) s = Revert "Invalid question index").
Proof.
  intros Hr. split.
  - intros Hex. rewrite getQuestionInfo_eq, getSurveyTags_eq, getSurveyInfo_eq, Hex.
    split; [done|]. split; [done|].
    by rewrite (slots_ok_survey s id (reachable_slots_ok this verifyCiphertext s Hr) Hex).
  - intros Hex Hq. rewrite getQuestionInfo_eq, Hex.
    by destruct (Nat.ltb_spec q (questionCount (survey s id))); [lia|].
Qed.

(** C7. When [authorizeAllResultsDecryption] succeeds, the grants it logs
    are, for the caller, exactly the handles [getTotalResponses] and
    [getQuestionOptionCounts] return at that moment for the survey: the total
    and, for every question, five buckets for a [Rating] question and as many
    as there are options otherwise. Nothing else in the state changes. *)
Theorem authorize_all_grants s env id s' :
  dispatch' env (AuthorizeAllResultsDecryption id) s = Ok s' →
  view (getTotalResponses id) s = Ok (totalResponses (survey s id))
  ∧ (∀ q, q < questionCount (survey s id) →
       view (getQuestionOptionCounts id q) s = Ok (countHandles (survey s id) q)
       ∧ length (countHandles (survey s id) q)
         = if decide (qType (question (survey s id) q) = Rating) then 5
           else optionCount (question (survey s id) q))
  ∧ s' = granting (grantsTo (sender env) (resultHandles (survey s id))) s
  ∧ acl (fhe s') = grantsTo (sender env) (resultHandles (survey s id)) ++ acl (fhe s)
  ∧ ∀ h a, (h, a) ∈ grantsTo (sender env) (resultHandles (survey s id)) ↔
      a = sender env
      ∧ (h = hid (totalResponses (survey s id))
         ∨ ∃ q e, q < questionCount (survey s id)
             ∧ e ∈ countHandles (survey s id) q ∧ h = hid e).
Proof.
  intros Hd%dispatch_Ok. cbn in Hd. destruct Hd as (Hex & _ & ->).
  split; [by rewrite getTotalResponses_eq, Hex|]. split; [|split; [done|split; [done|]]].
  - intros q Hq. rewrite getQuestionOptionCounts_eq, Hex.
    destruct (Nat.ltb_spec q (questionCount (survey s id))); [|lia].
    split; [done|]. unfold countHandles, bucketCount. by rewrite length_map, length_seq.
  - intros h a. unfold grantsTo, resultHandles.
    rewrite list_elem_of_In, <- in_rev, in_map_iff. split.
    + intros (e & [= <- <-] & [<-|He]); [auto|].
      split; [done|]. right.
      apply in_flat_map in He as (q & Hq%in_seq & He%list_elem_of_In).
      exists q, e. split; [lia|done].
    + intros [-> [->|(q & e & Hq & He & ->)]].
      * exists (totalResponses (survey s id)). split; [done|]. by left.
      * exists e. split; [done|]. right. apply in_flat_map.
        exists q. split; [apply in_seq; lia|by apply list_elem_of_In].
Qed.

End ViewTheorems.

(** * A worked scenario *)

Lemma exampleCreated_reachable : reachable exampleThis exampleVerify exampleCreated.
Proof. apply reachable_run, reachable_init. Qed.

Lemma exampleAnswered_reachable : reachable exampleThis exampleVerify exampleAnswered.
Proof. apply reachable_run, exampleCreated_reachable. Qed.


Lemma total_responses_counts_witness :
  reachable exampleThis exampleVerify initState
  ∧ createSurvey exampleThis (MkEnv alice 100) "T" "C" ["x"%string] 100 200
      ["Q1"; "Q2"; "Q3"]%string [SingleChoice; MultipleChoice; Rating]
      [["A"; "B"]; ["X"; "Y"; "Z"]; ["stars"]]%string initState
    = Ok (0%N, exampleCreated)
  ∧ shadow (totalResponses (survey exampleCreated 0)) = 0%Z
  ∧ dispatch exampleThis exampleVerify exampleSubmitBob.1 exampleSubmitBob.2 exampleCreated
    = Ok exampleAnswered
  ∧ shadow (totalResponses (survey exampleAnswered 0)) = 1%Z
  ∧ dispatch exampleThis exampleVerify (MkEnv alice 180)
      (AuthorizeAllResultsDecryption 0) exampleAnswered
    = Ok exampleAuthorized
  ∧ totalResponses (survey exampleAuthorized 0)
    = totalResponses (survey exampleAnswered 0)
  ∧ length (acceptedResponses exampleThis exampleVerify 0 exampleCreated
              [exampleSubmitBob; exampleSubmitCarol]) = 2
  ∧ shadow (totalResponses
      (survey (run exampleThis exampleVerify exampleCreated
                 [exampleSubmitBob; exampleSubmitCarol]) 0)) = 2%Z.
Proof.
  assert (Hc : createSurvey exampleThis (MkEnv alice 100) "T" "C" ["x"%string] 100 200
      ["Q1"; "Q2"; "Q3"]%string [SingleChoice; MultipleChoice; Rating]
      [["A"; "B"]; ["X"; "Y"; "Z"]; ["stars"]]%string initState
    = Ok (0%N, exampleCreated)) by (vm_compute; reflexivity).
  assert (Hd : dispatch exampleThis exampleVerify exampleSubmitBob.1 exampleSubmitBob.2
                 exampleCreated = Ok exampleAnswered) by (vm_compute; reflexivity).
  assert (Ha : dispatch exampleThis exampleVerify (MkEnv alice 180)
                 (AuthorizeAllResultsDecryption 0) exampleAnswered
               = Ok exampleAuthorized) by (vm_compute; reflexivity).
  split; [apply reachable_init|]. split; [exact Hc|].
  destruct (total_responses_counts exampleThis exampleVerify initState
    (MkEnv alice 100) "T" "C" ["x"%string] 100 200 ["Q1"; "Q2"; "Q3"]%string
    [SingleChoice; MultipleChoice; Rating]
    [["A"; "B"]; ["X"; "Y"; "Z"]; ["stars"]]%string
    0%N exampleCreated [] (reachable_init _ _) Hc) as (Hz & _ & _ & Hstep).
  split; [exact Hz|]. split; [exact Hd|].
  split.
  { etransitivity;
      [exact (Hstep (MkEnv bob 150)
                (SubmitResponse 0 [1%N; 5%N; 4%N]
                   [exampleProof; exampleProof; exampleProof]) exampleAnswered Hd)
      |vm_compute; reflexivity]. }
  split; [exact Ha|].
  destruct (total_responses_counts exampleThis exampleVerify initState
    (MkEnv alice 100) "T" "C" ["x"%string] 100 200 ["Q1"; "Q2"; "Q3"]%string
    [SingleChoice; MultipleChoice; Rating]
    [["A"; "B"]; ["X"; "Y"; "Z"]; ["stars"]]%string
    0%N exampleCreated [exampleSubmitBob] (reachable_init _ _) Hc)
    as (_ & _ & _ & Hother).
  split; [exact (Hother (MkEnv alice 180) (AuthorizeAllResultsDecryption 0)
                   exampleAuthorized Ha)|].
  destruct (total_responses_counts exampleThis exampleVerify initState
    (MkEnv alice 100) "T" "C" ["x"%string] 100 200 ["Q1"; "Q2"; "Q3"]%string
    [SingleChoice; MultipleChoice; Rating]
    [["A"; "B"]; ["X"; "Y"; "Z"]; ["stars"]]%string
    0%N exampleCreated [exampleSubmitBob; exampleSubmitCarol]
    (reachable_init _ _) Hc) as (_ & _ & Hn & _).
  split; [vm_compute; reflexivity|].
  etransitivity; [exact Hn|vm_compute; reflexivity].
Defined.

Lemma one_response_per_respondent_witness :
  dispatch exampleThis exampleVerify exampleSubmitBob.1 exampleSubmitBob.2 exampleCreated
  = Ok exampleAnswered
  ∧ ∃ msg,
      dispatch exampleThis exampleVerify (MkEnv bob 170)
        (SubmitResponse 0 [0%N; 0%N; 0%N] [exampleProof; exampleProof; exampleProof])
        (run exampleThis exampleVerify exampleAnswered [exampleSubmitCarol])
      = Revert msg.
Proof.
  assert (Hd : dispatch exampleThis exampleVerify exampleSubmitBob.1 exampleSubmitBob.2
                 exampleCreated = Ok exampleAnswered) by (vm_compute; reflexivity).
  split; [exact Hd|].
  destruct (one_response_per_respondent exampleThis exampleVerify exampleCreated
    (MkEnv bob 150) 0%N [1%N; 5%N; 4%N] [exampleProof; exampleProof; exampleProof]
    exampleAnswered [exampleSubmitCarol] Hd) as (_ & _ & Hrev).
  exact (proj1 (Hrev (MkEnv bob 170) [0%N; 0%N; 0%N]
                  [exampleProof; exampleProof; exampleProof] eq_refl)).
Defined.

Lemma multiple_choice_tally_witness :
  reachable exampleThis exampleVerify exampleCreated
  ∧ dispatch exampleThis exampleVerify exampleSubmitBob.1 exampleSubmitBob.2 exampleCreated
    = Ok exampleAnswered
  ∧ 1 < questionCount (survey exampleCreated 0)
  ∧ qType (question (survey exampleCreated 0) 1) = MultipleChoice
  ∧ (Z.of_nat (optionCount (question (survey exampleCreated 0) 1)) ≤ 2 ^ 32)%Z
  ∧ ∃ m, plainAnswer exampleVerify [1%N; 5%N; 4%N]
           [exampleProof; exampleProof; exampleProof] 1 = Some m
      ∧ ∀ o, o < optionCount (question (survey exampleCreated 0) 1) →
          shadow (aggregated (survey exampleAnswered 0) 1 o)
          = if Z.testbit m (Z.of_nat o)
            then uint32 (shadow (aggregated (survey exampleCreated 0) 1 o) + 1)
            else shadow (aggregated (survey exampleCreated 0) 1 o).
Proof.
  assert (Hd : dispatch exampleThis exampleVerify exampleSubmitBob.1 exampleSubmitBob.2
                 exampleCreated = Ok exampleAnswered) by (vm_compute; reflexivity).
  assert (Hq : 1 < questionCount (survey exampleCreated 0)) by (vm_compute; lia).
  assert (Hty : qType (question (survey exampleCreated 0) 1) = MultipleChoice)
    by (vm_compute; reflexivity).
  assert (HN : (Z.of_nat (optionCount (question (survey exampleCreated 0) 1)) ≤ 2 ^ 32)%Z)
    by (vm_compute; discriminate).
  split; [apply exampleCreated_reachable|]. do 4 (split; [assumption|]).
  destruct (multiple_choice_tally exampleThis exampleVerify exampleCreated
    (MkEnv bob 150) 0%N [1%N; 5%N; 4%N] [exampleProof; exampleProof; exampleProof]
    exampleAnswered 1 exampleCreated_reachable Hd Hq Hty HN) as (m & Hm & Hbits & _).
  exists m. split; [exact Hm|exact Hbits].
Defined.


Lemma read_accessors_not_found_witness :
  reachable exampleThis exampleVerify exampleCreated
  ∧ s_exists (survey exampleCreated 5) = false
  ∧ view (getSurveyTags 5) exampleCreated = Revert "Survey does not exist"
  ∧ s_exists (survey exampleCreated 0) = true
  ∧ questionCount (survey exampleCreated 0) ≤ 3
  ∧ view (getQuestionInfo 0 3) exampleCreated = Revert "Invalid question index".
Proof.
  split; [apply exampleCreated_reachable|].
  assert (H5 : s_exists (survey exampleCreated 5) = false) by (vm_compute; reflexivity).
  assert (H0 : s_exists (survey exampleCreated 0) = true) by (vm_compute; reflexivity).
  assert (Hq : questionCount (survey exampleCreated 0) ≤ 3) by (vm_compute; lia).
  split; [exact H5|]. split.
  - exact (proj1 (proj2 (proj1 (read_accessors_not_found exampleThis exampleVerify
      exampleCreated 5 0 exampleCreated_reachable) H5))).
  - split; [exact H0|]. split; [exact Hq|].
    exact (proj2 (read_accessors_not_found exampleThis exampleVerify
      exampleCreated 0 3 exampleCreated_reachable) H0 Hq).
Defined.

Lemma authorize_all_grants_witness :
  dispatch exampleThis exampleVerify (MkEnv alice 180) (AuthorizeAllResultsDecryption 0)
    exampleAnswered = Ok exampleAuthorized
  ∧ acl (fhe exampleAuthorized)
    = grantsTo alice (resultHandles (survey exampleAnswered 0))
      ++ acl (fhe exampleAnswered).
Proof.
  assert (Hd : dispatch exampleThis exampleVerify (MkEnv alice 180)
    (AuthorizeAllResultsDecryption 0) exampleAnswered = Ok exampleAuthorized)
    by (vm_compute; reflexivity).
  split; [exact Hd|].
  exact (proj1 (proj2 (proj2 (proj2 (authorize_all_grants exampleThis exampleVerify
    exampleAnswered (MkEnv alice 180) 0%N exampleAuthorized Hd))))).
Defined.

Lemma revoke_after_grant_witness :
  s_exists (survey exampleCreated 0) = true
  ∧ alice = creator (survey exampleCreated 0)
  ∧ bob ≠ creator (survey exampleCreated 0)
  ∧ ∃ s1 s2,
      exec (grantPermission (MkEnv alice 110) 0 bob true false false) exampleCreated = Ok s1
      ∧ exec (revokePermission (MkEnv alice 120) 0 bob) s1 = Ok s2
      ∧ view (getPermission 0 bob) s2 = Ok (false, false, false)
      ∧ p_exists (permission s2 0 bob) = true
      ∧ exec (authorizeMyDecryption (MkEnv bob 130) 0) s2
        = Revert "Not authorized to view".
Proof.
  assert (Hex : s_exists (survey exampleCreated 0) = true) by (vm_compute; reflexivity).
  assert (Hc : alice = creator (survey exampleCreated 0)) by (vm_compute; reflexivity).
  assert (Hne : bob ≠ creator (survey exampleCreated 0)) by (vm_compute; discriminate).
  split; [exact Hex|]. split; [exact Hc|]. split; [exact Hne|].
  exact (revoke_after_grant exampleCreated 0%N bob (MkEnv alice 110) (MkEnv alice 120)
           (MkEnv bob 130) Hex Hc Hc Hne eq_refl).
Defined.

Lemma survey_metadata_immutable_witness :
  reachable exampleThis exampleVerify exampleCreated
  ∧ s_exists (survey exampleCreated 0) = true
  ∧ meta (survey (run exampleThis exampleVerify exampleCreated
                    [exampleSubmitBob; (MkEnv alice 155, SetSurveyStatus 0 false);
                     exampleSubmitCarol]) 0)
    = meta (survey exampleCreated 0).
Proof.
  assert (Hex : s_exists (survey exampleCreated 0) = true) by (vm_compute; reflexivity).
  split; [apply exampleCreated_reachable|]. split; [exact Hex|].
  exact (proj1 (survey_metadata_immutable exampleThis exampleVerify exampleCreated 0%N
    exampleCreated_reachable Hex) _).
Defined.

Lemma answers_private_witness :
  reachable exampleThis exampleVerify exampleCreated
  ∧ dispatch exampleThis exampleVerify exampleSubmitBob.1 exampleSubmitBob.2
      exampleCreated = Ok exampleAnswered
  ∧ answer (response exampleAnswered 0 bob) 0 = Euint32 2 1
  ∧ bob ≠ exampleThis
  ∧ ¬ isAllowed (fhe (run exampleThis exampleVerify exampleAnswered
        [(MkEnv alice 180, AuthorizeAllResultsDecryption 0);
         (MkEnv alice 181, GrantPermission 0 bob true true true);
         (MkEnv bob 182, AuthorizeAllResultsDecryption 0);
         (MkEnv bob 183, AuthorizeMyDecryption 0)])) 2 bob.
Proof.
  assert (Hd : dispatch exampleThis exampleVerify exampleSubmitBob.1 exampleSubmitBob.2
                 exampleCreated = Ok exampleAnswered) by (vm_compute; reflexivity).
  assert (Hq : 0 < questionCount (survey exampleCreated 0)) by (vm_compute; lia).
  assert (Hne : bob ≠ exampleThis) by (vm_compute; discriminate).
  split; [apply exampleCreated_reachable|]. split; [exact Hd|].
  split; [vm_compute; reflexivity|]. split; [exact Hne|].
  exact (proj1 (proj2 (proj2 (proj2 (answers_private exampleThis exampleVerify
    exampleCreated (MkEnv bob 150) 0%N [1%N; 5%N; 4%N]
    [exampleProof; exampleProof; exampleProof] exampleAnswered 0
    [(MkEnv alice 180, AuthorizeAllResultsDecryption 0);
     (MkEnv alice 181, GrantPermission 0 bob true true true);
     (MkEnv bob 182, AuthorizeAllResultsDecryption 0);
     (MkEnv bob 183, AuthorizeMyDecryption 0)]
    exampleCreated_reachable Hd Hq)))) Hne).
Defined.

(** C4 as stated fails: a response answering a [MultipleChoice] question
    also changes the buckets of the other questions it answers. In the
    scenario Bob's response answers question 1 (multiple choice) with the
    bitmask 5 and question 0 (single choice) with option 1; bucket 1 of
    question 0 goes from 0 to 1. *)
Lemma multiple_choice_changes_other_questions :
  dispatch exampleThis exampleVerify exampleSubmitBob.1 exampleSubmitBob.2 exampleCreated
  = Ok exampleAnswered
  ∧ qType (question (survey exampleCreated 0) 1) = MultipleChoice
  ∧ plainAnswer exampleVerify [1%N; 5%N; 4%N]
      [exampleProof; exampleProof; exampleProof] 1 = Some 5%Z
  ∧ shadow (aggregated (survey exampleCreated 0) 0 1) = 0%Z
  ∧ shadow (aggregated (survey exampleAnswered 0) 0 1) = 1%Z.
Proof.
  split; [vm_compute; reflexivity|]. split; [vm_compute; reflexivity|].
  split; [vm_compute; reflexivity|]. split; vm_compute; reflexivity.
Qed.

(** C6 as stated fails for [getSurveyInfo]: called with an id under which
    no survey exists it does not revert but returns the zero-valued
    record. *)
Lemma getSurveyInfo_nonexistent_succeeds :
  s_exists (survey exampleCreated 5) = false
  ∧ view (getSurveyInfo 5) exampleCreated
    = Ok (0%N, ""%string, ""%string, 0%N, 0%N, 0%N, 0, false, false).
Proof. split; vm_compute; reflexivity. Qed.

(** * Further properties *)

(** * Acceptance *)

(** A loop whose iterations all succeed succeeds. *)
Lemma forEach_total {A} (l : list A) (body : A → M unit) :
  (∀ x s1, x ∈ l → ∃ s2, body x s1 = Ok (tt, s2)) →
  ∀ s, ∃ s', forEach l body s = Ok (tt, s').
Proof.
  induction l as [|x l IH]; intros Hb s.
  - by exists s.
  - destruct (Hb x s) as [s1 H1]; [by left|].
    destruct (IH (fun y s2 Hy => Hb y s2 (list_elem_of_further _ _ _ Hy)) s1) as [s' H'].
    exists s'. cbn. unfold bind. by rewrite H1.
Qed.

Lemma forallb_lookup {A} (f : A → bool) (l : list A) i x :
  forallb f l = true → l !! i = Some x → f x = true.
Proof.
  intros H Hx. rewrite forallb_forall in H. apply H.
  apply list_elem_of_In. by eapply list_elem_of_lookup_2.
Qed.

Lemma forallb_lookups {A} (f : A → bool) (l : list A) :
  (∀ i x, l !! i = Some x → f x = true) → forallb f l = true.
Proof.
  intros H. apply forallb_forall. intros x Hx%list_elem_of_In.
  apply list_elem_of_lookup_1 in Hx as [i Hi]. eauto.
Qed.

Section CreateAcceptance.
Variable this : address.

Lemma createSurvey_total env ttl cat tgs st en texts types opts s :
  validSurvey ttl st en texts types opts = true →
  (surveyCounter s < UINT256_MAX)%N →
  ∃ s', createSurvey this env ttl cat tgs st en texts types opts s
        = Ok (surveyCounter s, s').
Proof.
  unfold validSurvey. rewrite !andb_true_iff.
  intros [[[[[[[Httl Htime] Hpos] Hmax] Hty] Hop] Htx] Hos] Hcnt.
  apply N.ltb_lt in Hcnt.
  unfold createSurvey.
  unfold bind at 1. rewrite Httl. cbn [require ret].
  unfold bind at 1. rewrite Htime. cbn [require ret].
  unfold bind at 1. rewrite Hpos, Hmax. cbn [require ret andb].
  unfold bind at 1. rewrite Hty. cbn [require ret].
  unfold bind at 1. rewrite Hop. cbn [require ret].
  unfold bind at 1. unfold get at 1.
  unfold bind at 1. rewrite Hcnt. cbn [require ret].
  unfold bind at 1. unfold modify at 1.
  unfold bind at 1. unfold modifySurvey at 1, modify at 1.
  set (s1 := set_surveys _ _).
  unfold bind at 1.
  apply Nat.eqb_eq in Hty, Hop.
  destruct (forEach_total (seq 0 (length texts)) (fun i =>
      do txt <- index texts i;
      require (0 <? String.length txt) "Question text cannot be empty" ;;
      do os <- index opts i;
      require (0 <? length os) "Question must have at least one option" ;;
      do ty <- index types i;
      modifySurvey (surveyCounter s) (fun sv =>
        set_questions (<[i := MkQuestion txt ty (length os) os]> (questions sv)) sv))) with s1
    as [s2 H2].
  { intros i sa Hi%elem_of_seq.
    destruct (lookup_lt_is_Some_2 texts i) as [txt Htxt]; [lia|].
    destruct (lookup_lt_is_Some_2 opts i) as [os Hos']; [lia|].
    destruct (lookup_lt_is_Some_2 types i) as [ty Hty']; [lia|].
    pose proof (forallb_lookup _ _ _ _ Htx Htxt) as Ht.
    pose proof (forallb_lookup _ _ _ _ Hos Hos') as Ho.
    cbv beta in Ht, Ho.
    unfold bind, index. rewrite Htxt. cbv beta iota. unfold ret at 1.
    rewrite Ht. cbv beta iota delta [require]. unfold ret at 1.
    rewrite Hos'. unfold ret at 1. rewrite Ho. unfold ret at 1.
    rewrite Hty'. unfold ret at 1. unfold modifySurvey, modify. eauto. }
  rewrite H2. unfold_tx. cbn. eauto.
Qed.

End CreateAcceptance.

Lemma String_length_pos_2 (x : string) : x ≠ ""%string → (0 <? String.length x) = true.
Proof. by destruct x. Qed.

Lemma length_pos_2 {A} (l : list A) : l ≠ [] → (0 <? length l) = true.
Proof. by destruct l. Qed.

Section CreateAcceptanceTheorem.
Variable this : address.

Lemma createSurvey_Ok_counter env ttl cat tgs st en texts types opts s id s' :
  createSurvey this env ttl cat tgs st en texts types opts s = Ok (id, s') →
  (surveyCounter s < UINT256_MAX)%N.
Proof.
  unfold createSurvey. intros H.
  apply bind_Ok in H as ([] & s1 & [_ ->]%require_Ok & H).
  apply bind_Ok in H as ([] & s1 & [_ ->]%require_Ok & H).
  apply bind_Ok in H as ([] & s1 & [_ ->]%require_Ok & H).
  apply bind_Ok in H as ([] & s1 & [_ ->]%require_Ok & H).
  apply bind_Ok in H as ([] & s1 & [_ ->]%require_Ok & H).
  apply bind_Ok in H as (s0 & s1 & [= <- <-] & H).
  apply bind_Ok in H as ([] & s1 & [Hmax ->]%require_Ok & H).
  by apply N.ltb_lt.
Qed.

(** X2. [createSurvey] succeeds exactly on valid arguments, as long as the
    survey counter has not reached the largest [uint256]; the state it is
    called in plays no other part. The id it returns is the value of the
    counter. *)
Theorem createSurvey_accepts env ttl cat tgs st en texts types opts s :
  (∃ id s', createSurvey this env ttl cat tgs st en texts types opts s = Ok (id, s'))
  ↔ validSurvey ttl st en texts types opts = true
    ∧ (surveyCounter s < UINT256_MAX)%N.
Proof.
  split.
  - intros (id & s' & H). split; [|by eapply createSurvey_Ok_counter].
    apply createSurvey_Ok in H.
    destruct (ce_valid _ _ _ _ _ _ _ _ _ _ _ _ _ H) as (Httl & Htime & [Hpos Hmax] & Hty & Hop).
    destruct (ce_meta _ _ _ _ _ _ _ _ _ _ _ _ _ H) as (qs & _ & Hqs & _).
    unfold validSurvey. rewrite !andb_true_iff. repeat split.
    + by apply String_length_pos_2.
    + by apply N.ltb_lt.
    + by apply Nat.ltb_lt.
    + by apply Nat.leb_le.
    + by apply Nat.eqb_eq.
    + by apply Nat.eqb_eq.
    + apply forallb_lookups. intros i txt Hi.
      destruct (Hqs i) as (txt' & ty & os & Ht & _ & _ & Hne & _).
      { by eapply lookup_lt_Some. }
      apply String_length_pos_2. congruence.
    + apply forallb_lookups. intros i os Hi.
      destruct (Hqs i) as (txt' & ty & os' & _ & _ & Ho & _ & Hne & _).
      { rewrite <- Hop. by eapply lookup_lt_Some. }
      apply length_pos_2. congruence.
  - intros [Hv Hc]. exists (surveyCounter s).
    by apply createSurvey_total.
Qed.

End CreateAcceptanceTheorem.

Section SubmitAcceptance.
Variable this : address.
Variable verifyCiphertext : externalEuint32 → bytes → option Z.

(** X1. The guards of [submitResponse]. A call that goes through met every
    condition: the survey exists, is active and within its time window, the
    call carries one answer and one proof per question, the caller has not
    responded yet, and every proof verifies. A call that fails a guard
    reverts with the message of the first guard it fails, in the order of
    the source; and a call with an answer to a question of the survey whose
    proof does not verify reverts as a whole. *)
Theorem submitResponse_guards env id ans prf s :
  let sv := survey s id in
  let result := dispatch this verifyCiphertext env (SubmitResponse id ans prf) s in
  (∀ s', result = Ok s' → acceptable verifyCiphertext env id ans prf s)
  ∧ (s_exists sv = false → result = Revert "Survey does not exist")
  ∧ (s_exists sv = true → isActive sv = false →
     result = Revert "Survey is not active")
  ∧ (s_exists sv = true → isActive sv = true →
     (timestamp env < startTime sv ∨ endTime sv < timestamp env)%N →
     result = Revert "Survey period invalid")
  ∧ (s_exists sv = true → isActive sv = true →
     (startTime sv ≤ timestamp env ≤ endTime sv)%N →
     (length ans ≠ questionCount sv → result = Revert "Answers length mismatch")
     ∧ (length ans = questionCount sv → length prf ≠ questionCount sv →
        result = Revert "Proofs length mismatch")
     ∧ (length ans = questionCount sv → length prf = questionCount sv →
        r_exists (response s id (sender env)) = true →
        result = Revert "Response already submitted"))
  ∧ (∀ q, q < questionCount sv → plainAnswer verifyCiphertext ans prf q = None →
     ∃ msg, result = Revert msg).
Proof.
  intros sv result.
  assert (Hacc : ∀ s', result = Ok s' → acceptable verifyCiphertext env id ans prf s).
  { intros s' H%dispatch_Ok. cbn in H. unfold acceptable.
    split; [exact (se_exists _ _ _ _ _ _ _ H)|].
    split; [exact (se_open _ _ _ _ _ _ _ H)|].
    split; [exact (se_window _ _ _ _ _ _ _ H)|].
    destruct (se_lengths _ _ _ _ _ _ _ H) as [Hla Hlp].
    split; [done|]. split; [done|].
    split; [exact (se_first _ _ _ _ _ _ _ H)|].
    exact (se_defined _ _ _ _ _ _ _ H). }
  assert (Hres : result = exec (submitResponse this verifyCiphertext env id ans prf) s)
    by reflexivity.
  split; [exact Hacc|]. subst sv.
  split.
  { intros Hex. rewrite Hres. unfold exec, submitResponse, bind, get, require.
    by rewrite Hex. }
  split.
  { intros Hex Hact. rewrite Hres. unfold exec, submitResponse, bind, get, require.
    by rewrite Hex, Hact. }
  split.
  { intros Hex Hact Hw. rewrite Hres.
    unfold exec, submitResponse, bind, get, require.
    rewrite Hex, Hact.
    replace ((startTime (survey s id) <=? timestamp env)%N
             && (timestamp env <=? endTime (survey s id))%N) with false; [done|].
    symmetry. apply andb_false_iff.
    destruct Hw as [Hw|Hw]; [left|right]; by apply N.leb_gt. }
  split.
  { intros Hex Hact [Hw1 Hw2].
    apply N.leb_le in Hw1, Hw2.
    split; [|split].
    - intros Hla%Nat.eqb_neq. rewrite Hres.
      unfold exec, submitResponse, bind, get, require.
      by rewrite Hex, Hact, Hw1, Hw2, Hla.
    - intros Hla Hlp%Nat.eqb_neq. rewrite Hres.
      unfold exec, submitResponse, bind, get, require.
      by rewrite Hex, Hact, Hw1, Hw2, Hla, Nat.eqb_refl, Hlp.
    - intros Hla Hlp Hre. rewrite Hres.
      unfold exec, submitResponse, bind, get, require.
      by rewrite Hex, Hact, Hw1, Hw2, Hla, Hlp, Nat.eqb_refl, Hre. }
  intros q Hq Hnone.
  destruct result as [s'|msg] eqn:Hd; [|by exists msg].
  destruct (Hacc s' eq_refl) as (_ & _ & _ & _ & _ & _ & Hans).
  destruct (Hans q Hq) as [a Ha]. congruence.
Qed.

End SubmitAcceptance.

(** * What a created survey looks like *)

Lemma getPermission_eq s id u :
  view (getPermission id u) s
  = Ok (canView (permission s id u), canExport (permission s id u),
        canManage (permission s id u)).
Proof. reflexivity. Qed.

Lemma hasResponded_eq s id u :
  view (hasResponded id u) s = Ok (r_exists (response s id u)).
Proof. reflexivity. Qed.

Section Created.
Variable this : address.
Variable verifyCiphertext : externalEuint32 → bytes → option Z.
Notation reachable' := (reachable this verifyCiphertext).

(** X3. What [createSurvey] stores is what the read accessors return: the
    header with the caller as creator, the block timestamp as creation time
    and both flags set, the tags, and for every question its text, type and
    option list with the length of the list as option count. The creator
    holds all three capabilities. *)
Theorem createSurvey_getters env ttl cat tgs st en texts types opts s id s' :
  createSurvey this env ttl cat tgs st en texts types opts s = Ok (id, s') →
  view (getSurveyInfo id) s'
  = Ok (sender env, ttl, cat, timestamp env, st, en, length texts, true, true)
  ∧ view (getSurveyTags id) s' = Ok tgs
  ∧ (∀ i txt ty os,
       texts !! i = Some txt → types !! i = Some ty → opts !! i = Some os →
       view (getQuestionInfo id i) s' = Ok (txt, ty, length os, os))
  ∧ (∀ i, length texts ≤ i →
       view (getQuestionInfo id i) s' = Revert "Invalid question index")
  ∧ view (getPermission id (sender env)) s' = Ok (true, true, true).
Proof.
  intros H%createSurvey_Ok.
  destruct (ce_meta _ _ _ _ _ _ _ _ _ _ _ _ _ H) as (qs & Hm & Hqs & _).
  pose proof (ce_active _ _ _ _ _ _ _ _ _ _ _ _ _ H) as Hact.
  pose proof (ce_permissions _ _ _ _ _ _ _ _ _ _ _ _ _ H) as Hp.
  unfold meta in Hm.
  injection Hm as Hcr Httl Hcat Htgs Hat Hst Hen Hex Hqc Hquestions.
  split; [|split; [|split; [|split]]].
  - rewrite getSurveyInfo_eq. by rewrite Hcr, Httl, Hcat, Hat, Hst, Hen, Hqc, Hex, Hact.
  - by rewrite getSurveyTags_eq, Hex, Htgs.
  - intros i txt ty os Ht Hty Ho.
    assert (Hi : i < length texts) by (by eapply lookup_lt_Some).
    rewrite getQuestionInfo_eq, Hex, Hqc.
    apply Nat.ltb_lt in Hi as Hi'. rewrite Hi'.
    destruct (Hqs i Hi) as (txt' & ty' & os' & Ht' & Hty' & Ho' & _ & _ & Hq).
    unfold question. rewrite Hquestions, Hq. cbn. congruence.
  - intros i Hi. rewrite getQuestionInfo_eq, Hex, Hqc.
    by destruct (Nat.ltb_spec i (length texts)); [lia|].
  - rewrite getPermission_eq. unfold permission. rewrite Hp, lookup_insert_eq. done.
Qed.

End Created.

(** * Invariants of the stored data *)

Section StoredData.
Variable this : address.
Variable verifyCiphertext : externalEuint32 → bytes → option Z.
Notation dispatch' := (dispatch this verifyCiphertext).
Notation run' := (run this verifyCiphertext).
Notation reachable' := (reachable this verifyCiphertext).

(** A survey that exists after a call either existed before, with the
    same metadata, or has just been created by the call. *)
Lemma call_survey_origin env c s s' id :
  call_effect this verifyCiphertext env c s s' → slots_ok s →
  s_exists (survey s' id) = true →
  (s_exists (survey s id) = true ∧ meta (survey s' id) = meta (survey s id))
  ∨ (∃ t cat tg st en qt qty qo,
       c = CreateSurvey t cat tg st en qt qty qo
       ∧ create_effect this env t cat tg st en qt qty qo s id s').
Proof.
  intros Hc Hs Hex.
  assert (Hold : s_exists (survey s id) = true →
    s_exists (survey s id) = true ∧ meta (survey s' id) = meta (survey s id)).
  { intros Hex0. split; [done|]. eapply call_meta; eauto using slots_ok_lt. }
  destruct c; cbn in Hc.
  - destruct Hc as [id0 Hc]. destruct (decide (id = id0)) as [->|Hne].
    + right. eauto 10.
    + left. apply Hold.
      by rewrite <- (survey_lookup s s' id (ce_others _ _ _ _ _ _ _ _ _ _ _ _ _ Hc id Hne)).
  - left. apply Hold. destruct (decide (id = surveyId)) as [->|Hne].
    + exact (se_exists _ _ _ _ _ _ _ Hc).
    + by rewrite <- (survey_lookup s s' id (se_others _ _ _ _ _ _ _ Hc id Hne)).
  - left. apply Hold. by destruct Hc as (_ & _ & ->).
  - left. apply Hold. by destruct Hc as (_ & _ & ->).
  - left. apply Hold. destruct Hc as (Hex0 & _ & ->).
    destruct (decide (id = surveyId)) as [->|Hne]; [done|].
    by rewrite <- (survey_lookup s (switched surveyId isActive0 s) id
                     (switched_surveys_other _ _ _ _ Hne)).
  - left. apply Hold. by destruct Hc as (_ & _ & ->).
  - left. apply Hold. by destruct Hc as (_ & _ & ->).
Qed.

Lemma call_counter_same env c s s' :
  call_effect this verifyCiphertext env c s s' →
  (∀ t cat tg st en qt qty qo, c ≠ CreateSurvey t cat tg st en qt qty qo) →
  surveyCounter s' = surveyCounter s.
Proof.
  destruct c; cbn.
  - intros _ Hne. by destruct (Hne title0 category0 tags0 startTime0 endTime0
      questionTexts questionTypes questionOptions).
  - intros Hc _. exact (se_counter _ _ _ _ _ _ _ Hc).
  - by intros (_ & _ & ->).
  - by intros (_ & _ & ->).
  - by intros (_ & _ & ->).
  - by intros (_ & _ & ->).
  - by intros (_ & _ & ->).
Qed.

Lemma reachable_below_counter s id :
  reachable' s → (id < surveyCounter s)%N → s_exists (survey s id) = true.
Proof.
  intros Hr. revert id. induction Hr as [|s env c s' Hr IH Hd]; intros id Hlt.
  - cbn in Hlt. lia.
  - apply dispatch_Ok in Hd.
    destruct (decide (id < surveyCounter s)%N) as [Hold|Hnew].
    + rewrite (meta_exists _ _ (call_meta this verifyCiphertext _ _ _ _ id Hd Hold)). auto.
    + destruct c; try (rewrite (call_counter_same _ _ _ _ Hd) in Hlt by done; lia).
      cbn in Hd. destruct Hd as [id0 Hc].
      pose proof (ce_id _ _ _ _ _ _ _ _ _ _ _ _ _ Hc) as Hid.
      pose proof (ce_counter _ _ _ _ _ _ _ _ _ _ _ _ _ Hc) as Hcnt.
      assert (id = id0) as -> by lia.
      destruct (ce_meta _ _ _ _ _ _ _ _ _ _ _ _ _ Hc) as (qs & Hm & _).
      unfold meta in Hm. by injection Hm as _ _ _ _ _ _ _ -> _ _.
Qed.

(** X5. Survey ids are consecutive. In every reachable state the surveys that
    exist are exactly those with an id below [surveyCounter], and
    [createSurvey] returns the value of the counter and adds one to it: the
    [n]-th survey created has id [n - 1], and ids are never reused. *)
Theorem survey_ids_consecutive s :
  reachable' s →
  dense s
  ∧ ∀ env ttl cat tgs st en texts types opts id s',
      createSurvey this env ttl cat tgs st en texts types opts s = Ok (id, s') →
      id = surveyCounter s ∧ surveyCounter s' = (id + 1)%N
      ∧ s_exists (survey s id) = false ∧ s_exists (survey s' id) = true.
Proof.
  intros Hr.
  assert (Hd : dense s).
  { intros id. split.
    - apply slots_ok_lt. by eapply reachable_slots_ok.
    - by apply reachable_below_counter. }
  split; [exact Hd|].
  intros env ttl cat tgs st en texts types opts id s' Hc.
  assert (Hr' : reachable' s').
  { eapply (reachable_step _ _ s env (CreateSurvey ttl cat tgs st en texts types opts));
      [done|]. cbn. apply exec_Ok. eauto. }
  apply createSurvey_Ok in Hc.
  pose proof (ce_id _ _ _ _ _ _ _ _ _ _ _ _ _ Hc) as Hid.
  pose proof (ce_counter _ _ _ _ _ _ _ _ _ _ _ _ _ Hc) as Hcnt.
  split; [done|]. split; [done|]. split.
  - destruct (s_exists (survey s id)) eqn:E; [|done].
    apply Hd in E. lia.
  - apply reachable_below_counter; [done|lia].
Qed.

Lemma wellFormed_meta sv sv' : meta sv' = meta sv → wellFormed sv → wellFormed sv'.
Proof.
  unfold meta, wellFormed.
  intros [= _ Ht _ _ _ Hst Hen _ Hqc Hqs]. by rewrite Ht, Hst, Hen, Hqc, Hqs.
Qed.

Lemma reachable_wellFormed s id :
  reachable' s → s_exists (survey s id) = true → wellFormed (survey s id).
Proof.
  intros Hr. revert id. induction Hr as [|s env c s' Hr IH Hd]; intros id Hex.
  - discriminate.
  - apply dispatch_Ok in Hd.
    destruct (call_survey_origin _ _ _ _ id Hd (reachable_slots_ok _ _ _ Hr) Hex)
      as [[Hex0 Hm]|(t & cat & tg & st & en & qt & qty & qo & -> & Hc)].
    + eapply wellFormed_meta; eauto.
    + destruct (ce_meta _ _ _ _ _ _ _ _ _ _ _ _ _ Hc) as (qs & Hm & Hqs & _).
      destruct (ce_valid _ _ _ _ _ _ _ _ _ _ _ _ _ Hc) as (Httl & Htime & Hcnt & _).
      unfold meta in Hm.
      injection Hm as _ Ht _ _ _ Hst Hen _ Hqc Hquestions.
      unfold wellFormed. rewrite Ht, Hst, Hen, Hqc, Hquestions.
      split; [done|]. split; [done|]. split; [done|].
      intros q Hq. destruct (Hqs q Hq) as (txt & ty & os & _ & _ & _ & Hne & Hno & Hs).
      eexists. split; [exact Hs|]. done.
Qed.

(** X6. Every survey that exists is well formed: what [createSurvey] checked
    when the survey was created holds of the stored survey ever after, so
    every question a reader gets from [getQuestionInfo] has a text and at
    least one option, and [getQuestionOptionCounts] never returns an empty
    list. *)
Theorem stored_surveys_well_formed s id :
  reachable' s → s_exists (survey s id) = true →
  wellFormed (survey s id)
  ∧ ∀ q, q < questionCount (survey s id) →
      ∃ txt ty os,
        view (getQuestionInfo id q) s = Ok (txt, ty, length os, os)
        ∧ txt ≠ ""%string ∧ os ≠ []
        ∧ ∃ counts, view (getQuestionOptionCounts id q) s = Ok counts
            ∧ length counts = (if decide (ty = Rating) then 5 else length os)
            ∧ 0 < length counts.
Proof.
  intros Hr Hex.
  pose proof (reachable_wellFormed s id Hr Hex) as Hw.
  split; [exact Hw|].
  destruct Hw as (_ & _ & _ & Hqs).
  intros q Hq. destruct (Hqs q Hq) as ([txt ty n os] & Hs & Hne & Hno & Hn).
  cbn in Hne, Hno, Hn. subst n.
  exists txt, ty, os.
  rewrite getQuestionInfo_eq, getQuestionOptionCounts_eq, Hex.
  apply Nat.ltb_lt in Hq as ->.
  unfold question. rewrite Hs. cbn.
  split; [done|]. split; [done|]. split; [done|].
  eexists. split; [done|].
  unfold countHandles, bucketCount, question. rewrite Hs. cbn.
  rewrite length_map, length_seq.
  split; [done|]. destruct (decide (ty = Rating)); [lia|].
  destruct os; [done|cbn; lia].
Qed.

End StoredData.

(** * Permissions and who may change what *)

Lemma permission_lookup s s' id u :
  permissions s' !! (id, u) = permissions s !! (id, u) →
  permission s' id u = permission s id u.
Proof. unfold permission. by intros ->. Qed.

Section PermissionTable.
Variable this : address.
Variable verifyCiphertext : externalEuint32 → bytes → option Z.
Notation dispatch' := (dispatch this verifyCiphertext).
Notation run' := (run this verifyCiphertext).
Notation reachable' := (reachable this verifyCiphertext).

Lemma call_permissions_ok env c s s' :
  call_effect this verifyCiphertext env c s s' →
  slots_ok s → permissions_ok s → permissions_ok s'.
Proof.
  intros Hc Hs Hp id u p Hl.
  assert (Hkeep : ∀ id0, s_exists (survey s id0) = true → s_exists (survey s' id0) = true).
  { intros id0 Hex.
    rewrite (meta_exists _ _ (call_meta this verifyCiphertext _ _ _ _ id0 Hc
      (slots_ok_lt _ _ Hs Hex))). done. }
  assert (Hold : permissions s !! (id, u) = Some p →
    s_exists (survey s' id) = true
    ∧ (canView p || canExport p || canManage p = true → p_exists p = true)).
  { intros Hl0. destruct (Hp id u p Hl0) as [Hex Hf]. auto. }
  destruct c; cbn in Hc.
  - destruct Hc as [id0 Hc].
    rewrite (ce_permissions _ _ _ _ _ _ _ _ _ _ _ _ _ Hc) in Hl.
    destruct (decide ((id0, sender env) = (id, u))) as [[= <- <-]|Hne].
    + rewrite lookup_insert_eq in Hl. injection Hl as <-.
      destruct (ce_meta _ _ _ _ _ _ _ _ _ _ _ _ _ Hc) as (qs & Hm & _).
      unfold meta in Hm. injection Hm as _ _ _ _ _ _ _ Hex _ _. done.
    + rewrite lookup_insert_ne in Hl by done. auto.
  - rewrite (se_permissions _ _ _ _ _ _ _ Hc) in Hl. auto.
  - destruct Hc as (Hex & _ & ->). cbn in Hl.
    destruct (decide ((surveyId, viewer) = (id, u))) as [[= <- <-]|Hne].
    + rewrite lookup_insert_eq in Hl. injection Hl as <-. done.
    + rewrite lookup_insert_ne in Hl by done. auto.
  - destruct Hc as (Hex & _ & ->). cbn in Hl.
    destruct (decide ((surveyId, viewer) = (id, u))) as [[= <- <-]|Hne].
    + rewrite lookup_insert_eq in Hl. injection Hl as <-. done.
    + rewrite lookup_insert_ne in Hl by done. auto.
  - destruct Hc as (Hex & _ & Hs'). apply Hold. by rewrite Hs' in Hl.
  - destruct Hc as (Hex & _ & Hs'). apply Hold. by rewrite Hs' in Hl.
  - destruct Hc as (Hex & _ & Hs'). apply Hold. by rewrite Hs' in Hl.
Qed.

Lemma reachable_permissions_ok s : reachable' s → permissions_ok s.
Proof.
  induction 1 as [|s env c s' Hr IH Hd].
  - intros id u p. cbn. by rewrite lookup_empty.
  - apply dispatch_Ok in Hd.
    eauto using call_permissions_ok, reachable_slots_ok.
Qed.

Lemma permissions_ok_flags s id u :
  permissions_ok s →
  canView (permission s id u) || canExport (permission s id u)
    || canManage (permission s id u) = true →
  s_exists (survey s id) = true ∧ p_exists (permission s id u) = true.
Proof.
  intros Hp. unfold permission.
  destruct (permissions s !! (id, u)) as [p|] eqn:E; cbn; [|done].
  intros Hf. destruct (Hp id u p E) as [Hex Hpe]. auto.
Qed.

(** X16. What [getPermission] reports is what the guards act on. The guards of
    [authorizeMyDecryption] and [setSurveyStatus] test the existence flag of
    the permission record together with a capability, while [getPermission]
    returns the capabilities alone. In every reachable state a record with a
    capability set has its existence flag set and belongs to an existing
    survey; so [authorizeMyDecryption] goes through exactly for the creator
    of an existing survey and for a caller for whom [getPermission] reports
    [canView], and [setSurveyStatus] exactly for the creator and for a caller
    for whom it reports [canManage]. *)
Theorem reported_capability_is_effective s env id cv ce cm :
  reachable' s →
  view (getPermission id (sender env)) s = Ok (cv, ce, cm) →
  ((∃ s', dispatch' env (AuthorizeMyDecryption id) s = Ok s')
   ↔ s_exists (survey s id) = true
     ∧ (sender env = creator (survey s id) ∨ cv = true))
  ∧ (∀ b, (∃ s', dispatch' env (SetSurveyStatus id b) s = Ok s')
     ↔ s_exists (survey s id) = true
       ∧ (sender env = creator (survey s id) ∨ cm = true))
  ∧ (cv = true ∨ ce = true ∨ cm = true →
     s_exists (survey s id) = true
     ∧ p_exists (permission s id (sender env)) = true).
Proof.
  intros Hr. rewrite getPermission_eq. intros [= Hcv Hce Hcm].
  pose proof (reachable_permissions_ok s Hr) as Hp.
  assert (Hflags : cv = true ∨ ce = true ∨ cm = true →
    s_exists (survey s id) = true ∧ p_exists (permission s id (sender env)) = true).
  { intros Hf. apply (permissions_ok_flags s id (sender env) Hp).
    rewrite Hcv, Hce, Hcm. clear Hcv Hce Hcm.
    destruct cv, ce, cm; try done. by destruct Hf as [?|[?|?]]. }
  split; [|split; [|exact Hflags]].
  - split.
    + intros [s' Hd%dispatch_Ok]. cbn in Hd. destruct Hd as (Hex & [Hc|Hv] & _).
      * auto.
      * split; [done|]. right. unfold isViewer in Hv.
        apply andb_true_iff in Hv as [_ Hv]. congruence.
    + intros [Hex Hwho]. eexists. cbn. apply exec_Ok. exists tt.
      apply authorizeMyDecryption_Ok. split; [done|]. split; [|done].
      destruct Hwho as [Hc|Hcap]; [by left|]. right.
      destruct Hflags as [_ Hpe]; [auto|]. unfold isViewer. by rewrite Hpe, Hcv, Hcap.
  - intros b. split.
    + intros [s' Hd%dispatch_Ok]. cbn in Hd. destruct Hd as (Hex & [Hc|Hm] & _).
      * auto.
      * split; [done|]. right. unfold isManager in Hm.
        apply andb_true_iff in Hm as [_ Hm]. congruence.
    + intros [Hex Hwho]. eexists. cbn. apply exec_Ok. exists tt.
      apply setSurveyStatus_Ok. split; [done|]. split; [|done].
      destruct Hwho as [Hc|Hcap]; [by left|]. right.
      destruct Hflags as [_ Hpe]; [auto|]. unfold isManager. by rewrite Hpe, Hcm, Hcap.
Qed.

(** X14. [grantPermission] overwrites the three capabilities of the viewer and
    [getPermission] returns them; no other permission record, no survey and
    no response changes. Whatever the capabilities, also when [canView] is
    [false], the viewer is granted the handle of the current total. *)
Theorem grantPermission_round_trip s env id viewer cv ce cm s' :
  dispatch' env (GrantPermission id viewer cv ce cm) s = Ok s' →
  sender env = creator (survey s id)
  ∧ view (getPermission id viewer) s' = Ok (cv, ce, cm)
  ∧ p_exists (permission s' id viewer) = true
  ∧ (∀ id' u, (id', u) ≠ (id, viewer) → permission s' id' u = permission s id' u)
  ∧ surveys s' = surveys s ∧ responses s' = responses s
  ∧ view (getTotalResponses id) s' = Ok (totalResponses (survey s id))
  ∧ isAllowed (fhe s') (hid (totalResponses (survey s id))) viewer
  ∧ events s' = PermissionGranted id viewer (sender env) :: events s.
Proof.
  intros Hd%dispatch_Ok. cbn in Hd. destruct Hd as (Hex & Hc & ->).
  split; [done|]. split; [|split; [|split; [|split; [|split; [|split; [|split]]]]]];
    try done.
  - rewrite getPermission_eq. unfold permission, granted. cbn.
    by rewrite lookup_insert_eq.
  - unfold permission, granted. cbn. by rewrite lookup_insert_eq.
  - intros id' u Hne. apply permission_lookup. cbn. by rewrite lookup_insert_ne.
  - rewrite getTotalResponses_eq.
    change (survey (granted id viewer cv ce cm env s) id) with (survey s id).
    by rewrite Hex.
  - unfold isAllowed. cbn. apply elem_of_cons. by left.
Qed.

(** X15. Only the creator changes the permissions of a survey. When a call
    changes the permission record of an address for an existing survey, the
    call is a [grantPermission] or a [revokePermission] for that address and
    survey, made by the survey's creator. *)
Theorem permissions_change_only_by_creator s env c s' id u :
  reachable' s → s_exists (survey s id) = true →
  dispatch' env c s = Ok s' →
  permission s' id u ≠ permission s id u →
  sender env = creator (survey s id)
  ∧ ((∃ cv ce cm, c = GrantPermission id u cv ce cm) ∨ c = RevokePermission id u).
Proof.
  intros Hr Hex Hd%dispatch_Ok Hne.
  assert (Hlt : (id < surveyCounter s)%N)
    by eauto using slots_ok_lt, reachable_slots_ok.
  destruct c; cbn in Hd.
  - exfalso. apply Hne. destruct Hd as [id0 Hc]. apply permission_lookup.
    rewrite (ce_permissions _ _ _ _ _ _ _ _ _ _ _ _ _ Hc).
    rewrite lookup_insert_ne; [done|].
    pose proof (ce_id _ _ _ _ _ _ _ _ _ _ _ _ _ Hc). intros [= -> _]. lia.
  - exfalso. apply Hne. by rewrite (permission_lookup s s' id u)
      by (by rewrite (se_permissions _ _ _ _ _ _ _ Hd)).
  - destruct Hd as (_ & Hc & ->).
    destruct (decide ((surveyId, viewer) = (id, u))) as [[= -> ->]|Hk].
    + split; [done|]. left. eauto.
    + exfalso. apply Hne. apply permission_lookup. cbn. by rewrite lookup_insert_ne.
  - destruct Hd as (_ & Hc & ->).
    destruct (decide ((surveyId, viewer) = (id, u))) as [[= -> ->]|Hk].
    + split; [done|]. by right.
    + exfalso. apply Hne. apply permission_lookup. cbn. by rewrite lookup_insert_ne.
  - destruct Hd as (_ & _ & ->). by destruct Hne.
  - destruct Hd as (_ & _ & ->). by destruct Hne.
  - destruct Hd as (_ & _ & ->). by destruct Hne.
Qed.

End PermissionTable.

(** * Behaviour along runs *)

Section AlongRuns.
Variable this : address.
Variable verifyCiphertext : externalEuint32 → bytes → option Z.
Notation dispatch' := (dispatch this verifyCiphertext).
Notation step' := (step this verifyCiphertext).
Notation run' := (run this verifyCiphertext).
Notation reachable' := (reachable this verifyCiphertext).

(** X13. Calls are local to the survey they are about: the stored survey, the
    responses and the permission records of every other survey id are left
    as they were. *)
Theorem calls_are_local s env c s' id :
  dispatch' env c s = Ok s' → id ≠ target c s →
  surveys s' !! id = surveys s !! id
  ∧ ∀ u, responses s' !! (id, u) = responses s !! (id, u)
         ∧ permissions s' !! (id, u) = permissions s !! (id, u).
Proof.
  intros Hd%dispatch_Ok Hne. destruct c; cbn in Hd, Hne.
  - destruct Hd as [id0 Hc].
    pose proof (ce_id _ _ _ _ _ _ _ _ _ _ _ _ _ Hc) as Hid. subst id0.
    split; [by apply (ce_others _ _ _ _ _ _ _ _ _ _ _ _ _ Hc)|].
    intros u. rewrite (ce_responses _ _ _ _ _ _ _ _ _ _ _ _ _ Hc).
    rewrite (ce_permissions _ _ _ _ _ _ _ _ _ _ _ _ _ Hc).
    split; [done|]. rewrite lookup_insert_ne; [done|]. intros [= E _]. by destruct Hne.
  - split; [by apply (se_others _ _ _ _ _ _ _ Hd)|].
    intros u. rewrite (se_permissions _ _ _ _ _ _ _ Hd). split; [|done].
    apply (se_resp_others _ _ _ _ _ _ _ Hd). by intros [= ->].
  - destruct Hd as (_ & _ & ->). split; [done|]. intros u. split; [done|].
    cbn. rewrite lookup_insert_ne; [done|]. by intros [= ->].
  - destruct Hd as (_ & _ & ->). split; [done|]. intros u. split; [done|].
    cbn. rewrite lookup_insert_ne; [done|]. by intros [= ->].
  - destruct Hd as (_ & _ & ->). split; [|done].
    by apply switched_surveys_other.
  - by destruct Hd as (_ & _ & ->).
  - by destruct Hd as (_ & _ & ->).
Qed.

Lemma submitResponse_inactive env id ans prf s :
  s_exists (survey s id) = true → isActive (survey s id) = false →
  dispatch' env (SubmitResponse id ans prf) s = Revert "Survey is not active".
Proof.
  intros Hex Hact. cbn. unfold exec, submitResponse, bind, get.
  by rewrite Hex, Hact.
Qed.

(** X11. A survey that has been switched off takes no responses. After an
    accepted [setSurveyStatus(id, false)], and for as long as no
    [setSurveyStatus(id, true)] is called, every [submitResponse] to the
    survey reverts with "Survey is not active", and its encrypted total and
    buckets stay as they were. *)
Theorem deactivated_survey_rejects s env id s1 calls :
  reachable' s →
  dispatch' env (SetSurveyStatus id false) s = Ok s1 →
  Forall (fun ec => ec.2 ≠ SetSurveyStatus id true) calls →
  (∀ env' ans prf,
     dispatch' env' (SubmitResponse id ans prf) (run' s1 calls)
     = Revert "Survey is not active")
  ∧ totalResponses (survey (run' s1 calls) id) = totalResponses (survey s1 id)
  ∧ aggregatedCounts (survey (run' s1 calls) id) = aggregatedCounts (survey s1 id).
Proof.
  intros Hr Hd Hcalls.
  assert (Hr1 : reachable' s1) by (by eapply reachable_step).
  apply dispatch_Ok in Hd. cbn in Hd. destruct Hd as (Hex & _ & ->).
  assert (Hex1 : s_exists (survey (switched id false s) id) = true)
    by (by rewrite switched_survey).
  assert (Hact1 : isActive (survey (switched id false s) id) = false)
    by (by rewrite switched_survey).
  revert Hr1 Hex1 Hact1. generalize (switched id false s) as s1. clear Hex Hr s.
  induction Hcalls as [|ec calls Hec Hcalls IH]; intros s1 Hr1 Hex1 Hact1.
  - split; [|done]. intros. by apply submitResponse_inactive.
  - rewrite run_cons.
    destruct (step_cases this verifyCiphertext s1 ec) as [(s2 & Hd & ->)|[_ ->]];
      [|by apply IH].
    assert (Hlt : (id < surveyCounter s1)%N)
      by eauto using slots_ok_lt, reachable_slots_ok.
    destruct (step_persist this verifyCiphertext s1 _ _ s2 id Hr1 Hex1 Hd)
      as (Hr2 & Hex2 & _).
    apply dispatch_Ok in Hd.
    assert (Hact2 : isActive (survey s2 id) = false).
    { destruct (decide (isActive (survey s2 id) = isActive (survey s1 id))) as [E|E];
        [congruence|].
      destruct (call_active this verifyCiphertext _ _ _ _ id Hd Hlt E) as (b & Hc & _).
      rewrite Hc in Hd. cbn in Hd. destruct Hd as (_ & _ & ->).
      rewrite switched_survey in E |- *. cbn in *.
      destruct b; [|done]. by destruct Hec. }
    assert (Hsub : isSubmitTo id ec.2 = false).
    { destruct (isSubmitTo id ec.2) eqn:E; [|done].
      destruct ec.2; try discriminate. cbn in E. apply N.eqb_eq in E as ->.
      cbn in Hd. pose proof (se_open _ _ _ _ _ _ _ Hd). congruence. }
    destruct (call_counters this verifyCiphertext _ _ _ _ id Hd Hlt Hsub) as [Ht Ha].
    destruct (IH s2 Hr2 Hex2 Hact2) as (H1 & H2 & H3).
    split; [done|]. split; congruence.
Qed.

(** X12. The time window of a survey is enforced for as long as the survey
    lives. Whatever has been called since the survey was created, a
    [submitResponse] whose block timestamp lies before the start time or
    after the end time given to [createSurvey] reverts. *)
Theorem window_enforced s env ttl cat tgs st en texts types opts id s0 calls env' ans prf :
  reachable' s →
  createSurvey this env ttl cat tgs st en texts types opts s = Ok (id, s0) →
  (timestamp env' < st ∨ en < timestamp env')%N →
  ∃ msg, dispatch' env' (SubmitResponse id ans prf) (run' s0 calls) = Revert msg
    ∧ (msg = "Survey is not active"%string ∨ msg = "Survey period invalid"%string).
Proof.
  intros Hr Hc Hout.
  assert (Hr0 : reachable' s0).
  { eapply (reachable_step _ _ s env (CreateSurvey ttl cat tgs st en texts types opts));
      [done|]. cbn. apply exec_Ok. eauto. }
  apply createSurvey_Ok in Hc.
  destruct (ce_meta _ _ _ _ _ _ _ _ _ _ _ _ _ Hc) as (qs & Hm & _).
  assert (Hex0 : s_exists (survey s0 id) = true).
  { unfold meta in Hm. by injection Hm as _ _ _ _ _ _ _ -> _ _. }
  assert (Hlt : (id < surveyCounter s0)%N)
    by eauto using slots_ok_lt, reachable_slots_ok.
  destruct (run_meta this verifyCiphertext s0 calls id Hlt) as [Hm1 _].
  rewrite Hm in Hm1. unfold meta in Hm1.
  injection Hm1 as _ _ _ _ _ Hst Hen Hex _ _.
  cbn. unfold exec, submitResponse, bind, get. rewrite Hex. cbn [require ret].
  destruct (isActive (survey (run' s0 calls) id)); cbn [require ret revert].
  - rewrite Hst, Hen.
    assert ((st <=? timestamp env')%N && (timestamp env' <=? en)%N = false) as ->.
    { apply andb_false_iff. destruct Hout; [left|right]; apply N.leb_gt; lia. }
    cbn. eauto.
  - eauto.
Qed.

(** X17. The creator stays in control. Whatever has been called since, and
    whatever the creator's own permission record says by then, the creator's
    calls of [grantPermission], [revokePermission], [setSurveyStatus] and
    [authorizeMyDecryption] for the survey succeed. *)
Theorem creator_keeps_control s id calls env :
  reachable' s → s_exists (survey s id) = true →
  sender env = creator (survey s id) →
  (∀ v cv ce cm, ∃ s2,
     dispatch' env (GrantPermission id v cv ce cm) (run' s calls) = Ok s2)
  ∧ (∀ v, ∃ s2, dispatch' env (RevokePermission id v) (run' s calls) = Ok s2)
  ∧ (∀ b, ∃ s2, dispatch' env (SetSurveyStatus id b) (run' s calls) = Ok s2
        ∧ isActive (survey s2 id) = b)
  ∧ (∃ s2 e, dispatch' env (AuthorizeMyDecryption id) (run' s calls) = Ok s2
        ∧ view (getTotalResponses id) s2 = Ok e
        ∧ isAllowed (fhe s2) (hid e) (sender env)).
Proof.
  intros Hr Hex Hc.
  assert (Hlt : (id < surveyCounter s)%N)
    by eauto using slots_ok_lt, reachable_slots_ok.
  destruct (run_meta this verifyCiphertext s calls id Hlt) as [Hm _].
  set (s1 := run' s calls) in *.
  assert (Hex1 : s_exists (survey s1 id) = true) by (by rewrite (meta_exists _ _ Hm)).
  assert (Hc1 : sender env = creator (survey s1 id)) by (by rewrite (meta_creator _ _ Hm)).
  split; [|split; [|split]].
  - intros v cv ce cm. eexists. cbn. apply exec_Ok. exists tt.
    by apply grantPermission_Ok.
  - intros v. eexists. cbn. apply exec_Ok. exists tt. by apply revokePermission_Ok.
  - intros b. exists (switched id b s1). split.
    + cbn. apply exec_Ok. exists tt. apply setSurveyStatus_Ok. auto.
    + by rewrite switched_survey.
  - exists (granting [(hid (totalResponses (survey s1 id)), sender env)] s1),
      (totalResponses (survey s1 id)).
    split; [|split].
    + cbn. apply exec_Ok. exists tt. apply authorizeMyDecryption_Ok.
      split; [done|]. split; [by left|done].
    + by rewrite getTotalResponses_eq, granting_survey, Hex1.
    + unfold isAllowed. cbn. apply elem_of_cons. by left.
Qed.

(** X18. Delegated management. An address other than the creator that holds
    [canManage] can switch the survey on and off, and that is all it can do:
    its [grantPermission] and [revokePermission] calls revert. Once the
    creator has revoked its permission, its [setSurveyStatus] calls revert
    too. *)
Theorem delegated_manager s id m cv ce e1 e2 em :
  s_exists (survey s id) = true →
  sender e1 = creator (survey s id) →
  sender e2 = creator (survey s id) →
  sender em = m → m ≠ creator (survey s id) →
  ∃ s1 s2,
    dispatch' e1 (GrantPermission id m cv ce true) s = Ok s1
    ∧ (∀ b, ∃ s', dispatch' em (SetSurveyStatus id b) s1 = Ok s'
          ∧ isActive (survey s' id) = b)
    ∧ (∀ v a b c, dispatch' em (GrantPermission id v a b c) s1
          = Revert "Only creator can grant permissions")
    ∧ (∀ v, dispatch' em (RevokePermission id v) s1
          = Revert "Only creator can revoke permissions")
    ∧ dispatch' e2 (RevokePermission id m) s1 = Ok s2
    ∧ ∀ b, dispatch' em (SetSurveyStatus id b) s2 = Revert "Not authorized".
Proof.
  intros Hex Hc1 Hc2 Hm Hne.
  set (s1 := granted id m cv ce true e1 s).
  set (s2 := revoked id m e2 s1).
  assert (Hneq : (sender em =? creator (survey s id))%N = false).
  { apply N.eqb_neq. congruence. }
  exists s1, s2. split; [|split; [|split; [|split; [|split]]]].
  - cbn. apply exec_Ok. exists tt. by apply grantPermission_Ok.
  - intros b. exists (switched id b s1). split.
    + cbn. apply exec_Ok. exists tt. apply setSurveyStatus_Ok.
      split; [done|]. split; [|done]. right.
      unfold isManager, permission, s1, granted. cbn. rewrite <- Hm.
      by rewrite lookup_insert_eq.
    + by rewrite switched_survey.
  - intros v a b c. cbn. unfold exec, grantPermission, bind, get.
    change (survey s1 id) with (survey s id). by rewrite Hex, Hneq.
  - intros v. cbn. unfold exec, revokePermission, bind, get.
    change (survey s1 id) with (survey s id). by rewrite Hex, Hneq.
  - cbn. apply exec_Ok. exists tt. by apply revokePermission_Ok.
  - intros b. cbn. unfold exec, setSurveyStatus, bind, get.
    change (survey s2 id) with (survey s id). rewrite Hex, Hneq.
    assert (isManager (permission s2 id (sender em)) = false) as ->; [|done].
    unfold isManager, permission, s2, revoked. cbn. rewrite Hm.
    rewrite lookup_insert_eq. cbn. apply andb_false_r.
Qed.

End AlongRuns.

(** * Responses and the event log *)

Section Responses.
Variable this : address.
Variable verifyCiphertext : externalEuint32 → bytes → option Z.
Notation dispatch' := (dispatch this verifyCiphertext).
Notation run' := (run this verifyCiphertext).
Notation reachable' := (reachable this verifyCiphertext).

(** A response record comes into existence only in a [submitResponse]
    call of its owner to its survey. *)
Lemma call_response_origin env c s s' id u :
  call_effect this verifyCiphertext env c s s' →
  r_exists (response s' id u) = true →
  (r_exists (response s id u) = true ∧ response s' id u = response s id u)
  ∨ (r_exists (response s id u) = false ∧ sender env = u
     ∧ ∃ ans prf, c = SubmitResponse id ans prf).
Proof.
  intros Hc Hex.
  assert (Hsame : response s' id u = response s id u →
    r_exists (response s id u) = true ∧ response s' id u = response s id u).
  { intros E. split; [by rewrite <- E|done]. }
  destruct c; cbn in Hc.
  - left. apply Hsame. unfold response. destruct Hc as [id0 Hc].
    by rewrite (ce_responses _ _ _ _ _ _ _ _ _ _ _ _ _ Hc).
  - destruct (decide ((id, u) = (surveyId, sender env))) as [[= -> ->]|Hne].
    + right. split; [exact (se_first _ _ _ _ _ _ _ Hc)|]. eauto.
    + left. apply Hsame. apply response_lookup.
      by apply (se_resp_others _ _ _ _ _ _ _ Hc).
  - left. apply Hsame. by destruct Hc as (_ & _ & ->).
  - left. apply Hsame. by destruct Hc as (_ & _ & ->).
  - left. apply Hsame. by destruct Hc as (_ & _ & ->).
  - left. apply Hsame. by destruct Hc as (_ & _ & ->).
  - left. apply Hsame. by destruct Hc as (_ & _ & ->).
Qed.

(** X9. Every stored response was submitted while its survey was open: its
    [submittedAt] lies between the start and the end time of the survey. *)
Theorem responses_within_window s id u :
  reachable' s → r_exists (response s id u) = true →
  s_exists (survey s id) = true
  ∧ (startTime (survey s id) ≤ submittedAt (response s id u) ≤ endTime (survey s id))%N.
Proof.
  intros Hr. revert id u. induction Hr as [|s env c s' Hr IH Hd]; intros id u Hex.
  - unfold response in Hex. cbn in Hex. by rewrite lookup_empty in Hex.
  - apply dispatch_Ok in Hd.
    destruct (call_response_origin _ _ _ _ id u Hd Hex)
      as [[Hex0 Hsame]|(Hno & <- & ans & prf & ->)].
    + destruct (IH id u Hex0) as [Hsv Hw].
      assert (Hm : meta (survey s' id) = meta (survey s id)).
      { eapply call_meta; eauto using slots_ok_lt, reachable_slots_ok. }
      rewrite (meta_exists _ _ Hm), Hsame.
      unfold meta in Hm. injection Hm as _ _ _ _ _ -> -> _ _ _. done.
    + cbn in Hd.
      pose proof (se_meta _ _ _ _ _ _ _ Hd) as Hm.
      rewrite (meta_exists _ _ Hm), (se_resp_time _ _ _ _ _ _ _ Hd).
      split; [exact (se_exists _ _ _ _ _ _ _ Hd)|].
      pose proof (se_window _ _ _ _ _ _ _ Hd) as Hw.
      unfold meta in Hm. injection Hm as _ _ _ _ _ -> -> _ _ _. done.
Qed.

Lemma respondents_other id e evs :
  (∀ u, e ≠ ResponseSubmitted id u) →
  respondents id (e :: evs) = respondents id evs.
Proof.
  intros Hne. destruct e; try done. cbn.
  destruct (N.eqb_spec surveyId id) as [->|]; [|done]. by destruct (Hne participant).
Qed.

Lemma call_log_ok env c s s' :
  call_effect this verifyCiphertext env c s s' →
  slots_ok s → responses_ok s → log_ok s → log_ok s'.
Proof.
  intros Hc Hslots Hresp [Hmem Hnd Htot].
  assert (Hsame : responses s' = responses s →
    (∀ id, totalResponses (survey s' id) = totalResponses (survey s id)) →
    (∀ id, respondents id (events s') = respondents id (events s)) →
    log_ok s').
  { intros Hr Ht He. split.
    - intros id u. unfold response. rewrite Hr, He. apply Hmem.
    - intros id. rewrite He. apply Hnd.
    - intros id. rewrite Ht, He. apply Htot. }
  destruct c; cbn in Hc.
  - destruct Hc as [id0 Hc].
    pose proof (ce_id _ _ _ _ _ _ _ _ _ _ _ _ _ Hc) as Hid.
    assert (He : ∀ id, respondents id (events s') = respondents id (events s)).
    { intros id. by rewrite (ce_events _ _ _ _ _ _ _ _ _ _ _ _ _ Hc). }
    assert (Hr : responses s' = responses s)
      by exact (ce_responses _ _ _ _ _ _ _ _ _ _ _ _ _ Hc).
    split.
    + intros id u. unfold response. rewrite Hr, He. apply Hmem.
    + intros id. rewrite He. apply Hnd.
    + intros id. rewrite He. destruct (decide (id = id0)) as [->|Hne].
      * rewrite (ce_total _ _ _ _ _ _ _ _ _ _ _ _ _ Hc). cbn.
        destruct (respondents id0 (events s)) as [|u l] eqn:E; [done|].
        assert (Hu : r_exists (response s id0 u) = true).
        { apply Hmem. rewrite E. by left. }
        apply Hresp in Hu as [Hex _]. apply slots_ok_lt in Hex; [lia|done].
      * rewrite (survey_lookup s s' id
          (ce_others _ _ _ _ _ _ _ _ _ _ _ _ _ Hc id Hne)). apply Htot.
  - pose proof (se_events _ _ _ _ _ _ _ Hc) as He.
    assert (Hfirst : sender env ∉ respondents surveyId (events s)).
    { intros Hin%Hmem. pose proof (se_first _ _ _ _ _ _ _ Hc). congruence. }
    assert (Hev : ∀ id, respondents id (events s')
      = if decide (id = surveyId) then sender env :: respondents id (events s)
        else respondents id (events s)).
    { intros id. rewrite He. cbn. destruct (decide (id = surveyId)) as [->|Hne].
      - by rewrite N.eqb_refl.
      - destruct (N.eqb_spec surveyId id); [congruence|done]. }
    split.
    + intros id u. rewrite Hev.
      destruct (decide ((id, u) = (surveyId, sender env))) as [[= -> ->]|Hne].
      * rewrite decide_True by done.
        rewrite (se_resp_flag _ _ _ _ _ _ _ Hc). split; [|done]. intros _. by left.
      * rewrite (response_lookup s s' id u (se_resp_others _ _ _ _ _ _ _ Hc _ Hne)).
        rewrite Hmem. destruct (decide (id = surveyId)) as [->|Hid]; [|done].
        rewrite elem_of_cons. split; [auto|]. intros [->|H]; [done|done].
    + intros id. rewrite Hev. destruct (decide (id = surveyId)) as [->|Hid]; [|done].
      by apply NoDup_cons.
    + intros id. rewrite Hev. destruct (decide (id = surveyId)) as [->|Hid].
      * rewrite (se_total _ _ _ _ _ _ _ Hc), Htot, uint32_add_l.
        f_equal. cbn [length]. lia.
      * rewrite (survey_lookup s s' id (se_others _ _ _ _ _ _ _ Hc id Hid)). apply Htot.
  - destruct Hc as (_ & _ & ->). by apply Hsame.
  - destruct Hc as (_ & _ & ->). by apply Hsame.
  - destruct Hc as (_ & _ & ->). apply Hsame; try done.
    intros id. destruct (decide (id = surveyId)) as [->|Hne].
    + by rewrite switched_survey.
    + by rewrite (survey_lookup s (switched surveyId isActive0 s) id
                    (switched_surveys_other _ _ _ _ Hne)).
  - destruct Hc as (_ & _ & ->). by apply Hsame.
  - destruct Hc as (_ & _ & ->). by apply Hsame.
Qed.

Lemma reachable_log_ok s : reachable' s → log_ok s.
Proof.
  induction 1 as [|s env c s' Hr IH Hd].
  - split.
    + intros id u. unfold response. cbn. rewrite lookup_empty. cbn.
      split; [done|]. by intros H%elem_of_nil.
    + intros id. apply NoDup_nil_2.
    + intros id. unfold survey. cbn. by rewrite lookup_empty.
  - apply dispatch_Ok in Hd.
    eapply call_log_ok; eauto using reachable_slots_ok, reachable_responses_ok.
Qed.

(** X8. The event log and the storage agree. In every reachable state
    [hasResponded] reports an address for a survey exactly when the log
    holds a [ResponseSubmitted] event of that address for that survey; no
    address is logged twice for a survey; and the plaintext of the encrypted
    total is the number of these events, modulo [2^32]. *)
Theorem responses_match_events s id :
  reachable' s →
  (∀ u, view (hasResponded id u) s = Ok true ↔ u ∈ respondents id (events s))
  ∧ NoDup (respondents id (events s))
  ∧ shadow (totalResponses (survey s id))
    = uint32 (Z.of_nat (length (respondents id (events s)))).
Proof.
  intros [Hmem Hnd Htot]%reachable_log_ok. split; [|split]; [|done..].
  intros u. rewrite hasResponded_eq, <- Hmem. split; [by intros [= ->]|by intros ->].
Qed.

End Responses.

(** * Grants on the results *)

Lemma submit_closed_acl this id u h a :
  submit_closed this id u (fun s => (h, a) ∈ acl (fhe s)).
Proof.
  split.
  - done.
  - intros q v s H. cbn. by apply list_elem_of_further.
  - intros q o k v s H. cbn. by do 2 apply list_elem_of_further.
  - intros s H. cbn. by do 2 apply list_elem_of_further.
  - done.
Qed.

Lemma survey_absent s id : surveys s !! id = None → survey s id = emptySurvey.
Proof. unfold survey. by intros ->. Qed.

(** Grants carry over to a state whose log of grants extends the old one
    and whose surveys have the creators and the counter handles they had. *)
Lemma grants_ok_mono this s s' :
  (∀ id, s_exists (survey s' id) = true →
     s_exists (survey s id) = true
     ∧ creator (survey s' id) = creator (survey s id)
     ∧ totalResponses (survey s' id) = totalResponses (survey s id)
     ∧ aggregatedCounts (survey s' id) = aggregatedCounts (survey s id)) →
  (∀ x, x ∈ acl (fhe s) → x ∈ acl (fhe s')) →
  grants_ok this s → grants_ok this s'.
Proof.
  intros Hsv Hacl Hg id Hex.
  destruct (Hsv id Hex) as (Hex0 & Hc & Ht & Ha).
  destruct (Hg id Hex0) as [[H1 H2] H3]. cbn. rewrite Hc, Ht, Ha.
  split; [split; auto|]. intros q o e He. destruct (H3 q o e He). auto.
Qed.

Lemma grants_ok_submit_closed this id u : submit_closed this id u (grants_ok this).
Proof.
  split.
  - intros now s. by apply grants_ok_mono.
  - intros q a s. apply grants_ok_mono; [done|].
    intros x Hx. cbn. by apply list_elem_of_further.
  - intros q o k v s Hg id' Hex.
    destruct (decide (id' = id)) as [->|Hne].
    + rewrite bump_survey in Hex |- *. cbn in Hex.
      destruct (Hg id Hex) as [[H1 H2] H3]. cbn.
      split; [split; by do 2 apply list_elem_of_further|].
      intros q' o' e He.
      destruct (decide ((q, o) = (q', o'))) as [[= <- <-]|Hqo].
      * rewrite lookup_insert_eq in He. injection He as <-. cbn.
        split; [by left|]. apply list_elem_of_further. by left.
      * rewrite lookup_insert_ne in He by done. destruct (H3 q' o' e He).
        split; by do 2 apply list_elem_of_further.
    + rewrite (survey_lookup s (bump this id q o k v s) id'
                 (bump_surveys_other _ _ _ _ _ _ _ _ Hne)) in Hex |- *.
      destruct (Hg id' Hex) as [[H1 H2] H3]. cbn.
      split; [split; by do 2 apply list_elem_of_further|].
      intros q' o' e He. destruct (H3 q' o' e He).
      split; by do 2 apply list_elem_of_further.
  - intros s Hg id' Hex.
    destruct (decide (id' = id)) as [->|Hne].
    + rewrite counted_survey in Hex |- *. cbn in Hex.
      destruct (Hg id Hex) as [[H1 H2] H3]. cbn.
      split; [split; [by left|apply list_elem_of_further; by left]|].
      intros q' o' e He. destruct (H3 q' o' e He).
      split; by do 2 apply list_elem_of_further.
    + rewrite (survey_lookup s (counted this id s) id'
                 (counted_surveys_other _ _ _ _ Hne)) in Hex |- *.
      destruct (Hg id' Hex) as [[H1 H2] H3]. cbn.
      split; [split; by do 2 apply list_elem_of_further|].
      intros q' o' e He. destruct (H3 q' o' e He).
      split; by do 2 apply list_elem_of_further.
  - intros e s. by apply grants_ok_mono.
Qed.

Section Grants.
Variable this : address.
Variable verifyCiphertext : externalEuint32 → bytes → option Z.
Notation dispatch' := (dispatch this verifyCiphertext).
Notation step' := (step this verifyCiphertext).
Notation run' := (run this verifyCiphertext).
Notation reachable' := (reachable this verifyCiphertext).

Lemma dispatch_acl env c s s' h a :
  dispatch' env c s = Ok s' → (h, a) ∈ acl (fhe s) → (h, a) ∈ acl (fhe s').
Proof.
  intros Hd Hin. destruct c.
  - apply dispatch_Ok in Hd as [id Hc].
    rewrite (ce_fhe _ _ _ _ _ _ _ _ _ _ _ _ _ Hc). cbn.
    by do 2 apply list_elem_of_further.
  - cbn in Hd. apply exec_Ok in Hd as [[] Hd].
    by apply (submitResponse_closed this verifyCiphertext _ _ _ _ _ _ _
                (submit_closed_acl this surveyId (sender env) h a) Hd).
  - apply dispatch_Ok in Hd as (_ & _ & ->). cbn. by apply list_elem_of_further.
  - by apply dispatch_Ok in Hd as (_ & _ & ->).
  - by apply dispatch_Ok in Hd as (_ & _ & ->).
  - apply dispatch_Ok in Hd as (_ & _ & ->). cbn. by apply list_elem_of_further.
  - apply dispatch_Ok in Hd as (_ & _ & ->). cbn. apply elem_of_app. by right.
Qed.

(** X19. Grants are never withdrawn. An address allowed on a handle stays
    allowed on it whatever is called afterwards. In particular
    [revokePermission] leaves the log of grants and the stored handles as
    they are: it clears the capabilities of the viewer, and the viewer keeps
    every grant obtained before. *)
Theorem grants_are_never_withdrawn s :
  (∀ calls h a, isAllowed (fhe s) h a → isAllowed (fhe (run' s calls)) h a)
  ∧ ∀ env id v s', dispatch' env (RevokePermission id v) s = Ok s' →
      fhe s' = fhe s ∧ surveys s' = surveys s
      ∧ view (getPermission id v) s' = Ok (false, false, false).
Proof.
  split.
  - intros calls h a. unfold isAllowed.
    apply (run_invariant this verifyCiphertext (fun s1 => (h, a) ∈ acl (fhe s1))).
    intros env c s1 s2 Hin Hd. by eapply dispatch_acl.
  - intros env id v s' Hd%dispatch_Ok. cbn in Hd. destruct Hd as (_ & _ & ->).
    split; [done|]. split; [done|].
    rewrite getPermission_eq. unfold permission, revoked. cbn.
    by rewrite lookup_insert_eq.
Qed.

Lemma dispatch_grants_ok env c s s' :
  dispatch' env c s = Ok s' → slots_ok s → grants_ok this s → grants_ok this s'.
Proof.
  intros Hd Hs Hg.
  assert (Hacl : ∀ x, x ∈ acl (fhe s) → x ∈ acl (fhe s')).
  { intros [h a]. by eapply dispatch_acl. }
  destruct c.
  - apply dispatch_Ok in Hd as [id0 Hc]. intros id Hex.
    destruct (decide (id = id0)) as [->|Hne].
    + destruct (ce_meta _ _ _ _ _ _ _ _ _ _ _ _ _ Hc) as (qs & Hm & _).
      unfold meta in Hm. injection Hm as Hcr _ _ _ _ _ _ _ _ _.
      cbn. rewrite Hcr, (ce_total _ _ _ _ _ _ _ _ _ _ _ _ _ Hc),
        (ce_aggregated _ _ _ _ _ _ _ _ _ _ _ _ _ Hc),
        (ce_fhe _ _ _ _ _ _ _ _ _ _ _ _ _ Hc). cbn.
      split; [split; [by left|apply list_elem_of_further; by left]|].
      intros q o e He.
      rewrite (survey_absent s id0) in He.
      * cbn in He. by rewrite lookup_empty in He.
      * rewrite (ce_id _ _ _ _ _ _ _ _ _ _ _ _ _ Hc). by apply slots_ok_fresh.
    + revert id Hex Hne.
      assert (Hold : ∀ id, id ≠ id0 → survey s' id = survey s id).
      { intros id Hne. apply survey_lookup.
        by apply (ce_others _ _ _ _ _ _ _ _ _ _ _ _ _ Hc). }
      intros id Hex Hne. rewrite Hold in Hex |- * by done.
      destruct (Hg id Hex) as [[H1 H2] H3]. cbn.
      split; [split; auto|]. intros q o e He. destruct (H3 q o e He). auto.
  - cbn in Hd. apply exec_Ok in Hd as [[] Hd].
    by apply (submitResponse_closed this verifyCiphertext _ _ _ _ _ _ _
                (grants_ok_submit_closed this surveyId (sender env)) Hd).
  - apply dispatch_Ok in Hd as (_ & _ & Hs'). revert Hacl. rewrite Hs'. intros Hacl.
    by apply (grants_ok_mono this s).
  - apply dispatch_Ok in Hd as (_ & _ & Hs'). revert Hacl. rewrite Hs'. intros Hacl.
    by apply (grants_ok_mono this s).
  - apply dispatch_Ok in Hd as (_ & _ & Hs'). revert Hacl. rewrite Hs'. intros Hacl.
    apply (grants_ok_mono this s); [|done..].
    intros id. destruct (decide (id = surveyId)) as [->|Hne].
    + by rewrite switched_survey.
    + by rewrite (survey_lookup s (switched surveyId isActive0 s) id
                    (switched_surveys_other _ _ _ _ Hne)).
  - apply dispatch_Ok in Hd as (_ & _ & Hs'). revert Hacl. rewrite Hs'. intros Hacl.
    by apply (grants_ok_mono this s).
  - apply dispatch_Ok in Hd as (_ & _ & Hs'). revert Hacl. rewrite Hs'. intros Hacl.
    by apply (grants_ok_mono this s).
Qed.

Lemma reachable_grants_ok s : reachable' s → grants_ok this s.
Proof.
  induction 1 as [|s env c s' Hr IH Hd].
  - intros id. unfold survey. cbn. by rewrite lookup_empty.
  - eauto using dispatch_grants_ok, reachable_slots_ok.
Qed.

(** X20. The creator can always decrypt the current results. In every
    reachable state the creator of a survey and the contract hold a grant on
    the handle [getTotalResponses] returns, and on every handle
    [getQuestionOptionCounts] returns other than the uninitialised one of a
    bucket that was never written. *)
Theorem creator_holds_grants s id :
  reachable' s → s_exists (survey s id) = true →
  (∃ e, view (getTotalResponses id) s = Ok e
     ∧ isAllowed (fhe s) (hid e) (creator (survey s id))
     ∧ isAllowed (fhe s) (hid e) this)
  ∧ ∀ q, q < questionCount (survey s id) →
      ∃ counts, view (getQuestionOptionCounts id q) s = Ok counts
        ∧ ∀ e, e ∈ counts →
            e = euint32_zero
            ∨ (isAllowed (fhe s) (hid e) (creator (survey s id))
               ∧ isAllowed (fhe s) (hid e) this).
Proof.
  intros Hr Hex.
  destruct (reachable_grants_ok s Hr id Hex) as [[H1 H2] H3]. split.
  - exists (totalResponses (survey s id)).
    by rewrite getTotalResponses_eq, Hex.
  - intros q Hq. exists (countHandles (survey s id) q).
    rewrite getQuestionOptionCounts_eq, Hex.
    apply Nat.ltb_lt in Hq as ->. split; [done|].
    intros e He. unfold countHandles in He.
    apply list_elem_of_In, in_map_iff in He as (o & <- & _).
    unfold aggregated.
    destruct (aggregatedCounts (survey s id) !! (q, o)) as [e|] eqn:E; cbn.
    + right. apply (H3 q o e E).
    + by left.
Qed.

End Grants.

(** * Buckets are written together *)

Lemma bump_loop_written this id q start n K ind (body : nat → M unit) s s' :
  (∀ k s1, body (start + k) s1 = Ok (tt, bump this id q k K (ind k) s1)) →
  forEach (seq start n) body s = Ok (tt, s') →
  ∀ o, o < n → is_Some (aggregatedCounts (survey s' id) !! (q, o)).
Proof.
  intros Hbody.
  apply (forEach_seq_ind (fun k s1 =>
    ∀ o, o < k → is_Some (aggregatedCounts (survey s1 id) !! (q, o)))).
  - intros o Ho. lia.
  - intros k s1 s2 _ IH Hk o Ho. rewrite Hbody in Hk. injection Hk as <-.
    rewrite bump_survey. cbn.
    destruct (decide (o = k)) as [->|Hne].
    + rewrite lookup_insert_eq. eauto.
    + rewrite lookup_insert_ne by congruence. apply IH. lia.
Qed.

Lemma submit_closed_written this id u q o :
  submit_closed this id u
    (fun s => is_Some (aggregatedCounts (survey s id) !! (q, o))).
Proof.
  split; try done.
  - intros q' o' k v s H. rewrite bump_survey. cbn.
    destruct (decide ((q', o') = (q, o))) as [[= -> ->]|Hne].
    + rewrite lookup_insert_eq. eauto.
    + by rewrite lookup_insert_ne.
  - intros s H. by rewrite counted_survey.
Qed.

Section Written.
Variable this : address.
Variable verifyCiphertext : externalEuint32 → bytes → option Z.
Notation dispatch' := (dispatch this verifyCiphertext).
Notation run' := (run this verifyCiphertext).
Notation reachable' := (reachable this verifyCiphertext).

Lemma processAnswer_written env id ans prf q s s' :
  processAnswer this verifyCiphertext env id ans prf q s = Ok (tt, s') →
  ∀ o, o < bucketCount (question (survey s id) q) →
    is_Some (aggregatedCounts (survey s' id) !! (q, o)).
Proof.
  intros H. unfold processAnswer in H.
  apply bind_Ok in H as (input & s1 & Hin & H). apply index_Ok in Hin as [Hin ->].
  apply bind_Ok in H as (proof & s1 & Hpr & H). apply index_Ok in Hpr as [Hpr ->].
  apply bind_Ok in H as (e & s1 & Himp & H).
  unfold FHE.fromExternal in Himp.
  destruct (verifyCiphertext input proof) as [v|] eqn:Hv; [|discriminate].
  injection Himp as <- <-.
  revert H. unfold_tx. cbn.
  match goal with |- context [qType (question (survey ?x id) q)] =>
    change (survey x id) with (survey s id) end.
  set (qn := question (survey s id) q).
  rewrite bucketCount_eq.
  destruct (qType qn); cbv beta iota.
  - apply (bump_loop_written this id q 0 _ 5
      (fun o => if (uint32 v =? uint32 (uint32 (Z.of_nat o)))%Z then uint32 1 else uint32 0)).
    intros k s1. apply tallySingleChoice_eq.
  - apply (bump_loop_written this id q 0 _ 7
      (fun o => if (uint32 0 <? Z.land (uint32 v) (uint32 (shl32 1 (uint32 (Z.of_nat o)))))%Z
                then uint32 1 else uint32 0)).
    intros k s1. apply tallyMultipleChoice_eq.
  - intros H.
    refine (bump_loop_written this id q 1 5 5
      (fun o => if (uint32 v =? uint32 (Z.of_nat (1 + o)))%Z then uint32 1 else uint32 0)
      (tallyRating this id q _) _ _ _ H).
    intros k s1. rewrite tallyRating_eq.
    replace (1 + k - 1) with k by lia. reflexivity.
Qed.

(** The loop of [submitResponse] and what follows it. *)
Lemma submitResponse_steps env id ans prf s s' :
  submitResponse this verifyCiphertext env id ans prf s = Ok (tt, s') →
  ∃ s2,
    forEach (seq 0 (questionCount (survey s id)))
      (processAnswer this verifyCiphertext env id ans prf)
      (set_responses (fun m =>
         <[(id, sender env) := set_submitted (timestamp env) (response s id (sender env))]> m) s)
    = Ok (tt, s2)
    ∧ s' = set_events (ResponseSubmitted id (sender env) :: events (counted this id s2))
             (counted this id s2).
Proof.
  intros H. unfold submitResponse in H.
  apply bind_Ok in H as (s0 & s1 & [= <- <-] & H).
  apply bind_Ok in H as ([] & s1 & [_ ->]%require_Ok & H).
  apply bind_Ok in H as ([] & s1 & [_ ->]%require_Ok & H).
  apply bind_Ok in H as ([] & s1 & [_ ->]%require_Ok & H).
  apply bind_Ok in H as ([] & s1 & [_ ->]%require_Ok & H).
  apply bind_Ok in H as ([] & s1 & [_ ->]%require_Ok & H).
  apply bind_Ok in H as ([] & s1 & [_ ->]%require_Ok & H).
  apply bind_Ok in H as ([] & s1 & [= <-] & H).
  apply bind_Ok in H as ([] & s2 & Hloop & H).
  apply bind_Ok in H as ([] & s3 & Htot & H).
  rewrite incrementTotalResponses_eq in Htot. injection Htot as <-.
  injection H as <-. eauto.
Qed.

Lemma submitResponse_written env id ans prf s s' :
  submitResponse this verifyCiphertext env id ans prf s = Ok (tt, s') →
  ∀ q o, q < questionCount (survey s id) →
    o < bucketCount (question (survey s id) q) →
    is_Some (aggregatedCounts (survey s' id) !! (q, o)).
Proof.
  intros (s2 & Hloop & ->)%submitResponse_steps q o Hq Ho.
  change (survey (set_events _ (counted this id s2)) id) with (survey (counted this id s2) id).
  rewrite counted_survey. cbn.
  set (sM := set_responses _ s) in Hloop.
  refine (proj2 (forEach_seq_ind (fun k s1 =>
    meta (survey s1 id) = meta (survey s id)
    ∧ ∀ q o, q < k → o < bucketCount (question (survey s id) q) →
        is_Some (aggregatedCounts (survey s1 id) !! (q, o))) 0 _ _ sM s2 _ _ Hloop)
    q o Hq Ho).
  - split; [done|]. intros; lia.
  - intros k s1 s2' _ [Hm IH] Hk. cbn [Nat.add] in Hk.
    pose proof Hk as Hk'. apply processAnswer_Ok in Hk' as (a & _ & Ht).
    split.
    + etrans; [exact (te_meta _ _ _ _ _ _ Ht)|]. exact Hm.
    + intros q' o' Hq' Ho'. destruct (decide (q' = k)) as [->|Hne].
      * apply (processAnswer_written _ _ _ _ _ _ _ Hk).
        cbn [Nat.add]. by rewrite (meta_question _ _ k Hm).
      * refine (processAnswer_closed this verifyCiphertext _ _ _ _ _ _ _ _
                  (submit_closed_written this id (sender env) q' o') Hk _).
        apply IH; [lia|done].
Qed.

Lemma dispatch_written env c s s' :
  dispatch' env c s = Ok s' → slots_ok s → responses_ok s → written s → written s'.
Proof.
  intros Hd Hs Hr Hw id u Hex q o Hq Ho.
  destruct (decide (isSubmitTo id c = true)) as [Hsub|Hsub].
  - destruct c; try discriminate. cbn in Hsub. apply N.eqb_eq in Hsub as ->.
    pose proof (dispatch_Ok _ _ _ _ _ _ Hd) as He. cbn in He.
    pose proof (se_meta _ _ _ _ _ _ _ He) as Hm.
    cbn in Hd. apply exec_Ok in Hd as [[] Hd].
    rewrite (meta_questionCount _ _ Hm) in Hq. rewrite (meta_question _ _ q Hm) in Ho.
    by eapply submitResponse_written.
  - apply not_true_is_false in Hsub.
    apply dispatch_Ok in Hd.
    destruct (call_response_origin this verifyCiphertext _ _ _ _ id u Hd Hex)
      as [[Hex0 _]|(_ & _ & ans & prf & ->)].
    + destruct (Hr id u Hex0) as [Hsv _].
      assert (Hlt : (id < surveyCounter s)%N) by (by apply slots_ok_lt).
      pose proof (call_meta this verifyCiphertext _ _ _ _ id Hd Hlt) as Hm.
      destruct (call_counters this verifyCiphertext _ _ _ _ id Hd Hlt Hsub) as [_ Ha].
      rewrite (meta_questionCount _ _ Hm) in Hq. rewrite (meta_question _ _ q Hm) in Ho.
      rewrite Ha. by eapply Hw.
    + cbn in Hsub. by rewrite N.eqb_refl in Hsub.
Qed.

Lemma reachable_written s : reachable' s → written s.
Proof.
  induction 1 as [|s env c s' Hr IH Hd].
  - intros id u. unfold response. cbn. by rewrite lookup_empty.
  - eauto using dispatch_written, reachable_slots_ok, reachable_responses_ok.
Qed.

(** X21. The buckets of a survey are written together. As soon as a survey has
    one response, every handle [getQuestionOptionCounts] returns, for every
    question, has been written by [submitResponse], and the creator and the
    contract hold a grant on it. *)
Theorem results_initialised_together s id u q :
  reachable' s → view (hasResponded id u) s = Ok true →
  q < questionCount (survey s id) →
  ∃ counts, view (getQuestionOptionCounts id q) s = Ok counts
    ∧ length counts = bucketCount (question (survey s id) q)
    ∧ ∀ o e, counts !! o = Some e →
        aggregatedCounts (survey s id) !! (q, o) = Some e
        ∧ isAllowed (fhe s) (hid e) (creator (survey s id))
        ∧ isAllowed (fhe s) (hid e) this.
Proof.
  intros Hr. rewrite hasResponded_eq. intros [= Hex] Hq.
  destruct (reachable_responses_ok this verifyCiphertext s Hr id u Hex) as [Hsv _].
  exists (countHandles (survey s id) q).
  rewrite getQuestionOptionCounts_eq, Hsv.
  apply Nat.ltb_lt in Hq as Hq'. rewrite Hq'. split; [done|].
  split; [unfold countHandles; by rewrite length_map, length_seq|].
  intros o e He. unfold countHandles in He.
  apply list_lookup_fmap_Some in He as (o' & -> & Ho').
  apply lookup_seq in Ho' as [-> Ho]. cbn.
  destruct (reachable_written s Hr id u Hex q o Hq Ho) as [e He].
  unfold aggregated. rewrite He. cbn. split; [done|].
  destruct (reachable_grants_ok this verifyCiphertext s Hr id Hsv) as [_ H3].
  apply (H3 q o e He).
Qed.

End Written.

(** * A new survey, and the surveys in the log *)

Lemma map_const_replicate {A B} (c : B) (l : list A) :
  map (fun _ => c) l = replicate (length l) c.
Proof. induction l as [|x l IH]; [done|]. cbn. by rewrite IH. Qed.

Section NewSurvey.
Variable this : address.
Variable verifyCiphertext : externalEuint32 → bytes → option Z.
Notation dispatch' := (dispatch this verifyCiphertext).
Notation run' := (run this verifyCiphertext).
Notation reachable' := (reachable this verifyCiphertext).

(** X4. A new survey starts blank. Right after [createSurvey], nobody has
    responded to the survey, nobody but the creator holds a capability for
    it, every bucket of every question is the uninitialised handle, and the
    total is an encryption of zero that the creator and the contract are
    allowed to decrypt. *)
Theorem created_survey_is_blank s env ttl cat tgs st en texts types opts id s' :
  reachable' s →
  createSurvey this env ttl cat tgs st en texts types opts s = Ok (id, s') →
  (∀ u, view (hasResponded id u) s' = Ok false)
  ∧ (∀ u, u ≠ sender env → view (getPermission id u) s' = Ok (false, false, false))
  ∧ (∀ q, q < length texts →
       view (getQuestionOptionCounts id q) s'
       = Ok (replicate (bucketCount (question (survey s' id) q)) euint32_zero))
  ∧ ∃ e, view (getTotalResponses id) s' = Ok e ∧ shadow e = 0%Z
      ∧ isAllowed (fhe s') (hid e) (sender env)
      ∧ isAllowed (fhe s') (hid e) this.
Proof.
  intros Hr Hc.
  destruct (created_state this verifyCiphertext _ _ _ _ _ _ _ _ _ _ _ _ Hr Hc)
    as (Hr0 & Hex0 & Hqc & Hcr & Hz & _ & Hagg & _).
  apply createSurvey_Ok in Hc.
  pose proof (ce_id _ _ _ _ _ _ _ _ _ _ _ _ _ Hc) as Hid.
  assert (Hfresh : s_exists (survey s id) = false).
  { rewrite (survey_absent s id); [done|].
    rewrite Hid. by apply slots_ok_fresh, (reachable_slots_ok this verifyCiphertext). }
  split; [|split; [|split]].
  - intros u. rewrite hasResponded_eq. f_equal. unfold response.
    rewrite (ce_responses _ _ _ _ _ _ _ _ _ _ _ _ _ Hc).
    destruct (r_exists (default emptyResponse (responses s !! (id, u)))) eqn:E; [|done].
    apply (reachable_responses_ok this verifyCiphertext s Hr) in E as [E _]. congruence.
  - intros u Hne. rewrite getPermission_eq. unfold permission.
    rewrite (ce_permissions _ _ _ _ _ _ _ _ _ _ _ _ _ Hc).
    rewrite lookup_insert_ne by congruence.
    destruct (permissions s !! (id, u)) as [p|] eqn:E; [|done].
    apply (reachable_permissions_ok this verifyCiphertext s Hr) in E as [E _]. congruence.
  - intros q Hq. rewrite getQuestionOptionCounts_eq, Hex0, Hqc.
    apply Nat.ltb_lt in Hq as ->. f_equal. unfold countHandles.
    rewrite (map_ext _ (fun _ => euint32_zero)) by (intros; apply Hagg).
    by rewrite map_const_replicate, length_seq.
  - exists (totalResponses (survey s' id)).
    rewrite getTotalResponses_eq, Hex0. split; [done|]. split; [done|].
    unfold isAllowed.
    rewrite (ce_total _ _ _ _ _ _ _ _ _ _ _ _ _ Hc), (ce_fhe _ _ _ _ _ _ _ _ _ _ _ _ _ Hc).
    cbn. split; [by left|]. apply list_elem_of_further. by left.
Qed.

Lemma call_events_created env c s s' id who ttl cat n :
  call_effect this verifyCiphertext env c s s' →
  (∀ t ct tg st en qt qty qo, c ≠ CreateSurvey t ct tg st en qt qty qo) →
  SurveyCreated id who ttl cat n ∈ events s'
  ↔ SurveyCreated id who ttl cat n ∈ events s.
Proof.
  intros Hc Hne. destruct c; cbn in Hc.
  - by destruct (Hne title0 category0 tags0 startTime0 endTime0
      questionTexts questionTypes questionOptions).
  - rewrite (se_events _ _ _ _ _ _ _ Hc), elem_of_cons. split; [|auto].
    by intros [?|?].
  - destruct Hc as (_ & _ & ->). cbn. rewrite elem_of_cons. split; [|auto].
    by intros [?|?].
  - destruct Hc as (_ & _ & ->). cbn. rewrite elem_of_cons. split; [|auto].
    by intros [?|?].
  - destruct Hc as (_ & _ & ->). cbn. rewrite elem_of_cons. split; [|auto].
    by intros [?|?].
  - by destruct Hc as (_ & _ & ->).
  - by destruct Hc as (_ & _ & ->).
Qed.

(** X22. The [SurveyCreated] events are the surveys. In every reachable state
    the log holds an event [SurveyCreated(id, creator, title, category,
    questionCount)] exactly when a survey with that id exists and
    [getSurveyInfo] returns that creator, title, category and question
    count for it. *)
Theorem created_events_match_surveys s id who ttl cat n :
  reachable' s →
  SurveyCreated id who ttl cat n ∈ events s
  ↔ ∃ at_ st en act,
      view (getSurveyInfo id) s = Ok (who, ttl, cat, at_, st, en, n, true, act).
Proof.
  intros Hr.
  transitivity (s_exists (survey s id) = true
    ∧ creator (survey s id) = who ∧ title (survey s id) = ttl
    ∧ category (survey s id) = cat ∧ questionCount (survey s id) = n).
  2:{ rewrite getSurveyInfo_eq. split.
      - intros (-> & <- & <- & <- & <-). eauto.
      - intros (at_ & st & en & act & [= <- <- <- _ _ _ <- -> _]). done. }
  revert id who ttl cat n.
  induction Hr as [|s env c s' Hr IH Hd]; intros id who ttl cat n.
  - cbn. split; [by intros H%elem_of_nil|]. by intros [H _].
  - pose proof (reachable_slots_ok this verifyCiphertext s Hr) as Hs.
    apply dispatch_Ok in Hd.
    assert (Hold : s_exists (survey s id) = true →
      meta (survey s' id) = meta (survey s id) →
      (s_exists (survey s' id) = true
       ∧ creator (survey s' id) = who ∧ title (survey s' id) = ttl
       ∧ category (survey s' id) = cat ∧ questionCount (survey s' id) = n)
      ↔ SurveyCreated id who ttl cat n ∈ events s).
    { intros Hex Hm. rewrite IH. unfold meta in Hm.
      by injection Hm as -> -> -> _ _ _ _ -> -> _. }
    assert (Hcases : (∃ t ct tg st en qt qty qo,
        c = CreateSurvey t ct tg st en qt qty qo)
      ∨ (∀ t ct tg st en qt qty qo, c ≠ CreateSurvey t ct tg st en qt qty qo)).
    { destruct c; [left; eauto 10|right; done..]. }
    destruct Hcases as [(t & ct & tg & st & en & qt & qty & qo & ->)|Hnc].
    + cbn in Hd. destruct Hd as [id0 Hc].
      rewrite (ce_events _ _ _ _ _ _ _ _ _ _ _ _ _ Hc), elem_of_cons.
      destruct (ce_meta _ _ _ _ _ _ _ _ _ _ _ _ _ Hc) as (qs & Hm & _).
      pose proof (ce_id _ _ _ _ _ _ _ _ _ _ _ _ _ Hc) as Hid.
      destruct (decide (id = id0)) as [->|Hne].
      * unfold meta in Hm. injection Hm as -> -> -> _ _ _ _ -> -> _.
        split.
        -- intros [[= -> -> -> ->]|Hin]; [done|].
           apply IH in Hin as [Hex _]. apply slots_ok_lt in Hex; [lia|done].
        -- intros (_ & -> & -> & -> & ->). by left.
      * rewrite (survey_lookup s s' id (ce_others _ _ _ _ _ _ _ _ _ _ _ _ _ Hc id Hne)).
        rewrite IH. split; [|auto]. intros [[= -> _ _ _ _]|H]; [done|done].
    + rewrite (call_events_created _ _ _ _ _ _ _ _ _ Hd Hnc).
      split.
      * intros Hin. pose proof Hin as Hin'. apply IH in Hin' as [Hex _].
        apply Hold; [done| |done].
        eapply call_meta; eauto using slots_ok_lt.
      * intros (Hex & Hrest).
        destruct (call_survey_origin this verifyCiphertext _ _ _ _ id Hd Hs Hex)
          as [[Hex0 Hm]|(t & ct & tg & st & en & qt & qty & qo & -> & _)].
        -- by apply (Hold Hex0 Hm).
        -- by destruct (Hnc t ct tg st en qt qty qo).
Qed.

(** X7. What [submitResponse] stores is what [getResponse] returns. After an
    accepted response, for every question of the survey and whatever is
    called afterwards, [getResponse] returns for the respondent a handle
    whose plaintext is the answer that was verified for that question, and
    the record keeps the block timestamp of the submission. *)
Theorem submitted_answers_round_trip s env id ans prf s1 calls q :
  reachable' s →
  dispatch' env (SubmitResponse id ans prf) s = Ok s1 →
  q < questionCount (survey s id) →
  ∃ a e, plainAnswer verifyCiphertext ans prf q = Some a
    ∧ view (getResponse id (sender env) q) (run' s1 calls) = Ok e
    ∧ shadow e = a
    ∧ view (hasResponded id (sender env)) (run' s1 calls) = Ok true
    ∧ submittedAt (response (run' s1 calls) id (sender env)) = timestamp env.
Proof.
  intros Hr Hd Hq.
  assert (Hr1 : reachable' s1) by (by eapply reachable_step).
  pose proof (dispatch_Ok _ _ _ _ _ _ Hd) as He. cbn in He.
  destruct (se_defined _ _ _ _ _ _ _ He q Hq) as [a Ha].
  destruct (se_resp_answers _ _ _ _ _ _ _ He q a Hq Ha) as [h Hh].
  pose proof (se_resp_flag _ _ _ _ _ _ _ He) as Hflag.
  assert (Hv : view (getResponse id (sender env) q) s1 = Ok (Euint32 h a)).
  { rewrite getResponse_eq, Hflag.
    rewrite (meta_questionCount _ _ (se_meta _ _ _ _ _ _ _ He)).
    apply Nat.ltb_lt in Hq as ->. unfold answer. by rewrite Hh. }
  assert (Hkeep : response (run' s1 calls) id (sender env) = response s1 id (sender env)).
  { apply (run_invariant this verifyCiphertext (fun s2 =>
      response s2 id (sender env) = response s1 id (sender env))); [|done].
    intros env0 c sa sb Hsa Hc%dispatch_Ok. rewrite <- Hsa.
    eapply call_response; [exact Hc|]. by rewrite Hsa. }
  exists a, (Euint32 h a). split; [done|]. split; [|split; [done|split]].
  - by apply (getResponse_run this verifyCiphertext).
  - by rewrite hasResponded_eq, Hkeep, Hflag.
  - rewrite Hkeep. exact (se_resp_time _ _ _ _ _ _ _ He).
Qed.

(** X10. Answers are not validated. A response whose answer to a
    [SingleChoice] question names no option of the question is accepted all
    the same: it is counted in the total and changes the plaintext of no
    bucket of the question. *)
Theorem out_of_range_choice_counts_nowhere s env id ans prf s' q a :
  reachable' s →
  dispatch' env (SubmitResponse id ans prf) s = Ok s' →
  q < questionCount (survey s id) →
  qType (question (survey s id) q) = SingleChoice →
  plainAnswer verifyCiphertext ans prf q = Some a →
  (Z.of_nat (optionCount (question (survey s id) q)) ≤ a)%Z →
  (∀ o, shadow (aggregated (survey s' id) q o) = shadow (aggregated (survey s id) q o))
  ∧ shadow (totalResponses (survey s' id))
    = uint32 (shadow (totalResponses (survey s id)) + 1).
Proof.
  intros Hr Hd Hq Hty Ha Hout.
  destruct (submit_buckets this verifyCiphertext s env id ans prf s' q Hr Hd Hq)
    as (a' & Ha' & Hrange & _ & Hzero & Hkept).
  assert (a' = a) as -> by congruence.
  pose proof (dispatch_Ok _ _ _ _ _ _ Hd) as He. cbn in He.
  split; [|exact (se_total _ _ _ _ _ _ _ He)].
  intros o.
  assert (Hb : bucketCount (question (survey s id) q)
               = optionCount (question (survey s id) q)).
  { by rewrite bucketCount_eq, Hty. }
  destruct (decide (o < bucketCount (question (survey s id) q))) as [Ho|Ho].
  - apply Hzero; [done|].
    rewrite indicator_SingleChoice by (done || lia).
    destruct (Z.eqb_spec a (Z.of_nat o)); [lia|done].
  - by rewrite Hkept by lia.
Qed.

End NewSurvey.

(** * The client *)

Lemma toInt32_small z : (- 2 ^ 31 ≤ z < 2 ^ 31)%Z → toInt32 z = z.
Proof. intros H. unfold toInt32. rewrite Z.mod_small by lia. lia. Qed.

Lemma js_shl_one i : i < 31 → js_shl 1 i = (2 ^ Z.of_nat i)%Z.
Proof.
  intros Hi. unfold js_shl. rewrite (toInt32_small 1) by lia.
  rewrite Z.mod_small by lia. rewrite Z.shiftl_1_l.
  apply toInt32_small. split.
  - pose proof (Z.pow_pos_nonneg 2 (Z.of_nat i)). lia.
  - apply Z.pow_lt_mono_r; lia.
Qed.

Lemma lor_range a b n :
  (0 < n)%Z → (0 ≤ a < 2 ^ n)%Z → (0 ≤ b < 2 ^ n)%Z → (0 ≤ Z.lor a b < 2 ^ n)%Z.
Proof.
  intros Hn Ha Hb.
  assert (Hnn : (0 ≤ Z.lor a b)%Z) by (apply Z.lor_nonneg; lia).
  split; [done|].
  destruct (decide (Z.lor a b = 0%Z)) as [->|Hne].
  { apply Z.pow_pos_nonneg; lia. }
  apply Z.log2_lt_pow2; [lia|].
  rewrite Z.log2_lor by lia.
  assert (Hl : ∀ x, (0 ≤ x < 2 ^ n)%Z → (Z.log2 x < n)%Z).
  { intros x Hx. destruct (decide (x = 0%Z)) as [->|Hx0]; [cbn; lia|].
    apply Z.log2_lt_pow2; lia. }
  pose proof (Hl a Ha). pose proof (Hl b Hb). lia.
Qed.

Lemma js_or_small a b :
  (0 ≤ a < 2 ^ 31)%Z → (0 ≤ b < 2 ^ 31)%Z → js_or a b = Z.lor a b.
Proof.
  intros Ha Hb. unfold js_or. rewrite (toInt32_small a), (toInt32_small b) by lia.
  apply toInt32_small. pose proof (lor_range a b 31). lia.
Qed.

Lemma encodeSelection_acc selected acc :
  (0 ≤ acc < 2 ^ 31)%Z → Forall (fun i => i < 31) selected →
  (0 ≤ foldl (fun acc idx => js_or acc (js_shl 1 idx)) acc selected < 2 ^ 31)%Z
  ∧ ∀ o : nat,
      Z.testbit (foldl (fun acc idx => js_or acc (js_shl 1 idx)) acc selected) (Z.of_nat o)
      = Z.testbit acc (Z.of_nat o) || bool_decide (o ∈ selected).
Proof.
  intros Hacc Hsel. revert acc Hacc.
  induction Hsel as [|i selected Hi Hsel IH]; intros acc Hacc.
  - cbn. split; [done|]. intros o. by rewrite orb_false_r.
  - cbn [foldl].
    assert (Hp : (0 ≤ 2 ^ Z.of_nat i < 2 ^ 31)%Z).
    { split; [apply Z.pow_nonneg; lia|apply Z.pow_lt_mono_r; lia]. }
    rewrite js_shl_one by done. rewrite js_or_small by done.
    destruct (IH (Z.lor acc (2 ^ Z.of_nat i))) as [Hr Hb].
    { pose proof (lor_range acc (2 ^ Z.of_nat i) 31). lia. }
    split; [done|]. intros o. rewrite Hb, Z.lor_spec, Z.pow2_bits_eqb by lia.
    rewrite <- orb_assoc. f_equal.
    destruct (decide (o = i)) as [->|Hne].
    + rewrite Z.eqb_refl. cbn. symmetry. apply bool_decide_eq_true. by left.
    + destruct (Z.eqb_spec (Z.of_nat i) (Z.of_nat o)); [lia|]. cbn.
      apply bool_decide_ext. rewrite elem_of_cons.
      split; [auto|]. by intros [?|?].
Qed.

(** The bitmask of a selection of options below 31 is a non-negative
    number below [2^31] whose bit [o] tells whether option [o] is
    selected. *)
Lemma encodeSelection_bits selected :
  Forall (fun i => i < 31) selected →
  (0 ≤ encodeSelection selected < 2 ^ 31)%Z
  ∧ ∀ o : nat, Z.testbit (encodeSelection selected) (Z.of_nat o) = bool_decide (o ∈ selected).
Proof.
  intros Hsel. destruct (encodeSelection_acc selected 0 ltac:(lia) Hsel) as [Hr Hb].
  split; [done|]. intros o. unfold encodeSelection. rewrite Hb.
  by rewrite Z.bits_0.
Qed.

Section Client.
Variable this : address.
Variable verifyCiphertext : externalEuint32 → bytes → option Z.
Notation dispatch' := (dispatch this verifyCiphertext).
Notation run' := (run this verifyCiphertext).
Notation reachable' := (reachable this verifyCiphertext).

(** X24. From the checkboxes to the buckets. When the answer to a
    [MultipleChoice] question (of at most [2^32] options) is the bitmask the
    client builds from a selection of options, all below 31, an accepted
    response adds one, modulo [2^32], to the plaintext of the bucket of
    every selected option and leaves that of every other option of the
    question as it is. *)
Theorem selection_round_trip s env id ans prf s' q selected :
  reachable' s →
  dispatch' env (SubmitResponse id ans prf) s = Ok s' →
  q < questionCount (survey s id) →
  qType (question (survey s id) q) = MultipleChoice →
  (Z.of_nat (optionCount (question (survey s id) q)) ≤ 2 ^ 32)%Z →
  Forall (fun i => i < 31) selected →
  plainAnswer verifyCiphertext ans prf q = Some (encodeSelection selected) →
  ∀ o, o < optionCount (question (survey s id) q) →
    shadow (aggregated (survey s' id) q o)
    = if bool_decide (o ∈ selected)
      then uint32 (shadow (aggregated (survey s id) q o) + 1)
      else shadow (aggregated (survey s id) q o).
Proof.
  intros Hr Hd Hq Hty HN Hsel Ha o Ho.
  destruct (submit_buckets this verifyCiphertext s env id ans prf s' q Hr Hd Hq)
    as (a & Ha' & Hrange & Hadd & Hzero & _).
  assert (a = encodeSelection selected) as -> by congruence.
  destruct (encodeSelection_bits selected Hsel) as [_ Hbits].
  assert (Hb : bucketCount (question (survey s id) q)
               = optionCount (question (survey s id) q)).
  { by rewrite bucketCount_eq, Hty. }
  assert (Hind : indicator (question (survey s id) q) (encodeSelection selected) o
                 = if bool_decide (o ∈ selected) then 1%Z else 0%Z).
  { rewrite indicator_MultipleChoice by (done || lia). by rewrite Hbits. }
  destruct (bool_decide (o ∈ selected)).
  - rewrite Hadd by lia. by rewrite Hind.
  - apply Hzero; [lia|done].
Qed.

End Client.

Lemma js_shl_wraps a i : js_shl a (i + 32) = js_shl a i.
Proof.
  unfold js_shl. do 2 f_equal.
  rewrite Nat2Z.inj_add. change (Z.of_nat 32) with (1 * 32)%Z.
  apply Z_mod_plus_full.
Qed.

Lemma lor_sign_bit v : (0 ≤ v < 2 ^ 31)%Z → Z.lor v (- 2 ^ 31) = (v - 2 ^ 31)%Z.
Proof.
  intros Hv.
  assert (Hl : Z.land v (- 2 ^ 31) = 0%Z).
  { change (- 2 ^ 31)%Z with (Z.lnot (Z.ones 31)).
    rewrite <- Z.ldiff_land, Z.ldiff_ones_r by lia.
    rewrite Z.shiftr_div_pow2 by lia. rewrite Z.div_small by lia. done. }
  rewrite <- Z.lxor_lor by done. rewrite <- Z.add_nocarry_lxor by done. lia.
Qed.

(** X25. The limits of the bitmask. The shift count of [<<] is taken modulo 32
    and the result is a signed 32-bit integer: an option index of 32 or more
    is encoded as the index 32 places lower, and selecting option 31 makes
    the bitmask negative. The client encodes selections faithfully only for
    questions with at most 31 options. *)
Theorem selection_encoding_limits selected :
  encodeSelection (map (fun i => i + 32) selected) = encodeSelection selected
  ∧ (Forall (fun i => i < 31) selected →
     encodeSelection (selected ++ [31]) = (encodeSelection selected - 2 ^ 31)%Z
     ∧ (encodeSelection (selected ++ [31%nat]) < 0)%Z).
Proof.
  split.
  - unfold encodeSelection. generalize 0%Z as acc.
    induction selected as [|i selected IH]; intros acc; [done|].
    cbn. by rewrite js_shl_wraps, IH.
  - intros Hsel. destruct (encodeSelection_bits selected Hsel) as [Hr _].
    assert (He : encodeSelection (selected ++ [31])
                 = (encodeSelection selected - 2 ^ 31)%Z).
    { unfold encodeSelection at 1. rewrite foldl_app. cbn [foldl].
      fold (encodeSelection selected).
      change (js_shl 1 31) with (- 2 ^ 31)%Z.
      unfold js_or. rewrite (toInt32_small (encodeSelection selected)) by lia.
      change (toInt32 (- 2 ^ 31)) with (- 2 ^ 31)%Z.
      rewrite lor_sign_bit by done. apply toInt32_small. lia. }
    split; [done|]. rewrite He. lia.
Qed.

Lemma toggle_spec l x :
  NoDup l →
  NoDup (toggleMultipleChoice l x)
  ∧ ∀ o, o ∈ toggleMultipleChoice l x ↔ (o = x ∧ x ∉ l) ∨ (o ≠ x ∧ o ∈ l).
Proof.
  intros Hnd. unfold toggleMultipleChoice.
  destruct (list_find (fun y => y = x) l) as [[i y]|] eqn:E.
  - apply list_find_Some in E as (Hi & -> & _).
    rewrite delete_take_drop.
    rewrite <- (take_drop_middle l i x Hi) in Hnd.
    apply NoDup_app in Hnd as (Hn1 & Hdis & Hn2).
    apply NoDup_cons in Hn2 as [Hx2 Hn2].
    assert (Hx1 : x ∉ take i l).
    { intros Hin. apply (Hdis x Hin). by left. }
    split.
    + apply NoDup_app. split; [done|]. split; [|done].
      intros o Ho Ho'. apply (Hdis o Ho). by right.
    + intros o. rewrite elem_of_app.
      assert (Hl : o ∈ l ↔ o ∈ take i l ∨ o = x ∨ o ∈ drop (S i) l).
      { rewrite <- (take_drop_middle l i x Hi) at 1.
        by rewrite elem_of_app, elem_of_cons. }
      assert (Hxl : x ∈ l) by (by eapply list_elem_of_lookup_2).
      rewrite Hl. split.
      * intros [Ho|Ho]; right; (split; [congruence|auto]).
      * intros [[_ Hno]|[Hne [Ho|[Ho|Ho]]]]; [done|auto|done|auto].
  - apply list_find_None in E. rewrite Forall_forall in E.
    assert (Hx : x ∉ l) by (intros Hin; by apply (E x Hin)).
    split.
    + apply NoDup_app. split; [done|]. split; [|apply NoDup_singleton].
      intros o Ho ->%list_elem_of_singleton. done.
    + intros o. rewrite elem_of_app, list_elem_of_singleton. split.
      * intros [Ho| ->]; [right|left; done]. split; [congruence|done].
      * intros [[-> _]|[_ Ho]]; auto.
Qed.

(** X26. From the clicks to the bitmask. Starting from the empty selection, the
    checkbox handler [toggleMultipleChoice] keeps a list without duplicates
    that holds exactly the options clicked an odd number of times; when
    every option clicked is below 31, these are the bits of the bitmask
    [handleSubmit] sends. *)
Theorem toggles_select_odd_clicks clicks :
  NoDup (foldl toggleMultipleChoice [] clicks)
  ∧ (∀ o, o ∈ foldl toggleMultipleChoice [] clicks
          ↔ Nat.odd (count_occ Nat.eq_dec clicks o) = true)
  ∧ (Forall (fun i => i < 31) clicks →
     ∀ o, Z.testbit (encodeSelection (foldl toggleMultipleChoice [] clicks)) (Z.of_nat o)
          = Nat.odd (count_occ Nat.eq_dec clicks o)).
Proof.
  assert (H : NoDup (foldl toggleMultipleChoice [] clicks)
    ∧ ∀ o, o ∈ foldl toggleMultipleChoice [] clicks
           ↔ Nat.odd (count_occ Nat.eq_dec clicks o) = true).
  { induction clicks as [|x clicks IH] using rev_ind.
    - split; [apply NoDup_nil_2|]. intros o. cbn. split; [by intros ?%elem_of_nil|done].
    - destruct IH as [Hnd Hmem]. rewrite foldl_app. cbn [foldl].
      destruct (toggle_spec (foldl toggleMultipleChoice [] clicks) x Hnd) as [Hnd' Hmem'].
      split; [done|]. intros o. rewrite Hmem', count_occ_app. cbn [count_occ].
      rewrite !Hmem.
      destruct (Nat.eq_dec x o) as [->|Hne].
      + replace (count_occ Nat.eq_dec clicks o + 1) with (S (count_occ Nat.eq_dec clicks o))
          by lia.
        rewrite Nat.odd_succ, <- Nat.negb_odd.
        destruct (Nat.odd (count_occ Nat.eq_dec clicks o)); cbn; split; try done.
        * intros [[_ Hn]|[Hn _]]; done.
        * intros _. left. done.
      + rewrite Nat.add_0_r. split.
        * intros [[-> _]|[_ Ho]]; done.
        * intros Ho. right. split; [congruence|done]. }
  destruct H as [Hnd Hmem]. split; [done|]. split; [done|].
  intros Hsel o.
  assert (Hsel' : Forall (fun i => i < 31) (foldl toggleMultipleChoice [] clicks)).
  { apply Forall_forall. intros i Hi%Hmem.
    rewrite Forall_forall in Hsel. apply Hsel.
    apply list_elem_of_In, (count_occ_In Nat.eq_dec).
    destruct (count_occ Nat.eq_dec clicks i); [done|lia]. }
  destruct (encodeSelection_bits _ Hsel') as [_ Hbits]. rewrite Hbits.
  destruct (Nat.odd (count_occ Nat.eq_dec clicks o)) eqn:E.
  - apply bool_decide_eq_true. by apply Hmem.
  - apply bool_decide_eq_false. intros Hin%Hmem. congruence.
Qed.

Lemma padHandles_exact n l : length l = n → padHandles n l = l.
Proof.
  intros <-. unfold padHandles. rewrite Nat.ltb_irrefl. apply firstn_all.
Qed.

Lemma mapM_views {A B} (f : A → M B) (g : A → B) (l : list A) s :
  (∀ x, x ∈ l → f x s = Ok (g x, s)) → mapM f l s = Ok (map g l, s).
Proof.
  induction l as [|x l IH]; intros Hf; [done|].
  cbn. unfold bind. rewrite (Hf x) by (by left).
  rewrite IH by (intros y Hy; apply Hf; by right). done.
Qed.

Lemma getQuestionInfo_run s id q :
  s_exists (survey s id) = true → (q <? questionCount (survey s id)) = true →
  getQuestionInfo id q s
  = Ok ((text (question (survey s id) q), qType (question (survey s id) q),
         optionCount (question (survey s id) q), options (question (survey s id) q)), s).
Proof.
  intros Hex Hlt. unfold getQuestionInfo, bind, get. rewrite Hex. cbn [require ret].
  by rewrite Hlt.
Qed.

Lemma getQuestionOptionCounts_run s id q :
  s_exists (survey s id) = true → (q <? questionCount (survey s id)) = true →
  getQuestionOptionCounts id q s = Ok (countHandles (survey s id) q, s).
Proof.
  intros Hex Hlt. unfold getQuestionOptionCounts, bind, get. rewrite Hex. cbn [require ret].
  by rewrite Hlt.
Qed.

Section Hook.
Variable this : address.
Variable verifyCiphertext : externalEuint32 → bytes → option Z.
Notation reachable' := (reachable this verifyCiphertext).

(** X28. The hook reads what the contract returns. [loadAllQuestionResults]
    expects five handles for a rating question and as many as there are
    options otherwise, and pads or cuts what it reads to that length; in
    every reachable state that is the length of the list
    [getQuestionOptionCounts] returns, so the load succeeds and keeps, for
    every question, exactly the handles the contract returned. For an id
    under which no survey exists the load does not fail either: it yields no
    rows. *)
Theorem hook_reads_all_handles s id :
  reachable' s →
  view (loadAllQuestionResults id) s
  = Ok (map (fun q => map hid (countHandles (survey s id) q))
          (seq 0 (questionCount (survey s id))))
  ∧ (s_exists (survey s id) = false → view (loadAllQuestionResults id) s = Ok []).
Proof.
  intros Hr.
  assert (H : view (loadAllQuestionResults id) s
    = Ok (map (fun q => map hid (countHandles (survey s id) q))
            (seq 0 (questionCount (survey s id))))).
  { unfold view, loadAllQuestionResults. unfold bind at 1.
    unfold getSurveyInfo at 1. unfold bind at 1, get at 1, ret at 1.
    rewrite (mapM_views _ (fun q => map hid (countHandles (survey s id) q))); [done|].
    intros q Hq%elem_of_seq.
    destruct (s_exists (survey s id)) eqn:Hex.
    - assert (Hlt : (q <? questionCount (survey s id)) = true) by (apply Nat.ltb_lt; lia).
      unfold bind at 1. rewrite (getQuestionInfo_run s id q Hex Hlt). cbv beta iota.
      unfold bind at 1. rewrite (getQuestionOptionCounts_run s id q Hex Hlt).
      unfold ret. rewrite padHandles_exact; [done|].
      rewrite length_map. unfold countHandles, bucketCount.
      by rewrite length_map, length_seq.
    - rewrite (slots_ok_survey s id (reachable_slots_ok this verifyCiphertext s Hr) Hex) in Hq.
      cbn in Hq. lia. }
  split; [exact H|]. intros Hex. rewrite H.
  by rewrite (slots_ok_survey s id (reachable_slots_ok this verifyCiphertext s Hr) Hex).
Qed.

End Hook.

Section FormTheorem.
Variable trim : string → string.
Variable this : address.

Lemma not_blank x :
  trim "" = ""%string → blank trim x = false → (0 <? String.length x) = true.
Proof.
  unfold blank. intros trim_empty H. apply String_length_pos_2. intros ->.
  by rewrite trim_empty in H.
Qed.


End FormTheorem.

(** * The status in the log *)

Section StatusLog.
Variable this : address.
Variable verifyCiphertext : externalEuint32 → bytes → option Z.
Notation dispatch' := (dispatch this verifyCiphertext).
Notation reachable' := (reachable this verifyCiphertext).

Lemma lastStatus_other id e evs :
  (∀ b, e ≠ SurveyStatusChanged id b) →
  lastStatus id (e :: evs) = lastStatus id evs.
Proof.
  intros Hne. destruct e; try done. cbn.
  destruct (N.eqb_spec surveyId id) as [->|]; [|done]. by destruct (Hne active).
Qed.

Lemma reachable_status s id :
  reachable' s →
  if s_exists (survey s id)
  then isActive (survey s id) = default true (lastStatus id (events s))
  else lastStatus id (events s) = None.
Proof.
  intros Hr. revert id. induction Hr as [|s env c s' Hr IH Hd]; intros id.
  - done.
  - pose proof (reachable_slots_ok this verifyCiphertext s Hr) as Hs.
    apply dispatch_Ok in Hd.
    assert (Hsame : survey s' id = survey s id →
      lastStatus id (events s') = lastStatus id (events s) →
      if s_exists (survey s' id)
      then isActive (survey s' id) = default true (lastStatus id (events s'))
      else lastStatus id (events s') = None).
    { intros -> ->. apply IH. }
    destruct c; cbn in Hd.
    + destruct Hd as [id0 Hc].
      assert (He : lastStatus id (events s') = lastStatus id (events s)).
      { by rewrite (ce_events _ _ _ _ _ _ _ _ _ _ _ _ _ Hc). }
      destruct (decide (id = id0)) as [->|Hne].
      * destruct (ce_meta _ _ _ _ _ _ _ _ _ _ _ _ _ Hc) as (qs & Hm & _).
        unfold meta in Hm. injection Hm as _ _ _ _ _ _ _ Hex _ _.
        rewrite Hex, (ce_active _ _ _ _ _ _ _ _ _ _ _ _ _ Hc), He.
        specialize (IH id0). rewrite (survey_absent s id0) in IH.
        -- cbn in IH. by rewrite IH.
        -- rewrite (ce_id _ _ _ _ _ _ _ _ _ _ _ _ _ Hc). by apply slots_ok_fresh.
      * apply Hsame; [|done]. apply survey_lookup.
        by apply (ce_others _ _ _ _ _ _ _ _ _ _ _ _ _ Hc).
    + assert (He : lastStatus id (events s') = lastStatus id (events s)).
      { by rewrite (se_events _ _ _ _ _ _ _ Hd). }
      rewrite He. destruct (decide (id = surveyId)) as [->|Hne].
      * rewrite (meta_exists _ _ (se_meta _ _ _ _ _ _ _ Hd)),
          (se_active _ _ _ _ _ _ _ Hd). apply IH.
      * rewrite (survey_lookup s s' id (se_others _ _ _ _ _ _ _ Hd id Hne)). apply IH.
    + destruct Hd as (_ & _ & ->). by apply Hsame.
    + destruct Hd as (_ & _ & ->). by apply Hsame.
    + destruct Hd as (Hex & _ & ->). destruct (decide (id = surveyId)) as [->|Hne].
      * rewrite switched_survey. cbn. by rewrite Hex, N.eqb_refl.
      * apply Hsame.
        -- apply survey_lookup. by apply switched_surveys_other.
        -- cbn. destruct (N.eqb_spec surveyId id); [congruence|done].
    + destruct Hd as (_ & _ & ->). by apply Hsame.
    + destruct Hd as (_ & _ & ->). by apply Hsame.
Qed.

(** X23. The status is in the log. The active flag [getSurveyInfo] returns for
    an existing survey is the flag of the most recent [SurveyStatusChanged]
    event for the survey, and [true] when there is none; the log holds no
    such event for an id under which no survey exists. *)
Theorem status_matches_events s id :
  reachable' s →
  (s_exists (survey s id) = true →
   ∃ who ttl cat at_ st en n,
     view (getSurveyInfo id) s
     = Ok (who, ttl, cat, at_, st, en, n, true, default true (lastStatus id (events s))))
  ∧ (s_exists (survey s id) = false → lastStatus id (events s) = None).
Proof.
  intros Hr. pose proof (reachable_status s id Hr) as H. split.
  - intros Hex. rewrite Hex in H. rewrite getSurveyInfo_eq, Hex, H. eauto 10.
  - intros Hex. by rewrite Hex in H.
Qed.

End StatusLog.

(** * The scenario, continued *)

Lemma exampleGranted_reachable : reachable exampleThis exampleVerify exampleGranted.
Proof. apply reachable_run, exampleCreated_reachable. Qed.

Lemma exampleCreate_Ok :
  createSurvey exampleThis (MkEnv alice 100) "T" "C" ["x"%string] 100 200
    ["Q1"; "Q2"; "Q3"]%string [SingleChoice; MultipleChoice; Rating]
    [["A"; "B"]; ["X"; "Y"; "Z"]; ["stars"]]%string initState
  = Ok (0%N, exampleCreated).
Proof. vm_compute. reflexivity. Qed.

Lemma exampleSubmitBob_Ok :
  dispatch exampleThis exampleVerify (MkEnv bob 150)
    (SubmitResponse 0 [1%N; 5%N; 4%N] [exampleProof; exampleProof; exampleProof])
    exampleCreated
  = Ok exampleAnswered.
Proof. vm_compute. reflexivity. Qed.

Lemma createSurvey_getters_witness :
  createSurvey exampleThis (MkEnv alice 100) "T" "C" ["x"%string] 100 200
    ["Q1"; "Q2"; "Q3"]%string [SingleChoice; MultipleChoice; Rating]
    [["A"; "B"]; ["X"; "Y"; "Z"]; ["stars"]]%string initState
  = Ok (0%N, exampleCreated)
  ∧ view (getSurveyInfo 0) exampleCreated
    = Ok (alice, "T"%string, "C"%string, 100%N, 100%N, 200%N, 3, true, true)
  ∧ view (getSurveyTags 0) exampleCreated = Ok ["x"%string].
Proof.
  split; [exact exampleCreate_Ok|].
  destruct (createSurvey_getters exampleThis _ _ _ _ _ _ _ _ _ _ _ _ exampleCreate_Ok)
    as (H1 & H2 & _).
  split; [exact H1|exact H2].
Defined.

Lemma survey_ids_consecutive_witness :
  reachable exampleThis exampleVerify exampleCreated ∧ dense exampleCreated.
Proof.
  split; [exact exampleCreated_reachable|].
  exact (proj1 (survey_ids_consecutive exampleThis exampleVerify exampleCreated
                  exampleCreated_reachable)).
Defined.

Lemma stored_surveys_well_formed_witness :
  reachable exampleThis exampleVerify exampleCreated
  ∧ s_exists (survey exampleCreated 0) = true
  ∧ wellFormed (survey exampleCreated 0).
Proof.
  assert (Hex : s_exists (survey exampleCreated 0) = true) by (vm_compute; reflexivity).
  split; [exact exampleCreated_reachable|]. split; [exact Hex|].
  exact (proj1 (stored_surveys_well_formed exampleThis exampleVerify exampleCreated 0
                  exampleCreated_reachable Hex)).
Defined.

Lemma reported_capability_is_effective_witness :
  reachable exampleThis exampleVerify exampleGranted
  ∧ view (getPermission 0 (sender (MkEnv bob 130))) exampleGranted = Ok (true, false, false)
  ∧ ∃ s', dispatch exampleThis exampleVerify (MkEnv bob 130) (AuthorizeMyDecryption 0)
            exampleGranted = Ok s'.
Proof.
  assert (Hp : view (getPermission 0 (sender (MkEnv bob 130))) exampleGranted
               = Ok (true, false, false)) by (vm_compute; reflexivity).
  split; [exact exampleGranted_reachable|]. split; [exact Hp|].
  apply (proj1 (reported_capability_is_effective exampleThis exampleVerify exampleGranted
                  (MkEnv bob 130) 0%N true false false exampleGranted_reachable Hp)).
  split; [vm_compute; reflexivity|]. right. reflexivity.
Defined.

Lemma grantPermission_round_trip_witness :
  dispatch exampleThis exampleVerify (MkEnv alice 120)
    (GrantPermission 0 bob false false false) exampleCreated
  = Ok (granted 0 bob false false false (MkEnv alice 120) exampleCreated)
  ∧ view (getPermission 0 bob)
      (granted 0 bob false false false (MkEnv alice 120) exampleCreated)
    = Ok (false, false, false)
  ∧ isAllowed (fhe (granted 0 bob false false false (MkEnv alice 120) exampleCreated))
      (hid (totalResponses (survey exampleCreated 0))) bob.
Proof.
  assert (Hd : dispatch exampleThis exampleVerify (MkEnv alice 120)
                 (GrantPermission 0 bob false false false) exampleCreated
               = Ok (granted 0 bob false false false (MkEnv alice 120) exampleCreated))
    by (vm_compute; reflexivity).
  split; [exact Hd|].
  destruct (grantPermission_round_trip exampleThis exampleVerify _ _ _ _ _ _ _ _ Hd)
    as (_ & H2 & _ & _ & _ & _ & _ & H8 & _).
  split; [exact H2|exact H8].
Defined.

Lemma permissions_change_only_by_creator_witness :
  reachable exampleThis exampleVerify exampleCreated
  ∧ s_exists (survey exampleCreated 0) = true
  ∧ dispatch exampleThis exampleVerify (MkEnv alice 120)
      (GrantPermission 0 bob true false false) exampleCreated
    = Ok exampleGranted
  ∧ permission exampleGranted 0 bob ≠ permission exampleCreated 0 bob
  ∧ sender (MkEnv alice 120) = creator (survey exampleCreated 0).
Proof.
  assert (Hex : s_exists (survey exampleCreated 0) = true) by (vm_compute; reflexivity).
  assert (Hd : dispatch exampleThis exampleVerify (MkEnv alice 120)
                 (GrantPermission 0 bob true false false) exampleCreated
               = Ok exampleGranted) by (vm_compute; reflexivity).
  assert (Hne : permission exampleGranted 0 bob ≠ permission exampleCreated 0 bob)
    by (vm_compute; discriminate).
  split; [exact exampleCreated_reachable|]. split; [exact Hex|].
  split; [exact Hd|]. split; [exact Hne|].
  exact (proj1 (permissions_change_only_by_creator exampleThis exampleVerify
    exampleCreated (MkEnv alice 120) _ exampleGranted 0%N bob
    exampleCreated_reachable Hex Hd Hne)).
Defined.

Lemma calls_are_local_witness :
  dispatch exampleThis exampleVerify (MkEnv bob 150)
    (SubmitResponse 0 [1%N; 5%N; 4%N] [exampleProof; exampleProof; exampleProof])
    exampleCreated
  = Ok exampleAnswered
  ∧ 7%N ≠ target (SubmitResponse 0 [1%N; 5%N; 4%N]
                    [exampleProof; exampleProof; exampleProof]) exampleCreated
  ∧ surveys exampleAnswered !! 7%N = surveys exampleCreated !! 7%N.
Proof.
  assert (Hne : 7%N ≠ target (SubmitResponse 0 [1%N; 5%N; 4%N]
                    [exampleProof; exampleProof; exampleProof]) exampleCreated)
    by (vm_compute; discriminate).
  split; [exact exampleSubmitBob_Ok|]. split; [exact Hne|].
  exact (proj1 (calls_are_local exampleThis exampleVerify exampleCreated _ _
                  exampleAnswered 7%N exampleSubmitBob_Ok Hne)).
Defined.

Lemma deactivated_survey_rejects_witness :
  reachable exampleThis exampleVerify exampleCreated
  ∧ dispatch exampleThis exampleVerify (MkEnv alice 120) (SetSurveyStatus 0 false)
      exampleCreated = Ok exampleSwitchedOff
  ∧ Forall (fun ec : Env * Call => ec.2 ≠ SetSurveyStatus 0 true) [exampleSubmitBob]
  ∧ dispatch exampleThis exampleVerify (MkEnv carol 160)
      (SubmitResponse 0 [0%N; 2%N; 9%N] [exampleProof; exampleProof; exampleProof])
      (run exampleThis exampleVerify exampleSwitchedOff [exampleSubmitBob])
    = Revert "Survey is not active".
Proof.
  assert (Hd : dispatch exampleThis exampleVerify (MkEnv alice 120) (SetSurveyStatus 0 false)
                 exampleCreated = Ok exampleSwitchedOff) by (vm_compute; reflexivity).
  assert (Hc : Forall (fun ec : Env * Call => ec.2 ≠ SetSurveyStatus 0 true)
                 [exampleSubmitBob]).
  { apply Forall_cons. split; [cbn; discriminate|apply Forall_nil_2]. }
  split; [exact exampleCreated_reachable|]. split; [exact Hd|]. split; [exact Hc|].
  exact (proj1 (deactivated_survey_rejects exampleThis exampleVerify exampleCreated
    (MkEnv alice 120) 0%N exampleSwitchedOff [exampleSubmitBob]
    exampleCreated_reachable Hd Hc) (MkEnv carol 160) _ _).
Defined.

Lemma window_enforced_witness :
  reachable exampleThis exampleVerify initState
  ∧ createSurvey exampleThis (MkEnv alice 100) "T" "C" ["x"%string] 100 200
      ["Q1"; "Q2"; "Q3"]%string [SingleChoice; MultipleChoice; Rating]
      [["A"; "B"]; ["X"; "Y"; "Z"]; ["stars"]]%string initState
    = Ok (0%N, exampleCreated)
  ∧ (timestamp (MkEnv bob 250) < 100 ∨ 200 < timestamp (MkEnv bob 250))%N
  ∧ ∃ msg,
      dispatch exampleThis exampleVerify (MkEnv bob 250)
        (SubmitResponse 0 [1%N; 5%N; 4%N] [exampleProof; exampleProof; exampleProof])
        (run exampleThis exampleVerify exampleCreated [exampleSubmitCarol])
      = Revert msg
      ∧ (msg = "Survey is not active"%string ∨ msg = "Survey period invalid"%string).
Proof.
  assert (Hout : (timestamp (MkEnv bob 250) < 100 ∨ 200 < timestamp (MkEnv bob 250))%N)
    by (right; vm_compute; reflexivity).
  split; [apply reachable_init|]. split; [exact exampleCreate_Ok|]. split; [exact Hout|].
  exact (window_enforced exampleThis exampleVerify initState _ _ _ _ _ _ _ _ _ _
    exampleCreated [exampleSubmitCarol] (MkEnv bob 250) _ _
    (reachable_init _ _) exampleCreate_Ok Hout).
Defined.

Lemma creator_keeps_control_witness :
  reachable exampleThis exampleVerify exampleCreated
  ∧ s_exists (survey exampleCreated 0) = true
  ∧ sender (MkEnv alice 140) = creator (survey exampleCreated 0)
  ∧ ∃ s2, dispatch exampleThis exampleVerify (MkEnv alice 140)
            (SetSurveyStatus 0 false)
            (run exampleThis exampleVerify exampleCreated
               [(MkEnv alice 130, RevokePermission 0 alice)]) = Ok s2
          ∧ isActive (survey s2 0) = false.
Proof.
  assert (Hex : s_exists (survey exampleCreated 0) = true) by (vm_compute; reflexivity).
  assert (Hc : sender (MkEnv alice 140) = creator (survey exampleCreated 0))
    by (vm_compute; reflexivity).
  split; [exact exampleCreated_reachable|]. split; [exact Hex|]. split; [exact Hc|].
  exact (proj1 (proj2 (proj2 (creator_keeps_control exampleThis exampleVerify
    exampleCreated 0%N [(MkEnv alice 130, RevokePermission 0 alice)] (MkEnv alice 140)
    exampleCreated_reachable Hex Hc))) false).
Defined.

Lemma delegated_manager_witness :
  s_exists (survey exampleCreated 0) = true
  ∧ sender (MkEnv alice 120) = creator (survey exampleCreated 0)
  ∧ sender (MkEnv bob 130) = bob
  ∧ bob ≠ creator (survey exampleCreated 0)
  ∧ ∃ s1 s2,
      dispatch exampleThis exampleVerify (MkEnv alice 120)
        (GrantPermission 0 bob false false true) exampleCreated = Ok s1
      ∧ dispatch exampleThis exampleVerify (MkEnv alice 120) (RevokePermission 0 bob) s1
        = Ok s2
      ∧ dispatch exampleThis exampleVerify (MkEnv bob 130) (SetSurveyStatus 0 false) s2
        = Revert "Not authorized".
Proof.
  assert (Hex : s_exists (survey exampleCreated 0) = true) by (vm_compute; reflexivity).
  assert (Hc : sender (MkEnv alice 120) = creator (survey exampleCreated 0))
    by (vm_compute; reflexivity).
  assert (Hm : sender (MkEnv bob 130) = bob) by reflexivity.
  assert (Hne : bob ≠ creator (survey exampleCreated 0)) by (vm_compute; discriminate).
  split; [exact Hex|]. split; [exact Hc|]. split; [exact Hm|]. split; [exact Hne|].
  destruct (delegated_manager exampleThis exampleVerify exampleCreated 0%N bob false false
    (MkEnv alice 120) (MkEnv alice 120) (MkEnv bob 130) Hex Hc Hc Hm Hne)
    as (s1 & s2 & H1 & _ & _ & _ & H5 & H6).
  exists s1, s2. split; [exact H1|]. split; [exact H5|exact (H6 false)].
Defined.

Lemma responses_within_window_witness :
  reachable exampleThis exampleVerify exampleAnswered
  ∧ r_exists (response exampleAnswered 0 bob) = true
  ∧ (startTime (survey exampleAnswered 0) ≤ submittedAt (response exampleAnswered 0 bob)
     ≤ endTime (survey exampleAnswered 0))%N.
Proof.
  assert (Hex : r_exists (response exampleAnswered 0 bob) = true)
    by (vm_compute; reflexivity).
  split; [exact exampleAnswered_reachable|]. split; [exact Hex|].
  exact (proj2 (responses_within_window exampleThis exampleVerify exampleAnswered 0%N bob
                  exampleAnswered_reachable Hex)).
Defined.

Lemma responses_match_events_witness :
  reachable exampleThis exampleVerify exampleAnswered
  ∧ NoDup (respondents 0 (events exampleAnswered))
  ∧ shadow (totalResponses (survey exampleAnswered 0))
    = uint32 (Z.of_nat (length (respondents 0 (events exampleAnswered)))).
Proof.
  split; [exact exampleAnswered_reachable|].
  exact (proj2 (responses_match_events exampleThis exampleVerify exampleAnswered 0%N
                  exampleAnswered_reachable)).
Defined.

Lemma creator_holds_grants_witness :
  reachable exampleThis exampleVerify exampleAnswered
  ∧ s_exists (survey exampleAnswered 0) = true
  ∧ ∃ e, view (getTotalResponses 0) exampleAnswered = Ok e
      ∧ isAllowed (fhe exampleAnswered) (hid e) (creator (survey exampleAnswered 0))
      ∧ isAllowed (fhe exampleAnswered) (hid e) exampleThis.
Proof.
  assert (Hex : s_exists (survey exampleAnswered 0) = true) by (vm_compute; reflexivity).
  split; [exact exampleAnswered_reachable|]. split; [exact Hex|].
  exact (proj1 (creator_holds_grants exampleThis exampleVerify exampleAnswered 0%N
                  exampleAnswered_reachable Hex)).
Defined.

Lemma results_initialised_together_witness :
  reachable exampleThis exampleVerify exampleAnswered
  ∧ view (hasResponded 0 bob) exampleAnswered = Ok true
  ∧ 1 < questionCount (survey exampleAnswered 0)
  ∧ ∃ counts, view (getQuestionOptionCounts 0 1) exampleAnswered = Ok counts
      ∧ length counts = bucketCount (question (survey exampleAnswered 0) 1)
      ∧ ∀ o e, counts !! o = Some e →
          aggregatedCounts (survey exampleAnswered 0) !! (1, o) = Some e
          ∧ isAllowed (fhe exampleAnswered) (hid e) (creator (survey exampleAnswered 0))
          ∧ isAllowed (fhe exampleAnswered) (hid e) exampleThis.
Proof.
  assert (Hh : view (hasResponded 0 bob) exampleAnswered = Ok true)
    by (vm_compute; reflexivity).
  assert (Hq : 1 < questionCount (survey exampleAnswered 0)) by (vm_compute; lia).
  split; [exact exampleAnswered_reachable|]. split; [exact Hh|]. split; [exact Hq|].
  exact (results_initialised_together exampleThis exampleVerify exampleAnswered 0%N bob 1
           exampleAnswered_reachable Hh Hq).
Defined.

Lemma created_survey_is_blank_witness :
  reachable exampleThis exampleVerify initState
  ∧ createSurvey exampleThis (MkEnv alice 100) "T" "C" ["x"%string] 100 200
      ["Q1"; "Q2"; "Q3"]%string [SingleChoice; MultipleChoice; Rating]
      [["A"; "B"]; ["X"; "Y"; "Z"]; ["stars"]]%string initState
    = Ok (0%N, exampleCreated)
  ∧ view (hasResponded 0 bob) exampleCreated = Ok false.
Proof.
  split; [apply reachable_init|]. split; [exact exampleCreate_Ok|].
  exact (proj1 (created_survey_is_blank exampleThis exampleVerify initState _ _ _ _ _ _ _ _ _
                  _ exampleCreated (reachable_init _ _) exampleCreate_Ok) bob).
Defined.

Lemma created_events_match_surveys_witness :
  reachable exampleThis exampleVerify exampleAnswered
  ∧ (SurveyCreated 0 alice "T" "C" 3 ∈ events exampleAnswered
     ↔ ∃ at_ st en act,
         view (getSurveyInfo 0) exampleAnswered
         = Ok (alice, "T"%string, "C"%string, at_, st, en, 3, true, act)).
Proof.
  split; [exact exampleAnswered_reachable|].
  exact (created_events_match_surveys exampleThis exampleVerify exampleAnswered 0%N alice
           "T" "C" 3 exampleAnswered_reachable).
Defined.

Lemma submitted_answers_round_trip_witness :
  reachable exampleThis exampleVerify exampleCreated
  ∧ dispatch exampleThis exampleVerify (MkEnv bob 150)
      (SubmitResponse 0 [1%N; 5%N; 4%N] [exampleProof; exampleProof; exampleProof])
      exampleCreated
    = Ok exampleAnswered
  ∧ 1 < questionCount (survey exampleCreated 0)
  ∧ ∃ a e,
      plainAnswer exampleVerify [1%N; 5%N; 4%N]
        [exampleProof; exampleProof; exampleProof] 1 = Some a
      ∧ view (getResponse 0 (sender (MkEnv bob 150)) 1)
          (run exampleThis exampleVerify exampleAnswered [exampleSubmitCarol]) = Ok e
      ∧ shadow e = a
      ∧ view (hasResponded 0 (sender (MkEnv bob 150)))
          (run exampleThis exampleVerify exampleAnswered [exampleSubmitCarol]) = Ok true
      ∧ submittedAt (response
          (run exampleThis exampleVerify exampleAnswered [exampleSubmitCarol]) 0
          (sender (MkEnv bob 150))) = timestamp (MkEnv bob 150).
Proof.
  assert (Hq : 1 < questionCount (survey exampleCreated 0)) by (vm_compute; lia).
  split; [exact exampleCreated_reachable|]. split; [exact exampleSubmitBob_Ok|].
  split; [exact Hq|].
  exact (submitted_answers_round_trip exampleThis exampleVerify exampleCreated
    (MkEnv bob 150) 0%N _ _ exampleAnswered [exampleSubmitCarol] 1
    exampleCreated_reachable exampleSubmitBob_Ok Hq).
Defined.

Lemma out_of_range_choice_counts_nowhere_witness :
  reachable exampleThis exampleVerify exampleCreated
  ∧ dispatch exampleThis exampleVerify (MkEnv carol 160)
      (SubmitResponse 0 [7%N; 0%N; 3%N] [exampleProof; exampleProof; exampleProof])
      exampleCreated
    = Ok (run exampleThis exampleVerify exampleCreated
            [(MkEnv carol 160,
              SubmitResponse 0 [7%N; 0%N; 3%N] [exampleProof; exampleProof; exampleProof])])
  ∧ 0 < questionCount (survey exampleCreated 0)
  ∧ qType (question (survey exampleCreated 0) 0) = SingleChoice
  ∧ plainAnswer exampleVerify [7%N; 0%N; 3%N]
      [exampleProof; exampleProof; exampleProof] 0 = Some 7%Z
  ∧ (Z.of_nat (optionCount (question (survey exampleCreated 0) 0)) ≤ 7)%Z
  ∧ shadow (totalResponses (survey (run exampleThis exampleVerify exampleCreated
            [(MkEnv carol 160,
              SubmitResponse 0 [7%N; 0%N; 3%N] [exampleProof; exampleProof; exampleProof])])
            0))
    = uint32 (shadow (totalResponses (survey exampleCreated 0)) + 1).
Proof.
  assert (Hd : dispatch exampleThis exampleVerify (MkEnv carol 160)
      (SubmitResponse 0 [7%N; 0%N; 3%N] [exampleProof; exampleProof; exampleProof])
      exampleCreated
    = Ok (run exampleThis exampleVerify exampleCreated
            [(MkEnv carol 160,
              SubmitResponse 0 [7%N; 0%N; 3%N] [exampleProof; exampleProof; exampleProof])]))
    by (vm_compute; reflexivity).
  assert (Hq : 0 < questionCount (survey exampleCreated 0)) by (vm_compute; lia).
  assert (Hty : qType (question (survey exampleCreated 0) 0) = SingleChoice)
    by (vm_compute; reflexivity).
  assert (Ha : plainAnswer exampleVerify [7%N; 0%N; 3%N]
      [exampleProof; exampleProof; exampleProof] 0 = Some 7%Z) by (vm_compute; reflexivity).
  assert (Ho : (Z.of_nat (optionCount (question (survey exampleCreated 0) 0)) ≤ 7)%Z)
    by (vm_compute; discriminate).
  split; [exact exampleCreated_reachable|]. split; [exact Hd|]. split; [exact Hq|].
  split; [exact Hty|]. split; [exact Ha|]. split; [exact Ho|].
  exact (proj2 (out_of_range_choice_counts_nowhere exampleThis exampleVerify exampleCreated
    (MkEnv carol 160) 0%N _ _ _ 0 7%Z exampleCreated_reachable Hd Hq Hty Ha Ho)).
Defined.

Lemma selection_round_trip_witness :
  reachable exampleThis exampleVerify exampleCreated
  ∧ dispatch exampleThis exampleVerify (MkEnv bob 150)
      (SubmitResponse 0 [1%N; 5%N; 4%N] [exampleProof; exampleProof; exampleProof])
      exampleCreated
    = Ok exampleAnswered
  ∧ 1 < questionCount (survey exampleCreated 0)
  ∧ qType (question (survey exampleCreated 0) 1) = MultipleChoice
  ∧ (Z.of_nat (optionCount (question (survey exampleCreated 0) 1)) ≤ 2 ^ 32)%Z
  ∧ Forall (fun i => i < 31) [0; 2]
  ∧ plainAnswer exampleVerify [1%N; 5%N; 4%N]
      [exampleProof; exampleProof; exampleProof] 1 = Some (encodeSelection [0; 2])
  ∧ 2 < optionCount (question (survey exampleCreated 0) 1)
  ∧ shadow (aggregated (survey exampleAnswered 0) 1 2)
    = (if bool_decide (2 ∈ [0; 2])
       then uint32 (shadow (aggregated (survey exampleCreated 0) 1 2) + 1)
       else shadow (aggregated (survey exampleCreated 0) 1 2)).
Proof.
  assert (Hq : 1 < questionCount (survey exampleCreated 0)) by (vm_compute; lia).
  assert (Hty : qType (question (survey exampleCreated 0) 1) = MultipleChoice)
    by (vm_compute; reflexivity).
  assert (HN : (Z.of_nat (optionCount (question (survey exampleCreated 0) 1)) ≤ 2 ^ 32)%Z)
    by (vm_compute; discriminate).
  assert (Hsel : Forall (fun i => i < 31) [0; 2]).
  { apply Forall_cons. split; [lia|]. apply Forall_cons. split; [lia|apply Forall_nil_2]. }
  assert (Ha : plainAnswer exampleVerify [1%N; 5%N; 4%N]
      [exampleProof; exampleProof; exampleProof] 1 = Some (encodeSelection [0; 2]))
    by (vm_compute; reflexivity).
  assert (Ho : 2 < optionCount (question (survey exampleCreated 0) 1)) by (vm_compute; lia).
  split; [exact exampleCreated_reachable|]. split; [exact exampleSubmitBob_Ok|].
  split; [exact Hq|]. split; [exact Hty|]. split; [exact HN|]. split; [exact Hsel|].
  split; [exact Ha|]. split; [exact Ho|].
  exact (selection_round_trip exampleThis exampleVerify exampleCreated (MkEnv bob 150) 0%N
    _ _ exampleAnswered 1 [0; 2] exampleCreated_reachable exampleSubmitBob_Ok
    Hq Hty HN Hsel Ha 2 Ho).
Defined.

Lemma hook_reads_all_handles_witness :
  reachable exampleThis exampleVerify exampleAnswered
  ∧ view (loadAllQuestionResults 0) exampleAnswered
    = Ok (map (fun q => map hid (countHandles (survey exampleAnswered 0) q))
            (seq 0 (questionCount (survey exampleAnswered 0)))).
Proof.
  split; [exact exampleAnswered_reachable|].
  exact (proj1 (hook_reads_all_handles exampleThis exampleVerify exampleAnswered 0%N
                  exampleAnswered_reachable)).
Defined.


Lemma status_matches_events_witness :
  reachable exampleThis exampleVerify exampleSwitchedOff
  ∧ s_exists (survey exampleSwitchedOff 0) = true
  ∧ ∃ who ttl cat at_ st en n,
      view (getSurveyInfo 0) exampleSwitchedOff
      = Ok (who, ttl, cat, at_, st, en, n, true,
            default true (lastStatus 0 (events exampleSwitchedOff))).
Proof.
  assert (Hr : reachable exampleThis exampleVerify exampleSwitchedOff)
    by apply reachable_run, exampleCreated_reachable.
  assert (Hex : s_exists (survey exampleSwitchedOff 0) = true) by (vm_compute; reflexivity).
  split; [exact Hr|]. split; [exact Hex|].
  exact (proj1 (status_matches_events exampleThis exampleVerify exampleSwitchedOff 0%N Hr) Hex).
Defined.

Lemma submitResponse_guards_witness :
  dispatch exampleThis exampleVerify exampleSubmitBob.1 exampleSubmitBob.2 exampleCreated
  = Ok exampleAnswered
  ∧ acceptable exampleVerify (MkEnv bob 150) 0 [1%N; 5%N; 4%N]
      [exampleProof; exampleProof; exampleProof] exampleCreated
  ∧ dispatch exampleThis exampleVerify (MkEnv bob 170)
      (SubmitResponse 0 [0%N; 0%N; 0%N] [exampleProof; exampleProof; exampleProof])
      exampleAnswered
    = Revert "Response already submitted"
  ∧ dispatch exampleThis exampleVerify (MkEnv carol 250)
      (SubmitResponse 0 [0%N; 2%N; 9%N] [exampleProof; exampleProof; exampleProof])
      exampleAnswered
    = Revert "Survey period invalid"
  ∧ dispatch exampleThis exampleVerify (MkEnv carol 160)
      (SubmitResponse 0 [0%N; 2%N] [exampleProof; exampleProof]) exampleAnswered
    = Revert "Answers length mismatch"
  ∧ ∃ msg,
      dispatch exampleThis exampleVerify (MkEnv carol 160)
        (SubmitResponse 0 [0%N; 2%N; 9%N] [exampleProof; []; exampleProof])
        exampleAnswered
      = Revert msg.
Proof.
  assert (Hd : dispatch exampleThis exampleVerify exampleSubmitBob.1 exampleSubmitBob.2
                 exampleCreated = Ok exampleAnswered) by (vm_compute; reflexivity).
  assert (Hex : s_exists (survey exampleAnswered 0) = true) by (vm_compute; reflexivity).
  assert (Hact : isActive (survey exampleAnswered 0) = true) by (vm_compute; reflexivity).
  split; [exact Hd|].
  split.
  { pose proof (submitResponse_guards exampleThis exampleVerify (MkEnv bob 150) 0
      [1%N; 5%N; 4%N] [exampleProof; exampleProof; exampleProof] exampleCreated) as H.
    cbv zeta in H. exact (proj1 H exampleAnswered Hd). }
  split.
  { pose proof (submitResponse_guards exampleThis exampleVerify (MkEnv bob 170) 0
      [0%N; 0%N; 0%N] [exampleProof; exampleProof; exampleProof] exampleAnswered) as H.
    cbv zeta in H. destruct H as (_ & _ & _ & _ & H & _).
    destruct (H Hex Hact) as (_ & _ & Hre).
    - split; vm_compute; discriminate.
    - apply Hre; vm_compute; reflexivity. }
  split.
  { pose proof (submitResponse_guards exampleThis exampleVerify (MkEnv carol 250) 0
      [0%N; 2%N; 9%N] [exampleProof; exampleProof; exampleProof] exampleAnswered) as H.
    cbv zeta in H. destruct H as (_ & _ & _ & H & _).
    apply (H Hex Hact). right. vm_compute. reflexivity. }
  split.
  { pose proof (submitResponse_guards exampleThis exampleVerify (MkEnv carol 160) 0
      [0%N; 2%N] [exampleProof; exampleProof] exampleAnswered) as H.
    cbv zeta in H. destruct H as (_ & _ & _ & _ & H & _).
    destruct (H Hex Hact) as (Hla & _).
    - split; vm_compute; discriminate.
    - apply Hla. vm_compute. lia. }
  pose proof (submitResponse_guards exampleThis exampleVerify (MkEnv carol 160) 0
    [0%N; 2%N; 9%N] [exampleProof; []; exampleProof] exampleAnswered) as H.
  cbv zeta in H. destruct H as (_ & _ & _ & _ & _ & H).
  apply (H 1); [vm_compute; lia|vm_compute; reflexivity].
Defined.
